(** * UPS monitor ([ups_cache.py]): reply parser, cache store, forwarder and
    command dispatcher, embedded in Rocq and checked against the
    specification. *)

From Stdlib Require Import ZArith NArith Bool List String Ascii Lia.
From Stdlib Require Import Floats.
Import ListNotations.

Local Open Scope string_scope.
Local Open Scope Z_scope.

(** * Binary64 arithmetic

    Python's [float] is IEEE 754 binary64.  Every finite binary64 number is an
    integer multiple of [2^-1074], so a finite float is kept as a sign and
    that integer, its magnitude in units of [2^-1074].  Every operation
    computes the exact result as a quotient of integers and rounds it once to
    the nearest representable number, ties to the even mantissa, as the
    standard prescribes. *)
Module F64.

Inductive t : Type :=
| Finite (neg : bool) (mag : N)
| Inf (neg : bool)
| NaN.

(** The value 1.0, in units of [2^-1074]. *)
Definition one : Z := 2 ^ 1074.

(** The first magnitude that is out of range: [2^1024]. *)
Definition top : Z := 2 ^ 2098.

(** Nearest integer to [a / b], ties to even ([0 <= a], [0 < b]). *)
Definition rne (a b : Z) : Z :=
  let q := a / b in
  match (2 * (a mod b)) ?= b with
  | Lt => q
  | Gt => q + 1
  | Eq => if Z.even q then q else q + 1
  end.

(** Binary exponent of the grid on which [p / q] is rounded: 53 significant
    bits, and never finer than the unit. *)
Definition grid (p q : Z) : Z := Z.max 0 (Z.log2 (p / q) - 52).

(** Magnitude closest to [p / q] ([0 <= p], [0 < q]) among the multiples of
    [2 ^ grid p q]; [top] or more means overflow. *)
Definition round_mag (p q : Z) : Z :=
  let k := grid p q in rne p (q * 2 ^ k) * 2 ^ k.

(** The float of sign [neg] nearest to [p / q]. *)
Definition mk (neg : bool) (p q : Z) : t :=
  let n := round_mag p q in
  if n <? top then Finite neg (Z.to_N n) else Inf neg.

(** Signed value of a finite float, in units. *)
Definition sval (neg : bool) (mag : N) : Z :=
  if neg then - Z.of_N mag else Z.of_N mag.

Definition opp (x : t) : t :=
  match x with
  | Finite s n => Finite (negb s) n
  | Inf s => Inf (negb s)
  | NaN => NaN
  end.

Definition add (x y : t) : t :=
  match x, y with
  | NaN, _ | _, NaN => NaN
  | Inf s1, Inf s2 => if Bool.eqb s1 s2 then Inf s1 else NaN
  | Inf s, Finite _ _ => Inf s
  | Finite _ _, Inf s => Inf s
  | Finite s1 n1, Finite s2 n2 =>
      let z := sval s1 n1 + sval s2 n2 in
      if z =? 0 then Finite (s1 && s2) 0
      else mk (z <? 0) (Z.abs z) 1
  end.

Definition sub (x y : t) : t := add x (opp y).

Definition mul (x y : t) : t :=
  match x, y with
  | NaN, _ | _, NaN => NaN
  | Inf s1, Inf s2 => Inf (xorb s1 s2)
  | Inf s1, Finite s2 n | Finite s2 n, Inf s1 =>
      if (n =? 0)%N then NaN else Inf (xorb s1 s2)
  | Finite s1 n1, Finite s2 n2 =>
      mk (xorb s1 s2) (Z.of_N n1 * Z.of_N n2) one
  end.

(** IEEE division; Python raises before reaching it when [y] is zero. *)
Definition div (x y : t) : t :=
  match x, y with
  | NaN, _ | _, NaN => NaN
  | Inf _, Inf _ => NaN
  | Inf s1, Finite s2 _ => Inf (xorb s1 s2)
  | Finite s1 _, Inf s2 => Finite (xorb s1 s2) 0
  | Finite s1 n1, Finite s2 n2 =>
      if (n2 =? 0)%N then
        (if (n1 =? 0)%N then NaN else Inf (xorb s1 s2))
      else mk (xorb s1 s2) (Z.of_N n1 * one) (Z.of_N n2)
  end.

Definition is_nan (x : t) : bool :=
  match x with NaN => true | _ => false end.

Definition is_zero (x : t) : bool :=
  match x with Finite _ 0 => true | _ => false end.

(** Position of a float that is not NaN on the extended line, in units;
    the infinities sit at [top] and [- top]. *)
Definition key (x : t) : Z :=
  match x with
  | Finite s n => sval s n
  | Inf s => if s then - top else top
  | NaN => 0
  end.

Definition ltb (x y : t) : bool :=
  negb (is_nan x) && negb (is_nan y) && (key x <? key y).

Definition leb (x y : t) : bool :=
  negb (is_nan x) && negb (is_nan y) && (key x <=? key y).

(** Comparison of a float with an exact integer, as Python does it. *)
Definition cmp_int (x : t) (z : Z) : option comparison :=
  match x with
  | NaN => None
  | Inf s => Some (if s then Lt else Gt)
  | Finite s n => Some (sval s n ?= z * one)
  end.

(** The float nearest to the integer [z]. *)
Definition of_Z (z : Z) : t := mk (z <? 0) (Z.abs z * one) 1.

(** Integer part of a finite float (rounding towards zero). *)
Definition trunc (x : t) : option Z :=
  match x with
  | Finite s n => Some (if s then - (Z.of_N n / one) else Z.of_N n / one)
  | _ => None
  end.

(** Largest integer that is not above a finite float. *)
Definition floor (x : t) : option Z :=
  match x with
  | Finite s n => Some (sval s n / one)
  | _ => None
  end.

(** The float nearest to [d * 10 ^ e] with sign [neg] ([0 <= d]): what a
    decimal numeral denotes. *)
Definition of_decimal (neg : bool) (d e : Z) : t :=
  if 0 <=? e then mk neg (d * 10 ^ e * one) 1
  else mk neg (d * one) (10 ^ (- e)).

(** [round(x, 2)]: the exact value is rounded to a multiple of 1/100, ties
    to even, and that decimal is converted back to the nearest float;
    infinities and NaN round to themselves. *)
Definition round2 (x : t) : t :=
  match x with
  | Finite s n => mk s (rne (100 * Z.of_N n) one * one) 100
  | _ => x
  end.

(** A finite magnitude is in range. *)
Definition wf (x : t) : Prop :=
  match x with
  | Finite _ n => Z.of_N n < top
  | _ => True
  end.

(** Reading of a kernel float, for comparison with the machine's
    arithmetic. *)
Definition of_prim (f : PrimFloat.float) : t :=
  match Prim2SF f with
  | S754_zero s => Finite s 0
  | S754_infinity s => Inf s
  | S754_nan => NaN
  | S754_finite s m e => Finite s (Z.to_N (Z.pos m * 2 ^ (e + 1074)))
  end.

End F64.


(** * Python values, exceptions and text *)

(** Exceptions the program can meet.  [SystemExit] and [KeyboardInterrupt]
    derive from [BaseException] only: [except Exception] lets them through,
    a bare [except] does not. *)
Inductive exn : Type :=
| ValueError | OverflowError | TypeError | KeyError | IndexError
| ZeroDivisionError | AttributeError | OSError | FileNotFoundError
| UnicodeError | UnboundLocalError
| KeyboardInterrupt
| SystemExit (code : Z).

Definition is_Exception (e : exn) : bool :=
  match e with
  | KeyboardInterrupt | SystemExit _ => false
  | _ => true
  end.

(** Outcome of evaluating an expression: a value or a raised exception. *)
Inductive res (A : Type) : Type :=
| Ok (a : A)
| Raise (e : exn).
Arguments Ok {A} a.
Arguments Raise {A} e.

Definition rbind {A B} (r : res A) (k : A -> res B) : res B :=
  match r with
  | Ok a => k a
  | Raise e => Raise e
  end.

Declare Scope res_scope.
Delimit Scope res_scope with res.
Notation "x <- r ;; k" := (rbind r (fun x => k))
  (at level 61, r at next level, right associativity) : res_scope.

(** The values that occur: what the parser builds and what [json.load] can
    return.  A [dict] keeps its items in insertion order. *)
#[local] Unset Elimination Schemes.
Inductive pyval : Type :=
| PNone
| PBool (b : bool)
| PInt (z : Z)
| PFloat (f : F64.t)
| PStr (s : string)
| PList (l : list pyval)
| PDict (d : list (string * pyval)).
#[local] Set Elimination Schemes.

Definition dict : Type := list (string * pyval).

Fixpoint dict_get (k : string) (d : dict) : option pyval :=
  match d with
  | [] => None
  | (k', v) :: d' => if String.eqb k k' then Some v else dict_get k d'
  end.

(** [d[k] = v]: an existing key keeps its place, a new one goes last. *)
Fixpoint dict_set (k : string) (v : pyval) (d : dict) : dict :=
  match d with
  | [] => [(k, v)]
  | (k', v') :: d' =>
      if String.eqb k k' then (k, v) :: d' else (k', v') :: dict_set k v d'
  end.

(** A dict display or [**] unpacking: the items are stored left to right. *)
Definition dict_update (d items : dict) : dict :=
  fold_left (fun acc kv => dict_set (fst kv) (snd kv) acc) items d.

Definition dict_of (items : dict) : dict := dict_update [] items.

(** Truth value of an object, as [if x:] tests it. *)
Definition truthy (v : pyval) : bool :=
  match v with
  | PNone => false
  | PBool b => b
  | PInt z => negb (z =? 0)
  | PFloat f => negb (F64.is_zero f)
  | PStr s => negb (String.eqb s "")
  | PList l => match l with [] => false | _ => true end
  | PDict d => match d with [] => false | _ => true end
  end.

(** ** Text

    A [str] is a Rocq string whose characters stand for the code points
    U+0000 to U+00FF; the UPS protocol is plain ASCII. *)
Module Str.

Definition code (c : ascii) : Z := Z.of_nat (nat_of_ascii c).

(** [str.isspace] on this range: TAB to CR, FS to US, SPACE, NEL, NBSP. *)
Definition is_space (c : ascii) : bool :=
  let n := code c in
  ((9 <=? n) && (n <=? 13)) || ((28 <=? n) && (n <=? 32))
  || (n =? 133) || (n =? 160).

(** The whitespace [int] and [float] skip around a numeral: the ASCII
    characters TAB to CR and SPACE, and NEL and NBSP. *)
Definition is_blank (c : ascii) : bool :=
  let n := code c in
  ((9 <=? n) && (n <=? 13)) || (n =? 32) || (n =? 133) || (n =? 160).

Definition is_digit (c : ascii) : bool :=
  let n := code c in (48 <=? n) && (n <=? 57).

Definition digit (c : ascii) : Z := code c - 48.

Definition chars (s : string) : list ascii := list_ascii_of_string s.
Definition of_chars (l : list ascii) : string := string_of_list_ascii l.

Definition mem (c : ascii) (set : string) : bool :=
  existsb (Ascii.eqb c) (chars set).

Fixpoint drop_while (f : ascii -> bool) (l : list ascii) : list ascii :=
  match l with
  | [] => []
  | c :: l' => if f c then drop_while f l' else l
  end.

Definition strip_with (f : ascii -> bool) (s : string) : string :=
  of_chars (rev (drop_while f (rev (drop_while f (chars s))))).

(** [s.strip(set)] and [s.strip()]. *)
Definition strip_chars (set : string) (s : string) : string :=
  strip_with (fun c => mem c set) s.
Definition strip (s : string) : string := strip_with is_space s.
Definition strip_blank (s : string) : string := strip_with is_blank s.

(** [s.split()]: the maximal runs of characters that are not whitespace.
    [cur] is the run being read, last character first. *)
Fixpoint split_from (cur : list ascii) (l : list ascii) : list string :=
  match l with
  | [] => match cur with [] => [] | _ => [of_chars (rev cur)] end
  | c :: l' =>
      if is_space c then
        match cur with
        | [] => split_from [] l'
        | _ => of_chars (rev cur) :: split_from [] l'
        end
      else split_from (c :: cur) l'
  end.

Definition split (s : string) : list string := split_from [] (chars s).

Definition startswith (s pre : string) : bool := String.prefix pre s.

Definition len (s : string) : Z := Z.of_nat (String.length s).

(** [s[i]], a negative index counting from the end. *)
Definition getitem (s : string) (i : Z) : res ascii :=
  let j := if i <? 0 then i + len s else i in
  if (j <? 0) || (len s <=? j) then Raise IndexError
  else match String.get (Z.to_nat j) s with
       | Some c => Ok c
       | None => Raise IndexError
       end.

(** [sub in s] for strings. *)
Fixpoint contains (s sub : string) : bool :=
  String.prefix sub s
  || match s with
     | EmptyString => false
     | String _ s' => contains s' sub
     end.

Definition lower (c : ascii) : ascii :=
  let n := code c in
  if (65 <=? n) && (n <=? 90) then ascii_of_nat (Z.to_nat (n + 32)) else c.

(** The numeral routines allow an underscore between two digits and
    nowhere else, and read the text without them. *)
Fixpoint drop_underscores (prev : option ascii) (l : list ascii)
  : option (list ascii) :=
  match l with
  | [] => match prev with
          | Some "_"%char => None
          | _ => Some []
          end
  | c :: l' =>
      if Ascii.eqb c "_" then
        match prev with
        | Some p => if is_digit p then drop_underscores (Some c) l' else None
        | None => None
        end
      else
        match prev with
        | Some "_"%char =>
            if is_digit c
            then option_map (cons c) (drop_underscores (Some c) l')
            else None
        | _ => option_map (cons c) (drop_underscores (Some c) l')
        end
  end.

(** The longest prefix of digits: its value continuing [acc], how many
    digits it has, and what follows it. *)
Fixpoint digits (acc : Z) (n : Z) (l : list ascii) : Z * Z * list ascii :=
  match l with
  | c :: l' => if is_digit c then digits (10 * acc + digit c) (n + 1) l'
               else (acc, n, l)
  | [] => (acc, n, l)
  end.

(** An optional sign: whether it is a minus, and what follows. *)
Definition sign (l : list ascii) : bool * list ascii :=
  match l with
  | "-"%char :: l' => (true, l')
  | "+"%char :: l' => (false, l')
  | _ => (false, l)
  end.

End Str.

(** ** Numbers *)

Local Open Scope res_scope.

(** [int(s)] for a string, base 10: surrounding whitespace, an optional
    sign, digits.  The integers are unbounded; the interpreter's configurable
    limit on the number of digits is left out. *)
Definition py_int (s : string) : res Z :=
  match Str.drop_underscores None (Str.chars s) with
  | None => Raise ValueError
  | Some l =>
      let (neg, l1) := Str.sign (Str.chars (Str.strip_blank (Str.of_chars l))) in
      let '(v, n, rest) := Str.digits 0 0 l1 in
      match rest with
      | [] => if 0 <? n then Ok (if neg then - v else v)
              else Raise ValueError
      | _ :: _ => Raise ValueError
      end
  end.

(** The exponent part of a decimal numeral that has mantissa digits [m], [nf]
    of them after the point. *)
Definition py_float_exponent (neg : bool) (m nf : Z) (l : list ascii)
  : res F64.t :=
  match l with
  | [] => Ok (F64.of_decimal neg m (- nf))
  | c :: l' =>
      if Ascii.eqb (Str.lower c) "e" then
        let (eneg, l1) := Str.sign l' in
        let '(ev, ne, rest) := Str.digits 0 0 l1 in
        match rest with
        | [] => if 0 <? ne
                then Ok (F64.of_decimal neg m
                           ((if eneg then - ev else ev) - nf))
                else Raise ValueError
        | _ :: _ => Raise ValueError
        end
      else Raise ValueError
  end.

(** [float(s)] for a string: surrounding whitespace, an optional sign, then a
    decimal numeral with an optional exponent, or [inf], [infinity] or [nan]
    in any case.  The value is the float nearest to the numeral; a numeral
    out of range gives an infinity. *)
Definition py_float (s : string) : res F64.t :=
  match Str.drop_underscores None (Str.chars s) with
  | None => Raise ValueError
  | Some l =>
      let (neg, l1) := Str.sign (Str.chars (Str.strip_blank (Str.of_chars l))) in
      let '(ip, ni, l2) := Str.digits 0 0 l1 in
      let '(m, nf, l3) :=
        match l2 with
        | "."%char :: l2' => Str.digits ip 0 l2'
        | _ => (ip, 0, l2)
        end in
      if 0 <? ni + nf then py_float_exponent neg m nf l3
      else
        let w := Str.of_chars (map Str.lower l1) in
        if String.eqb w "inf" || String.eqb w "infinity" then Ok (F64.Inf neg)
        else if String.eqb w "nan" then Ok F64.NaN
        else Raise ValueError
  end.

(** A number as [min], [max] and [int] see it. *)
Inductive num : Type :=
| NInt (z : Z)
| NFloat (f : F64.t).

Definition pyval_of_num (x : num) : pyval :=
  match x with
  | NInt z => PInt z
  | NFloat f => PFloat f
  end.

(** [a < b]; an int and a float are compared exactly. *)
Definition num_lt (a b : num) : bool :=
  match a, b with
  | NInt x, NInt y => x <? y
  | NFloat x, NFloat y => F64.ltb x y
  | NFloat x, NInt z =>
      match F64.cmp_int x z with Some Lt => true | _ => false end
  | NInt z, NFloat x =>
      match F64.cmp_int x z with Some Gt => true | _ => false end
  end.

(** [min(a, b)] keeps [a] unless [b < a]; [max(a, b)] keeps [a] unless
    [b > a]. *)
Definition py_min (a b : num) : num := if num_lt b a then b else a.
Definition py_max (a b : num) : num := if num_lt a b then b else a.

(** [int(x)] for a number. *)
Definition int_of_num (x : num) : res Z :=
  match x with
  | NInt z => Ok z
  | NFloat F64.NaN => Raise ValueError
  | NFloat (F64.Inf _) => Raise OverflowError
  | NFloat f => match F64.trunc f with
                | Some z => Ok z
                | None => Raise ValueError
                end
  end.

(** Conversion of an int operand of a float operation. *)
Definition float_of_int (z : Z) : res F64.t :=
  match F64.of_Z z with
  | F64.Inf _ => Raise OverflowError
  | f => Ok f
  end.

(** [x / y] on floats. *)
Definition float_truediv (x y : F64.t) : res F64.t :=
  if F64.is_zero y then Raise ZeroDivisionError else Ok (F64.div x y).

(** * The reply parser *)

Definition BATTERY_HIGH : F64.t :=
  Eval vm_compute in F64.of_decimal false 20800 (-2).
Definition BATTERY_LOW : F64.t :=
  Eval vm_compute in F64.of_decimal false 16640 (-2).

(** The literal [96.90265487], by which the per-cell voltage is scaled. *)
Definition series_multiplier : F64.t :=
  Eval vm_compute in F64.of_decimal false 9690265487 (-8).

Definition STATUS_FLAGS : list (string * Z) :=
  [ ("utility_fail", 7); ("battery_low", 6); ("boost_buck_active", 5);
    ("ups_failed", 4); ("ups_type_standby", 3); ("test_in_progress", 2);
    ("shutdown_active", 1); ("beeper_on", 0) ].

(** The items of [{name: int(bits[7 - pos]) for name, pos in table}]. *)
Fixpoint status_items (bits : string) (table : list (string * Z))
  : res dict :=
  match table with
  | [] => Ok []
  | (name, pos) :: table' =>
      c <- Str.getitem bits (7 - pos) ;;
      v <- py_int (String c EmptyString) ;;
      rest <- status_items bits table' ;;
      Ok ((name, PInt v) :: rest)
  end.

Definition parse_status_bits (bits : string) : res dict :=
  if negb (Str.len bits =? 8)
     || negb (forallb (fun c => Str.mem c "01") (Str.chars bits))
  then Ok []
  else items <- status_items bits STATUS_FLAGS ;; Ok (dict_of items).

Definition list_get {A} (l : list A) (i : nat) : res A :=
  match nth_error l i with
  | Some a => Ok a
  | None => Raise IndexError
  end.

(** The characters [strip("()\r\n")] removes. *)
Definition reply_margin : string :=
  String "(" (String ")" (String "013" (String "010" EmptyString))).

(** The percentage [((total - LOW) / (HIGH - LOW)) * 100]. *)
Definition charge_ratio (battery_total_voltage : F64.t) : res F64.t :=
  q <- float_truediv (F64.sub battery_total_voltage BATTERY_LOW)
                     (F64.sub BATTERY_HIGH BATTERY_LOW) ;;
  h <- float_of_int 100 ;;
  Ok (F64.mul q h).

(** The statements of [parse_ups_response] under [try]. *)
Definition parse_reply (response : string) : res (option dict) :=
  let parts := Str.split (Str.strip_chars reply_margin response) in
  if negb (Z.of_nat (List.length parts) =? 8) then Ok None
  else
    p0 <- list_get parts 0 ;; input_voltage <- py_float p0 ;;
    p1 <- list_get parts 1 ;; input_fault <- py_float p1 ;;
    p2 <- list_get parts 2 ;; output_voltage <- py_float p2 ;;
    p3 <- list_get parts 3 ;; output_current <- py_int p3 ;;
    p4 <- list_get parts 4 ;; input_freq <- py_float p4 ;;
    p5 <- list_get parts 5 ;; battery_voltage <- py_float p5 ;;
    p6 <- list_get parts 6 ;; temperature <- py_float p6 ;;
    status_raw <- list_get parts 7 ;;
    status_flags <- parse_status_bits status_raw ;;
    let battery_total_voltage := F64.mul battery_voltage series_multiplier in
    ratio <- charge_ratio battery_total_voltage ;;
    battery_percent <-
      int_of_num (py_max (NInt 0) (py_min (NInt 100) (NFloat ratio))) ;;
    Ok (Some (dict_of
      ([ ("input_voltage", PFloat input_voltage);
         ("input_fault_voltage", PFloat input_fault);
         ("output_voltage", PFloat output_voltage);
         ("output_current_percent", PInt output_current);
         ("input_frequency", PFloat input_freq);
         ("battery_voltage", PFloat battery_voltage);
         ("battery_voltage_all",
           PFloat (F64.round2 (F64.mul battery_voltage series_multiplier)));
         ("temperature", PFloat temperature);
         ("battery_charge", PInt battery_percent) ]
       ++ status_flags)%list)).

(** [try: ... except Exception: return None]. *)
Definition parse_ups_response (response : string) : res (option dict) :=
  if negb (Str.startswith response "(") then Ok None
  else match parse_reply response with
       | Ok r => Ok r
       | Raise e => if is_Exception e then Ok None else Raise e
       end.

(** * The environment

    What the program reads and changes outside itself: the clock, the cache
    file, the serial line, standard output, the temporary directory and the
    sender executable. *)

(** The cache file: missing, present but not openable, present with text
    that [json.load] rejects, or present with a JSON document.  A document is
    kept as the object [json.load] makes of it; [json.dump] of a [pyval]
    followed by [json.load] gives the same [pyval] back. *)
Inductive file_state : Type :=
| Absent
| Unreadable
| Corrupt
| Json (doc : pyval).

(** The serial line: opening or using the port raises, or one line is read
    (given decoded; empty after a timeout). *)
Inductive serial_behaviour : Type :=
| PortFails
| Replies (line : string).

(** The sender executable: it runs and exits with a code and two outputs
    ([None] for bytes that do not decode), it is not installed, or starting
    it raises something else. *)
Inductive sender_behaviour : Type :=
| SenderExits (code : Z) (out err : option string)
| SenderMissing
| SenderRaises (e : exn).

(** A line of standard output: a text, the printed form of a value, or the
    forwarder's message about an exception. *)
Inductive line : Type :=
| Text (s : string)
| Value (v : pyval)
| SendError (e : exn).

(** A line [hostname key value] of the sender's input file. *)
Definition item_line : Type := (string * string * pyval)%type.

Record world : Type := mkWorld {
  clock : nat -> F64.t;          (* successive readings of [time.time()] *)
  ticks : nat;                   (* readings taken so far *)
  cache_file : file_state;
  cache_writable : bool;         (* whether writing the cache file works *)
  serial_port : serial_behaviour;
  serial_queries : nat;          (* exchanges attempted on the port *)
  stdout : list line;
  tmp_creatable : bool;          (* whether a temporary file can be made *)
  tmp_writable : bool;           (* whether the disk takes what is written
                                    to it *)
  tmp_next : nat;                (* name of the next temporary file *)
  tmp_files : list (nat * list item_line);
  sender : sender_behaviour;
  sender_runs : list (string * list item_line);
  local_hostname : string;
  cache_openable : bool;         (* when writing the cache file fails:
                                    whether [open(CACHE_FILE, "w")] worked,
                                    and so emptied the file, before *)
  tmp_spills : bool              (* when the text for the temporary file may
                                    outgrow the writer's buffer: whether it
                                    reaches the disk before the file is
                                    closed *)
}.

Definition set_ticks (n : nat) (w : world) : world :=
  mkWorld (clock w) n (cache_file w) (cache_writable w) (serial_port w)
    (serial_queries w) (stdout w) (tmp_creatable w) (tmp_writable w)
    (tmp_next w) (tmp_files w) (sender w) (sender_runs w) (local_hostname w)
    (cache_openable w) (tmp_spills w).

Definition set_cache_file (f : file_state) (w : world) : world :=
  mkWorld (clock w) (ticks w) f (cache_writable w) (serial_port w)
    (serial_queries w) (stdout w) (tmp_creatable w) (tmp_writable w)
    (tmp_next w) (tmp_files w) (sender w) (sender_runs w) (local_hostname w)
    (cache_openable w) (tmp_spills w).

Definition set_serial_queries (n : nat) (w : world) : world :=
  mkWorld (clock w) (ticks w) (cache_file w) (cache_writable w)
    (serial_port w) n (stdout w) (tmp_creatable w) (tmp_writable w)
    (tmp_next w) (tmp_files w) (sender w) (sender_runs w) (local_hostname w)
    (cache_openable w) (tmp_spills w).

Definition set_stdout (o : list line) (w : world) : world :=
  mkWorld (clock w) (ticks w) (cache_file w) (cache_writable w)
    (serial_port w) (serial_queries w) o (tmp_creatable w) (tmp_writable w)
    (tmp_next w) (tmp_files w) (sender w) (sender_runs w) (local_hostname w)
    (cache_openable w) (tmp_spills w).

Definition set_tmp (next : nat) (files : list (nat * list item_line))
  (w : world) : world :=
  mkWorld (clock w) (ticks w) (cache_file w) (cache_writable w)
    (serial_port w) (serial_queries w) (stdout w) (tmp_creatable w)
    (tmp_writable w) next files (sender w) (sender_runs w) (local_hostname w)
    (cache_openable w) (tmp_spills w).

Definition set_sender_runs (r : list (string * list item_line)) (w : world)
  : world :=
  mkWorld (clock w) (ticks w) (cache_file w) (cache_writable w)
    (serial_port w) (serial_queries w) (stdout w) (tmp_creatable w)
    (tmp_writable w) (tmp_next w) (tmp_files w) (sender w) r
    (local_hostname w)
    (cache_openable w) (tmp_spills w).

(** A command: it runs in a world and leaves a value or a raised exception,
    and the world as changed up to that point. *)
Definition M (A : Type) : Type := world -> res A * world.

Definition ret {A} (a : A) : M A := fun w => (Ok a, w).
Definition raise {A} (e : exn) : M A := fun w => (Raise e, w).
Definition lift {A} (r : res A) : M A := fun w => (r, w).

Definition bind {A B} (m : M A) (k : A -> M B) : M B :=
  fun w => match m w with
           | (Ok a, w') => k a w'
           | (Raise e, w') => (Raise e, w')
           end.

Declare Scope io_scope.
Delimit Scope io_scope with io.
Notation "x <- m ;; k" := (bind m (fun x => k))
  (at level 61, m at next level, right associativity) : io_scope.
Notation "m ;; k" := (bind m (fun _ => k))
  (at level 61, right associativity) : io_scope.

(** [try: body except: handler] with a bare [except], which catches
    everything. *)
Definition try_except {A} (body : M A) (handler : M A) : M A :=
  fun w => match body w with
           | (Ok a, w') => (Ok a, w')
           | (Raise _, w') => handler w'
           end.

Local Open Scope io_scope.

Definition time_time : M F64.t :=
  fun w => (Ok (clock w (ticks w)), set_ticks (S (ticks w)) w).

Definition print (l : line) : M unit :=
  fun w => (Ok tt, set_stdout (stdout w ++ [l])%list w).

(** ** Dynamic operations on objects *)

(** [obj[k]] for a string [k]: only a dict can be asked. *)
Definition py_getitem (obj : pyval) (k : string) : res pyval :=
  match obj with
  | PDict d => match dict_get k d with
               | Some v => Ok v
               | None => Raise KeyError
               end
  | _ => Raise TypeError
  end.

(** [k in obj] for a string [k]. *)
Definition py_contains (k : string) (obj : pyval) : res bool :=
  match obj with
  | PDict d => Ok (match dict_get k d with Some _ => true | None => false end)
  | PStr s => Ok (Str.contains s k)
  | PList l =>
      Ok (existsb (fun v => match v with
                            | PStr s => String.eqb s k
                            | _ => false
                            end) l)
  | _ => Raise TypeError
  end.

(** [t - x] for a float [t] and any object [x]. *)
Definition float_sub_obj (t : F64.t) (x : pyval) : res F64.t :=
  match x with
  | PFloat f => Ok (F64.sub t f)
  | PInt z => (f <- float_of_int z ;; Ok (F64.sub t f))%res
  | PBool b => (f <- float_of_int (if b then 1 else 0) ;; Ok (F64.sub t f))%res
  | _ => Raise TypeError
  end.

(** [isinstance(value, (int, float, str))]; [bool] is a subclass of [int]. *)
Definition is_scalar (v : pyval) : bool :=
  match v with
  | PBool _ | PInt _ | PFloat _ | PStr _ => true
  | _ => false
  end.

Definition optional_dict (o : option dict) : pyval :=
  match o with
  | Some d => PDict d
  | None => PNone
  end.

(** * The cache store *)

Definition CACHE_TTL : Z := 120.

(** The statements of [read_from_cache] under [try]: they fall through
    ([None]) when the entry is not fresh. *)
Definition read_entry : M (option pyval) :=
  fun w =>
    match cache_file w with
    | Absent | Unreadable => (Raise OSError, w)
    | Corrupt => (Raise ValueError, w)
    | Json data =>
        (now <- time_time ;;
         ts <- lift (py_getitem data "timestamp") ;;
         age <- lift (float_sub_obj now ts) ;;
         if num_lt (NFloat age) (NInt CACHE_TTL)
         then v <- lift (py_getitem data "values") ;; ret (Some v)
         else ret None) w
    end.

Definition read_from_cache : M pyval :=
  fun w =>
    match cache_file w with
    | Absent => (Ok PNone, w)
    | _ =>
        (r <- try_except read_entry (ret None) ;;
         match r with
         | Some v => ret v
         | None => ret PNone
         end) w
    end.

(** The statements of [write_to_cache] under [try]:
    [json.dump({"timestamp": time.time(), "values": values}, f)] on the
    freshly opened file.  Opening the file for writing empties it; when the
    write fails after that (the disk is full, say), what is left is empty
    or cut short, and no longer JSON. *)
Definition write_entry (values : pyval) : M unit :=
  fun w =>
    if cache_writable w then
      (now <- time_time ;;
       fun w' =>
         (Ok tt,
          set_cache_file
            (Json (PDict [("timestamp", PFloat now); ("values", values)])) w'))
        w
    else if cache_openable w then
      (now <- time_time ;;
       fun w' => (Raise OSError, set_cache_file Corrupt w')) w
    else (Raise OSError, w).

Definition write_to_cache (values : pyval) : M unit :=
  try_except (write_entry values) (ret tt).

(** * The device query *)

Definition query_ups : M pyval :=
  fun w =>
    let w' := set_serial_queries (S (serial_queries w)) w in
    match serial_port w with
    | PortFails => (Ok PNone, w')
    | Replies reply =>
        match parse_ups_response (Str.strip reply) with
        | Ok r => (Ok (optional_dict r), w')
        | Raise _ => (Ok PNone, w')
        end
    end.

Definition get_ups_data : M pyval :=
  cached <- read_from_cache ;;
  if truthy cached then ret cached
  else
    fresh <- query_ups ;;
    if truthy fresh then write_to_cache fresh ;; ret fresh
    else ret PNone.

(** * The forwarder *)

Definition ZABBIX_SERVER : string := "192.168.1.200".
Definition ZABBIX_HOSTNAME : string := "UPSMonitor".

(** The lines written for the items of [data]. *)
Definition item_lines (hostname : string) (d : dict) : list item_line :=
  map (fun kv => (hostname, fst kv, snd kv))
      (filter (fun kv => is_scalar (snd kv)) d).

Definition remove_file (path : nat) (files : list (nat * list item_line))
  : list (nat * list item_line) :=
  filter (fun f => negb (Nat.eqb (fst f) path)) files.

Definition file_exists (path : nat) (files : list (nat * list item_line))
  : bool :=
  existsb (fun f => Nat.eqb (fst f) path) files.

Definition file_content (path : nat) (files : list (nat * list item_line))
  : list item_line :=
  match find (fun f => Nat.eqb (fst f) path) files with
  | Some f => snd f
  | None => []
  end.

(** The text for the temporary file goes through the writer's buffer of
    8192 bytes: nothing reaches the disk before the file is closed unless
    the text outgrows the buffer.  The printed form of a float is not
    modelled; it has at most 24 characters, and a character of a string at
    most two bytes, which bounds the size of a line from above. *)
Definition WRITE_BUFFER : Z := 8192.

Definition value_bytes (v : pyval) : Z :=
  match v with
  | PBool _ => 5
  | PInt z => Z.log2 (Z.abs z) / 3 + 2
  | PFloat _ => 24
  | PStr s => 2 * Str.len s
  | _ => 0
  end.

Definition line_bytes (l : item_line) : Z :=
  let '(hostname, key, value) := l in
  2 * Str.len hostname + 2 * Str.len key + value_bytes value + 3.

Definition text_bytes (lines : list item_line) : Z :=
  fold_right (fun l acc => line_bytes l + acc) 0 lines.

(** The body of the [with] block: a temporary file is created, the scalar
    items of [data] are written to it, and its name is the result, which
    the block's last statement binds to [temp_file_path].  On a disk that
    takes no data, a text that stays in the buffer is written without an
    error here; one that outgrows it raises. *)
Definition write_temp (data : pyval) (hostname : string) : M nat :=
  fun w =>
    if negb (tmp_creatable w) then (Raise OSError, w)
    else
      let path := tmp_next w in
      let w1 := set_tmp (S path) ((path, []) :: tmp_files w) w in
      match data with
      | PDict d =>
          match item_lines hostname d with
          | [] => (Ok path, w1)
          | lines =>
              if tmp_writable w
              then (Ok path, set_tmp (S path) ((path, lines) :: tmp_files w) w)
              else if (WRITE_BUFFER <=? text_bytes lines) && tmp_spills w
              then (Raise OSError, w1)
              else (Ok path, w1)
          end
      | _ => (Raise AttributeError, w1)
      end.

(** Leaving the [with] block closes the file, which writes out what the
    buffer still holds: on a disk that takes no data this raises, after
    [temp_file_path] was bound. *)
Definition close_temp (data : pyval) (hostname : string) : M unit :=
  fun w =>
    if tmp_writable w then (Ok tt, w)
    else
      match data with
      | PDict d =>
          match item_lines hostname d with
          | [] => (Ok tt, w)
          | _ => (Raise OSError, w)
          end
      | _ => (Ok tt, w)
      end.

(** [subprocess.run(["zabbix_sender", "-z", zabbix_server, "-i", path], ...)]:
    what the sender leaves in [proc], or the exception raised. *)
Definition run_sender (zabbix_server : string) (path : nat)
  : M (Z * option string * option string) :=
  fun w =>
    match sender w with
    | SenderMissing => (Raise FileNotFoundError, w)
    | SenderRaises e => (Raise e, w)
    | SenderExits code out err =>
        (Ok (code, out, err),
         set_sender_runs
           (sender_runs w
            ++ [(zabbix_server, file_content path (tmp_files w))])%list w)
    end.

Definition decode (bytes : option string) : res string :=
  match bytes with
  | Some s => Ok s
  | None => Raise UnicodeError
  end.

(** The statements after the [with] block, still under [try]. *)
Definition report_sender (zabbix_server : string) (path : nat) : M unit :=
  proc <- run_sender zabbix_server path ;;
  let '(code, out, err) := proc in
  o <- lift (decode out) ;;
  print (Text o) ;;
  if negb (code =? 0)
  then e <- lift (decode err) ;; print (Text e)
  else ret tt.

(** The statements of [send_all_to_zabbix] under [try].  Beside the outcome
    they give the binding of the local [temp_file_path] at the point where
    they stop. *)
Definition send_attempt (data : pyval) (hostname zabbix_server : string)
  (w : world) : res unit * option nat * world :=
  match write_temp data hostname w with
  | (Raise e, w1) => (Raise e, None, w1)
  | (Ok path, w1) =>
      match close_temp data hostname w1 with
      | (Raise e, w2) => (Raise e, Some path, w2)
      | (Ok _, w2) =>
          let (r, w3) := report_sender zabbix_server path w2 in
          (r, Some path, w3)
      end
  end.

(** The [finally] block: it reads [temp_file_path]. *)
Definition send_cleanup (temp_file_path : option nat) : M unit :=
  fun w =>
    match temp_file_path with
    | None => (Raise UnboundLocalError, w)
    | Some path =>
        if file_exists path (tmp_files w)
        then (Ok tt, set_tmp (tmp_next w) (remove_file path (tmp_files w)) w)
        else (Ok tt, w)
    end.

Definition send_all_to_zabbix (data : pyval) (hostname : option string)
  (zabbix_server : string) : M unit :=
  fun w =>
    let (hostname', w0) :=
      match hostname with
      | Some h =>
          if String.eqb h "" then
            (local_hostname w, snd (print (Text "Hostname Incorrect") w))
          else (h, w)
      | None => (local_hostname w, snd (print (Text "Hostname Incorrect") w))
      end in
    let '(r, temp_file_path, w1) :=
      send_attempt data hostname' zabbix_server w0 in
    (* except Exception as e *)
    let (r', w2) :=
      match r with
      | Raise e => if is_Exception e then print (SendError e) w1
                   else (Raise e, w1)
      | Ok tt => (Ok tt, w1)
      end in
    (* finally *)
    match send_cleanup temp_file_path w2 with
    | (Raise e, w3) => (Raise e, w3)
    | (Ok _, w3) => (r', w3)
    end.

(** * The command dispatcher *)

Definition main (argv : list string) : M unit :=
  if negb (Z.of_nat (List.length argv) =? 2) then
    print (Text "Usage: ups_cache.py <key>") ;; raise (SystemExit 1)
  else
    key <- lift (list_get argv 1) ;;
    print (Text key) ;;
    if String.eqb key "update_cache" then
      fresh <- query_ups ;;
      (if truthy fresh
       then write_to_cache fresh ;; print (Text "OK")
       else print (Text "FAILED")) ;;
      raise (SystemExit 0)
    else if String.eqb key "send_to_zabbix" then
      data <- get_ups_data ;;
      (if truthy data
       then send_all_to_zabbix data (Some ZABBIX_HOSTNAME) ZABBIX_SERVER
       else print (Text "No UPS data to send.")) ;;
      raise (SystemExit 0)
    else
      data <- get_ups_data ;;
      found <- (if truthy data then lift (py_contains key data)
                else ret false) ;;
      if found
      then v <- lift (py_getitem data key) ;; print (Value v)
      else print (Text "Error getting Data").

(** * Notions the specification uses *)

Definition is_ok {A} (r : res A) : bool :=
  match r with
  | Ok _ => true
  | Raise _ => false
  end.

(** The tokens of a reply line, as the parser cuts them. *)
Definition tokens (response : string) : list string :=
  Str.split (Str.strip_chars reply_margin response).

(** The first seven tokens parse as their expected types: the fourth (load
    percent) as an integer, the others as floats. *)
Definition numeric_tokens_ok (parts : list string) : bool :=
  forallb (fun i => is_ok (py_float (nth i parts ""))) [0; 1; 2; 4; 5; 6]%nat
  && is_ok (py_int (nth 3 parts "")).

(** A status string of exactly eight characters, each [0] or [1]. *)
Definition binary8 (bits : string) : Prop :=
  String.length bits = 8%nat
  /\ forall c, In c (Str.chars bits) -> c = "0"%char \/ c = "1"%char.

(** The flag value a status character stands for. *)
Definition flag_bit (c : ascii) : Z := if Ascii.eqb c "1" then 1 else 0.

(** [clamp(x, lo, hi)], that is [max(lo, min(hi, x))]. *)
Definition clamp (x : num) (lo hi : Z) : num :=
  py_max (NInt lo) (py_min (NInt hi) x).

Definition floor_num (x : num) : option Z :=
  match x with
  | NInt z => Some z
  | NFloat f => F64.floor f
  end.

(** The same on a float that is a number, by cases: [lo] below [lo], [hi]
    above [hi], and the floor of [x] between them. *)
Definition clamp_floor (x : F64.t) (lo hi : Z) : option Z :=
  match F64.cmp_int x lo, F64.cmp_int x hi with
  | Some Lt, _ => Some lo
  | Some _, Some Gt => Some hi
  | Some _, Some _ => F64.floor x
  | _, _ => None
  end.

(** [c] hundredths is the decimal with two places nearest to the magnitude
    [n] (in units of [2^-1074]), the one with the even last digit when two
    are as near: with [d = 100 n - c 2^1074], the distance from [n] to
    [c / 100] is [|d| / 100] units and at most half a hundredth. *)
Definition nearest_hundredths (n : N) (c : Z) : Prop :=
  let d := 100 * Z.of_N n - c * F64.one in
  0 <= c
  /\ 2 * Z.abs d <= F64.one
  /\ (2 * Z.abs d = F64.one -> Z.even c = true).

(** [shown] is [x] rounded to two decimal places: the float that the
    nearest decimal with two places denotes, with the sign of [x]; an
    infinity or a NaN is shown as it is. *)
Definition rounded_to_cents (x shown : F64.t) : Prop :=
  match x with
  | F64.Finite s n =>
      exists c, nearest_hundredths n c /\ shown = F64.of_decimal s c (-2)
  | _ => shown = x
  end.

(** Two replies in the device's format, the second with a status of three
    characters. *)
Definition sample_reply : string :=
  "(220.5 140.0 221.0 034 50.1 2.05 25.0 10000001".
Definition short_status_reply : string :=
  "(220.5 140.0 221.0 034 50.1 1.70 25.0 101".

(** The snapshots the parser gives for the two replies. *)
Definition sample_snapshot :=
  Eval vm_compute in
    match parse_ups_response sample_reply with
    | Ok (Some d) => d
    | _ => []
    end.
Definition short_status_snapshot :=
  Eval vm_compute in
    match parse_ups_response short_status_reply with
    | Ok (Some d) => d
    | _ => []
    end.

(** The battery voltages [2.05] and [1.70] of the two replies. *)
Definition sample_voltage : F64.t :=
  Eval vm_compute in F64.of_decimal false 205 (-2).
Definition short_status_voltage : F64.t :=
  Eval vm_compute in F64.of_decimal false 170 (-2).

(** What one device query answers in a world: the parsed reply, or [None]
    when the port fails or the reply does not parse. *)
Definition device_answer (w : world) : pyval :=
  match serial_port w with
  | PortFails => PNone
  | Replies reply =>
      match parse_ups_response (Str.strip reply) with
      | Ok r => optional_dict r
      | Raise _ => PNone
      end
  end.

(** The timestamp a cache document stores, as the float it is compared
    with: the document has to be an object whose [timestamp] is a number. *)
Definition stored_timestamp (doc : pyval) : option F64.t :=
  match doc with
  | PDict d =>
      match dict_get "timestamp" d with
      | Some (PFloat f) => Some f
      | Some (PInt z) =>
          match float_of_int z with Ok f => Some f | Raise _ => None end
      | Some (PBool b) =>
          match float_of_int (if b then 1 else 0) with
          | Ok f => Some f
          | Raise _ => None
          end
      | _ => None
      end
  | _ => None
  end.

Definition stored_values (doc : pyval) : option pyval :=
  match doc with
  | PDict d => dict_get "values" d
  | _ => None
  end.

(** The shape the specification gives the cache file,
    [{timestamp: number, values: object}]. *)
Definition entry_shape (doc : pyval) : bool :=
  match doc with
  | PDict d =>
      match dict_get "timestamp" d, dict_get "values" d with
      | Some (PInt _ | PFloat _), Some (PDict _) => true
      | _, _ => false
      end
  | _ => false
  end.

(** A cache file is malformed when its text is not JSON or the document
    does not have that shape. *)
Definition malformed (f : file_state) : Prop :=
  f = Corrupt \/ exists doc, f = Json doc /\ entry_shape doc = false.

(** What the reader cannot use: text that is not JSON, or a document that
    is not an object with a [timestamp] that converts to a float and a
    [values] member that is not null.  The [values] member need not be an
    object. *)
Definition unusable (f : file_state) : Prop :=
  f = Corrupt
  \/ exists doc, f = Json doc
       /\ (stored_timestamp doc = None
           \/ stored_values doc = None
           \/ stored_values doc = Some PNone).

(** The age the reader measures, [now - timestamp], is below the TTL. *)
Definition fresh_at (now ts : F64.t) : bool :=
  num_lt (NFloat (F64.sub now ts)) (NInt CACHE_TTL).

(** The stored timestamp has reached the TTL: the age is not below it. *)
Definition expired (now : F64.t) (f : file_state) : Prop :=
  exists doc ts, f = Json doc /\ stored_timestamp doc = Some ts
                 /\ fresh_at now ts = false.

(** A world for examples: the clock reads 1700000000, then 1700000060, ...;
    no cache file yet; the device answers the sample reply; the sender
    exits with code 1. *)
Definition sample_clock (n : nat) : F64.t :=
  F64.of_Z (1700000000 + 60 * Z.of_nat n).

Definition sample_world : world :=
  {| clock := sample_clock; ticks := 0;
     cache_file := Absent; cache_writable := true;
     serial_port := Replies sample_reply; serial_queries := 0;
     stdout := [];
     tmp_creatable := true; tmp_writable := true;
     tmp_next := 0; tmp_files := [];
     sender := SenderExits 1 (Some "") (Some "failed");
     sender_runs := [];
     local_hostname := "localhost";
     cache_openable := true; tmp_spills := false |}.

(** The sample world with a temporary directory in which no file can be
    made, and with one in which a file can be made but the disk takes no
    data. *)
Definition no_tmp_world : world :=
  {| clock := sample_clock; ticks := 0;
     cache_file := Absent; cache_writable := true;
     serial_port := Replies sample_reply; serial_queries := 0;
     stdout := [];
     tmp_creatable := false; tmp_writable := false;
     tmp_next := 0; tmp_files := [];
     sender := SenderExits 0 (Some "") (Some "");
     sender_runs := [];
     local_hostname := "localhost";
     cache_openable := true; tmp_spills := false |}.

Definition full_disk_world : world :=
  {| clock := sample_clock; ticks := 0;
     cache_file := Absent; cache_writable := true;
     serial_port := Replies sample_reply; serial_queries := 0;
     stdout := [];
     tmp_creatable := true; tmp_writable := false;
     tmp_next := 0; tmp_files := [];
     sender := SenderExits 0 (Some "") (Some "");
     sender_runs := [];
     local_hostname := "localhost";
     cache_openable := true; tmp_spills := true |}.

(** * Notions used in the proofs *)

(** A magnitude with its sign. *)
Definition skey (s : bool) (v : Z) : Z := if s then - v else v.

(** Rounded magnitude, the overflow threshold standing for infinity. *)
Definition clip (p q : Z) : Z := Z.min (F64.round_mag p q) F64.top.

(** A float that is a number and in range. *)
Definition regular (x : F64.t) : Prop :=
  F64.wf x /\ F64.is_nan x = false.

(** Multiplication and division by a positive constant both take a finite
    float of magnitude [n] to the float nearest to [n * a / b]. *)
Definition scale (a b : Z) (x : F64.t) : F64.t :=
  match x with
  | F64.Finite s n => F64.mk s (Z.of_N n * a) b
  | _ => x
  end.

(** A finite float above zero. *)
Definition pos_finite (x : F64.t) : bool :=
  match x with
  | F64.Finite false n => negb (n =? 0)%N
  | _ => false
  end.

(** The float [100.0] and the span [HIGH - LOW] as the program computes
    them. *)
Definition hundred : F64.t := Eval vm_compute in F64.of_Z 100.

Definition battery_span : F64.t :=
  Eval vm_compute in F64.sub BATTERY_HIGH BATTERY_LOW.

(** The percentage as a function of the parsed battery voltage. *)
Definition ratio_of (v : F64.t) : F64.t :=
  F64.mul
    (F64.div (F64.sub (F64.mul v series_multiplier) BATTERY_LOW) battery_span)
    hundred.

(** What [int(max(0, min(100, r)))] comes to. *)
Definition clamped (r : F64.t) : Z :=
  match F64.cmp_int r 100 with
  | Some Lt =>
      match F64.cmp_int r 0 with
      | Some Gt => match F64.trunc r with Some z => z | None => 0 end
      | _ => 0
      end
  | _ => 100
  end.

(** The stored charge as a function of the parsed battery voltage. *)
Definition charge_of (v : F64.t) : Z := clamped (ratio_of v).

(** The flags are either absent or the eight of [STATUS_FLAGS], in its
    order. *)
Definition flags_of (c0 c1 c2 c3 c4 c5 c6 c7 : ascii) : dict :=
  [ ("utility_fail", PInt (flag_bit c0));
    ("battery_low", PInt (flag_bit c1));
    ("boost_buck_active", PInt (flag_bit c2));
    ("ups_failed", PInt (flag_bit c3));
    ("ups_type_standby", PInt (flag_bit c4));
    ("test_in_progress", PInt (flag_bit c5));
    ("shutdown_active", PInt (flag_bit c6));
    ("beeper_on", PInt (flag_bit c7)) ].

(** The snapshot built from the parsed fields. *)
Definition snapshot_of (input_voltage input_fault output_voltage : F64.t)
  (output_current : Z) (input_freq battery_voltage temperature : F64.t)
  (status_flags : dict) : dict :=
  dict_of
    ([ ("input_voltage", PFloat input_voltage);
       ("input_fault_voltage", PFloat input_fault);
       ("output_voltage", PFloat output_voltage);
       ("output_current_percent", PInt output_current);
       ("input_frequency", PFloat input_freq);
       ("battery_voltage", PFloat battery_voltage);
       ("battery_voltage_all",
         PFloat (F64.round2 (F64.mul battery_voltage series_multiplier)));
       ("temperature", PFloat temperature);
       ("battery_charge", PInt (charge_of battery_voltage)) ]
     ++ status_flags)%list.

(** The largest magnitude not above [166.40 / 96.90265487] and the
    smallest not below [208.00 / 96.90265487], in units. *)
Definition low_cut : F64.t :=
  Eval vm_compute in
    F64.Finite false (Z.to_N (16640000000 * F64.one / 9690265487)).

Definition high_cut : F64.t :=
  Eval vm_compute in
    F64.Finite false (Z.to_N (- (- (20800000000 * F64.one) / 9690265487))).

(** [regular], as a test that computes. *)
Definition regularb (x : F64.t) : bool :=
  match x with
  | F64.Finite _ n => Z.of_N n <? F64.top
  | F64.Inf _ => true
  | F64.NaN => false
  end.

(** A command that leaves what was printed before it in place. *)
Definition extends {A} (m : M A) : Prop :=
  forall w, exists rest, stdout (snd (m w)) = (stdout w ++ rest)%list.

(** What a read returns from a JSON document at clock reading [now]. *)
Definition cached_value (now : F64.t) (doc : pyval) : pyval :=
  match stored_timestamp doc with
  | Some ts =>
      if fresh_at now ts
      then match stored_values doc with Some v => v | None => PNone end
      else PNone
  | None => PNone
  end.

(** The names of the temporary files in use are below the next one. *)
Definition names_fresh (w : world) : Prop :=
  forall f, In f (tmp_files w) -> (fst f < tmp_next w)%nat.

(** * Notions for the properties of the whole program *)

(** The keys of the nine measurements, in the order of the snapshot. *)
Definition measurement_keys : list string :=
  [ "input_voltage"; "input_fault_voltage"; "output_voltage";
    "output_current_percent"; "input_frequency"; "battery_voltage";
    "battery_voltage_all"; "temperature"; "battery_charge" ].

Definition is_int (v : pyval) : bool :=
  match v with PInt _ => true | _ => false end.
Definition is_float (v : pyval) : bool :=
  match v with PFloat _ => true | _ => false end.

(** A reply whose battery voltage is not a number, and its snapshot. *)
Definition nan_reply : string :=
  "(220.5 140.0 221.0 034 50.1 nan 25.0 10000001".
Definition nan_snapshot :=
  Eval vm_compute in
    match parse_ups_response nan_reply with
    | Ok (Some d) => d
    | _ => []
    end.

(** A float that is neither an infinity nor NaN. *)
Definition finite (x : F64.t) : bool :=
  match x with F64.Finite _ _ => true | _ => false end.

(** The TTL, and the largest float below it, [120 - 2^-46], both in
    units of [2^-1074]. *)
Definition ttl_units : Z := CACHE_TTL * F64.one.
Definition below_ttl_units : Z := CACHE_TTL * F64.one - 2 ^ 1028.

(** The cache entry written at clock reading [now]. *)
Definition cache_entry (now : F64.t) (values : pyval) : file_state :=
  Json (PDict [("timestamp", PFloat now); ("values", values)]).

(** What the data acquisition reads and changes: the clock, the cache file
    and the serial line. *)
Definition acquisition_side (w : world) :=
  (clock w, ticks w, cache_file w, cache_writable w, serial_port w,
   serial_queries w).

(** What the forwarder reads and changes: the temporary directory, the
    sender and the host name. *)
Definition forwarding_side (w : world) :=
  (tmp_creatable w, tmp_writable w, tmp_next w, tmp_files w, sender w,
   sender_runs w, local_hostname w).

(** Whether a command line makes the program query the device in a world:
    [update_cache] always does, the other commands do when a read of the
    cache gives nothing that counts as true. *)
Definition polls (argv : list string) (w : world) : bool :=
  match argv with
  | [_; key] =>
      String.eqb key "update_cache"
      || negb match fst (read_from_cache w) with
              | Ok cached => truthy cached
              | Raise _ => false
              end
  | _ => false
  end.

(** Whether a command line asks for the forwarder. *)
Definition forwards (argv : list string) : bool :=
  match argv with
  | [_; key] => String.eqb key "send_to_zabbix"
  | _ => false
  end.

(** The line a metric command prints after the key. *)
Definition metric_line (key : string) (data : pyval) : line :=
  match data with
  | PDict d => match dict_get key d with
               | Some v => Value v
               | None => Text "Error getting Data"
               end
  | _ => Text "Error getting Data"
  end.

(** Worlds that differ from a given one in the sender, in the serial
    line, or in whether the cache file can be written. *)
Definition set_sender (s : sender_behaviour) (w : world) : world :=
  mkWorld (clock w) (ticks w) (cache_file w) (cache_writable w)
    (serial_port w) (serial_queries w) (stdout w) (tmp_creatable w)
    (tmp_writable w) (tmp_next w) (tmp_files w) s (sender_runs w)
    (local_hostname w)
    (cache_openable w) (tmp_spills w).

Definition set_serial_port (p : serial_behaviour) (w : world) : world :=
  mkWorld (clock w) (ticks w) (cache_file w) (cache_writable w) p
    (serial_queries w) (stdout w) (tmp_creatable w) (tmp_writable w)
    (tmp_next w) (tmp_files w) (sender w) (sender_runs w) (local_hostname w)
    (cache_openable w) (tmp_spills w).

Definition set_cache_writable (b : bool) (w : world) : world :=
  mkWorld (clock w) (ticks w) (cache_file w) b (serial_port w)
    (serial_queries w) (stdout w) (tmp_creatable w) (tmp_writable w)
    (tmp_next w) (tmp_files w) (sender w) (sender_runs w) (local_hostname w)
    (cache_openable w) (tmp_spills w).

(** * More notions used in the proofs *)

(** A command that leaves a part of the world as it found it. *)
Definition keeps {A B} (part : world -> B) (m : M A) : Prop :=
  forall w, part (snd (m w)) = part w.

(** What a read of the cache answers in a world, and the world it leaves:
    the clock is read only when the file holds a JSON document. *)
Definition cached_answer (w : world) : pyval :=
  match cache_file w with
  | Json doc => cached_value (clock w (ticks w)) doc
  | _ => PNone
  end.

Definition after_read (w : world) : world :=
  match cache_file w with
  | Json _ => set_ticks (S (ticks w)) w
  | _ => w
  end.

(** The data a run obtains: the cached value when it counts as true, the
    device's answer otherwise. *)
Definition obtained (w : world) : pyval :=
  if truthy (cached_answer w) then cached_answer w else device_answer w.

(** What [write_to_cache] leaves in the cache file when it stamps the
    entry with [now]: the entry, or what is left of the file when the write
    fails, emptied if it was opened and as it was if not. *)
Definition written (now : F64.t) (values : pyval) (w : world)
  : file_state :=
  if cache_writable w then cache_entry now values
  else if cache_openable w then Corrupt
  else cache_file w.

(** The forwarder once the host name is settled: the [try] statement with
    its handler and its [finally] block. *)
Definition send_as (data : pyval) (hostname zabbix_server : string)
  : M unit :=
  fun w0 =>
    let '(r, temp_file_path, w1) :=
      send_attempt data hostname zabbix_server w0 in
    let (r', w2) :=
      match r with
      | Raise e => if is_Exception e then print (SendError e) w1
                   else (Raise e, w1)
      | Ok tt => (Ok tt, w1)
      end in
    match send_cleanup temp_file_path w2 with
    | (Raise e, w3) => (Raise e, w3)
    | (Ok _, w3) => (r', w3)
    end.

(* ================================================================== *)
(** * Proofs *)

Lemma top_pos : 0 < F64.top.
Proof. unfold F64.top. apply Z.pow_pos_nonneg; lia. Qed.

Lemma one_pos : 0 < F64.one.
Proof. unfold F64.one. apply Z.pow_pos_nonneg; lia. Qed.

(** The two large constants stay folded in the proofs below. *)
#[global] Opaque F64.top F64.one.

(** ** Agreement with the machine's binary64

    The kernel's floats are the processor's binary64 numbers.  On the
    constants and on the computation of the sample reply, the arithmetic
    above gives what the processor gives. *)
Section Binary64.

(** [0x1.839c518ee8e69p+6] is the float written [96.90265487]. *)
Example multiplier_binary64 :
  F64.of_prim 0x1.839c518ee8e69p+6 = series_multiplier.
Proof. vm_compute. reflexivity. Qed.

(** [0x1.4cccccccccccdp+7] is the float written [166.40]. *)
Example thresholds_binary64 :
  F64.of_prim 0x1.4cccccccccccdp+7 = BATTERY_LOW
  /\ F64.of_prim 208 = BATTERY_HIGH.
Proof. split; vm_compute; reflexivity. Qed.

Example span_binary64 :
  F64.of_prim (208 - 0x1.4cccccccccccdp+7)
  = F64.sub BATTERY_HIGH BATTERY_LOW.
Proof. vm_compute. reflexivity. Qed.

(** [0x1.0666666666666p+1] is the float written [2.05]. *)
Example ratio_binary64 :
  F64.of_prim
    ((0x1.0666666666666p+1 * 0x1.839c518ee8e69p+6 - 0x1.4cccccccccccdp+7)
     / (208 - 0x1.4cccccccccccdp+7) * 100)
  = F64.mul
      (F64.div
         (F64.sub (F64.mul (F64.of_decimal false 205 (-2)) series_multiplier)
                  BATTERY_LOW)
         (F64.sub BATTERY_HIGH BATTERY_LOW))
      (F64.of_Z 100).
Proof. vm_compute. reflexivity. Qed.

(** [round(2.05 * 96.90265487, 2)] is [198.65], the float
    [0x1.8d4cccccccccdp+7]. *)
Example round2_binary64 :
  F64.round2 (F64.mul (F64.of_decimal false 205 (-2)) series_multiplier)
  = F64.of_prim 0x1.8d4cccccccccdp+7.
Proof. vm_compute. reflexivity. Qed.

End Binary64.

(** ** Rounding to the nearest integer *)
Section Rne.

Lemma rne_bounds a b : 0 < b ->
  2 * b * F64.rne a b - b <= 2 * a <= 2 * b * F64.rne a b + b.
Proof.
  intros Hb. unfold F64.rne.
  pose proof (Z.div_mod a b ltac:(lia)) as E.
  pose proof (Z.mod_pos_bound a b Hb) as R.
  destruct (Z.compare_spec (2 * (a mod b)) b) as [C|C|C]; [|nia|nia].
  destruct (Z.even (a / b)); nia.
Qed.

Lemma rne_floor a b : 0 < b -> a / b <= F64.rne a b <= a / b + 1.
Proof.
  intros Hb. unfold F64.rne.
  destruct (2 * (a mod b) ?= b); [destruct (Z.even (a / b))| |]; lia.
Qed.

Lemma rne_exact n b : 0 < b -> F64.rne (n * b) b = n.
Proof.
  intros Hb. unfold F64.rne.
  rewrite Z.div_mul, Z.mod_mul by lia.
  replace (2 * 0) with 0 by lia.
  destruct (Z.compare_spec 0 b); lia.
Qed.

Lemma div_le_cross a1 b1 a2 b2 :
  0 < b1 -> 0 < b2 -> a1 * b2 <= a2 * b1 -> a1 / b1 <= a2 / b2.
Proof.
  intros H1 H2 H.
  apply Z.div_le_lower_bound; [lia|].
  pose proof (Z.mul_div_le a1 b1 H1).
  assert (b1 * (b2 * (a1 / b1)) <= b1 * a2) by nia.
  nia.
Qed.

Lemma rne_mono a1 b1 a2 b2 :
  0 < b1 -> 0 < b2 -> a1 * b2 <= a2 * b1 ->
  F64.rne a1 b1 <= F64.rne a2 b2.
Proof.
  intros H1 H2 H.
  pose proof (div_le_cross _ _ _ _ H1 H2 H) as Q.
  pose proof (rne_floor a1 b1 H1) as F1.
  pose proof (rne_floor a2 b2 H2) as F2.
  destruct (Z.eq_dec (a1 / b1) (a2 / b2)) as [E|NE]; [|lia].
  unfold F64.rne in *. rewrite <- E in *.
  pose proof (Z.div_mod a1 b1 ltac:(lia)) as E1.
  pose proof (Z.div_mod a2 b2 ltac:(lia)) as E2.
  rewrite <- E in E2.
  pose proof (Z.mod_pos_bound a1 b1 H1) as R1.
  pose proof (Z.mod_pos_bound a2 b2 H2) as R2.
  set (q := a1 / b1) in *. set (r1 := a1 mod b1) in *.
  set (r2 := a2 mod b2) in *.
  assert (C : r1 * b2 <= r2 * b1) by nia.
  destruct (Z.compare_spec (2 * r1) b1) as [C1|C1|C1];
    destruct (Z.compare_spec (2 * r2) b2) as [C2|C2|C2];
    try destruct (Z.even q); try lia; nia.
Qed.

Lemma rne_nearest a b : 0 < b ->
  2 * Z.abs (a - F64.rne a b * b) <= b
  /\ (2 * Z.abs (a - F64.rne a b * b) = b -> Z.even (F64.rne a b) = true).
Proof.
  intros Hb. unfold F64.rne.
  pose proof (Z.div_mod a b ltac:(lia)) as E.
  pose proof (Z.mod_pos_bound a b Hb) as R.
  destruct (Z.compare_spec (2 * (a mod b)) b) as [C|C|C].
  - destruct (Z.even (a / b)) eqn:Ev.
    + split; [nia | auto].
    + split; [nia|]. intros _. rewrite Z.even_add, Ev. reflexivity.
  - split; [nia | nia].
  - split; [nia | nia].
Qed.

Lemma rne_ge n a b : 0 < b -> n * b <= a -> n <= F64.rne a b.
Proof.
  intros Hb H. pose proof (rne_mono (n * 1) 1 a b) as M.
  rewrite rne_exact in M; lia.
Qed.

Lemma rne_le n a b : 0 < b -> a <= n * b -> F64.rne a b <= n.
Proof.
  intros Hb H. pose proof (rne_mono a b (n * 1) 1) as M.
  rewrite rne_exact in M; lia.
Qed.

End Rne.

(** ** Rounding to the binary64 grid *)
Section RoundMag.

Lemma grid_nonneg p q : 0 <= F64.grid p q.
Proof. unfold F64.grid. lia. Qed.

Lemma grid_mono p1 q1 p2 q2 :
  0 <= p1 -> 0 < q1 -> 0 < q2 -> p1 * q2 <= p2 * q1 ->
  F64.grid p1 q1 <= F64.grid p2 q2.
Proof.
  intros P1 Q1 Q2 H. unfold F64.grid.
  pose proof (div_le_cross _ _ _ _ Q1 Q2 H) as D.
  pose proof (Z.log2_le_mono _ _ D). lia.
Qed.

(** The scaled quotient has at most 53 bits. *)
Lemma grid_upper p q : 0 <= p -> 0 < q ->
  p < q * 2 ^ F64.grid p q * 2 ^ 53.
Proof.
  intros P Q. set (k := F64.grid p q).
  assert (K : 0 <= k) by apply grid_nonneg.
  assert (D : p / q < 2 ^ (k + 53)).
  { destruct (Z.eq_dec (p / q) 0) as [E|NE].
    - rewrite E. apply Z.pow_pos_nonneg; lia.
    - assert (0 < p / q) by (pose proof (Z.div_pos p q P Q); lia).
      pose proof (Z.log2_spec (p / q) H) as [_ U].
      eapply Z.lt_le_trans; [exact U|].
      apply Z.pow_le_mono_r; [lia|]. unfold k, F64.grid. lia. }
  rewrite Z.pow_add_r in D by lia.
  pose proof (Z.div_mod p q ltac:(lia)) as E.
  pose proof (Z.mod_pos_bound p q Q) as R.
  assert (p / q + 1 <= 2 ^ k * 2 ^ 53) by lia.
  nia.
Qed.

(** Above the unit grid the scaled quotient has exactly 53 bits. *)
Lemma grid_lower p q : 0 <= p -> 0 < q -> 0 < F64.grid p q ->
  q * 2 ^ F64.grid p q * 2 ^ 52 <= p.
Proof.
  intros P Q K. unfold F64.grid in *.
  assert (L : 52 < Z.log2 (p / q)) by lia.
  assert (H : 0 < p / q).
  { destruct (Z.le_gt_cases (p / q) 0) as [N|N]; [|exact N].
    rewrite (Z.log2_nonpos _ N) in L. lia. }
  pose proof (Z.log2_spec (p / q) H) as [Lo _].
  rewrite Z.max_r by lia.
  replace (Z.log2 (p / q)) with (Z.log2 (p / q) - 52 + 52) in Lo at 1 by lia.
  rewrite Z.pow_add_r in Lo by lia.
  pose proof (Z.mul_div_le p q Q). nia.
Qed.

Lemma round_mag_nonneg p q : 0 <= p -> 0 < q -> 0 <= F64.round_mag p q.
Proof.
  intros P Q. unfold F64.round_mag.
  pose proof (grid_nonneg p q) as K.
  assert (0 < 2 ^ F64.grid p q) by (apply Z.pow_pos_nonneg; lia).
  assert (0 <= F64.rne p (q * 2 ^ F64.grid p q)).
  { apply rne_ge; nia. }
  nia.
Qed.

(** The rounded magnitude is a mantissa of at most 53 bits (or [2^53], the
    first mantissa of the next binade) on the grid, within half a grid step
    of [p / q]. *)
Lemma round_mag_nearest p q : 0 <= p -> 0 < q ->
  exists m,
    F64.round_mag p q = m * 2 ^ F64.grid p q
    /\ 0 <= m <= 2 ^ 53
    /\ 2 * (q * 2 ^ F64.grid p q) * m - q * 2 ^ F64.grid p q
       <= 2 * p
       <= 2 * (q * 2 ^ F64.grid p q) * m + q * 2 ^ F64.grid p q.
Proof.
  intros P Q. unfold F64.round_mag.
  pose proof (grid_nonneg p q) as K. pose proof (grid_upper p q P Q) as U.
  set (k := F64.grid p q) in *.
  assert (E : 0 < 2 ^ k) by (apply Z.pow_pos_nonneg; lia).
  assert (B : 0 < q * 2 ^ k) by nia.
  exists (F64.rne p (q * 2 ^ k)). split; [reflexivity|]. split.
  - split; [apply rne_ge; nia | apply rne_le; nia].
  - apply rne_bounds, B.
Qed.

Lemma round_mag_zero q : 0 < q -> F64.round_mag 0 q = 0.
Proof.
  intros Q. unfold F64.round_mag, F64.grid.
  rewrite Z.div_0_l by lia. simpl Z.log2. simpl Z.max. simpl (2 ^ 0).
  rewrite Z.mul_1_r. unfold F64.rne.
  rewrite Z.div_0_l, Z.mod_0_l by lia. simpl.
  destruct q; try lia; reflexivity.
Qed.

Lemma round_mag_mono p1 q1 p2 q2 :
  0 <= p1 -> 0 < q1 -> 0 < q2 -> p1 * q2 <= p2 * q1 ->
  F64.round_mag p1 q1 <= F64.round_mag p2 q2.
Proof.
  intros P1 Q1 Q2 H.
  assert (P2 : 0 <= p2) by nia.
  pose proof (grid_mono _ _ _ _ P1 Q1 Q2 H) as KM.
  pose proof (grid_upper p1 q1 P1 Q1) as U1.
  pose proof (grid_nonneg p1 q1) as K1.
  unfold F64.round_mag.
  set (k1 := F64.grid p1 q1) in *. set (k2 := F64.grid p2 q2) in *.
  assert (E1 : 0 < 2 ^ k1) by (apply Z.pow_pos_nonneg; lia).
  assert (E2 : 0 < 2 ^ k2) by (apply Z.pow_pos_nonneg; lia).
  destruct (Z.eq_dec k1 k2) as [E|NE].
  - rewrite <- E.
    assert (F64.rne p1 (q1 * 2 ^ k1) <= F64.rne p2 (q2 * 2 ^ k1)).
    { apply rne_mono; nia. }
    nia.
  - assert (K2 : 0 < k2) by lia.
    pose proof (grid_lower p2 q2 P2 Q2 K2) as L2. fold k2 in L2.
    assert (A : F64.rne p1 (q1 * 2 ^ k1) <= 2 ^ 53).
    { apply rne_le; nia. }
    assert (B : 2 ^ 52 <= F64.rne p2 (q2 * 2 ^ k2)).
    { apply rne_ge; nia. }
    assert (S : 2 ^ 53 * 2 ^ k1 <= 2 ^ 52 * 2 ^ k2).
    { replace k2 with (k1 + 1 + (k2 - k1 - 1)) by lia.
      rewrite !Z.pow_add_r by lia.
      assert (1 <= 2 ^ (k2 - k1 - 1)).
      { assert (0 < 2 ^ (k2 - k1 - 1)) by (apply Z.pow_pos_nonneg; lia).
        lia. }
      change (2 ^ 53) with (2 ^ 52 * 2). change (2 ^ 1) with 2. nia. }
    nia.
Qed.

End RoundMag.


(** ** Order of the rounded results *)
Section FloatOrder.

Lemma clip_range p q : 0 <= p -> 0 < q -> 0 <= clip p q <= F64.top.
Proof.
  intros P Q. unfold clip. pose proof (round_mag_nonneg p q P Q).
  pose proof top_pos. lia.
Qed.

Lemma clip_zero q : 0 < q -> clip 0 q = 0.
Proof.
  intros Q. unfold clip. rewrite round_mag_zero by exact Q.
  pose proof top_pos. lia.
Qed.

Lemma clip_mono p1 q1 p2 q2 :
  0 <= p1 -> 0 < q1 -> 0 < q2 -> p1 * q2 <= p2 * q1 ->
  clip p1 q1 <= clip p2 q2.
Proof.
  intros P1 Q1 Q2 H. unfold clip.
  pose proof (round_mag_mono _ _ _ _ P1 Q1 Q2 H). lia.
Qed.

Lemma clip_scale_mono a b n1 n2 :
  0 < a -> 0 < b -> 0 <= n1 <= n2 -> clip (n1 * a) b <= clip (n2 * a) b.
Proof.
  intros A B N.
  apply clip_mono; try lia; try (apply Z.mul_nonneg_nonneg; lia).
  apply Z.mul_le_mono_nonneg_r; [lia|].
  apply Z.mul_le_mono_nonneg_r; lia.
Qed.

Lemma key_mk s p q : 0 <= p -> 0 < q ->
  F64.key (F64.mk s p q) = skey s (clip p q).
Proof.
  intros P Q. unfold F64.mk, clip.
  pose proof (round_mag_nonneg p q P Q) as N.
  destruct (Z.ltb_spec (F64.round_mag p q) F64.top) as [L|L]; simpl.
  - unfold F64.sval, skey. rewrite Z2N.id by exact N.
    rewrite Z.min_l by lia. reflexivity.
  - unfold skey. rewrite Z.min_r by lia. reflexivity.
Qed.

Lemma mk_regular s p q : 0 <= p -> 0 < q ->
  F64.wf (F64.mk s p q) /\ F64.is_nan (F64.mk s p q) = false.
Proof.
  intros P Q. unfold F64.mk.
  pose proof (round_mag_nonneg p q P Q) as N.
  destruct (Z.ltb_spec (F64.round_mag p q) F64.top) as [L|L]; simpl.
  - rewrite Z2N.id by exact N. split; [exact L | reflexivity].
  - split; [exact I | reflexivity].
Qed.

Lemma regular_key x : regular x -> - F64.top <= F64.key x <= F64.top.
Proof.
  intros [W N]. pose proof top_pos.
  destruct x as [[] n| [] |]; simpl in *; try discriminate; lia.
Qed.

Lemma scale_regular a b x : 0 < a -> 0 < b ->
  regular x -> regular (scale a b x).
Proof.
  intros A B R. destruct x as [s n| s |]; simpl; [|exact R|exact R].
  apply mk_regular; lia.
Qed.

Lemma scale_mono a b x y : 0 < a -> 0 < b ->
  regular x -> regular y -> F64.key x <= F64.key y ->
  F64.key (scale a b x) <= F64.key (scale a b y).
Proof.
  intros A B Rx Ry H.
  pose proof (regular_key _ (scale_regular a b x A B Rx)) as Kx.
  pose proof (regular_key _ (scale_regular a b y A B Ry)) as Ky.
  pose proof top_pos as T.
  destruct x as [s1 n1| s1 |], y as [s2 n2| s2 |];
    try (destruct Rx as [_ Rx]; discriminate Rx);
    try (destruct Ry as [_ Ry]; discriminate Ry).
  - simpl scale in *. rewrite !key_mk in * by lia.
    simpl in H. unfold F64.sval, skey in *.
    assert (Z1 : clip (0 * a) b = 0) by (apply clip_zero; lia).
    destruct s1, s2.
    + assert (clip (Z.of_N n2 * a) b <= clip (Z.of_N n1 * a) b)
        by (apply clip_scale_mono; lia). lia.
    + pose proof (clip_range (Z.of_N n1 * a) b ltac:(lia) B).
      pose proof (clip_range (Z.of_N n2 * a) b ltac:(lia) B). lia.
    + assert (E1 : Z.of_N n1 = 0) by lia. assert (E2 : Z.of_N n2 = 0) by lia.
      rewrite E1, E2, Z1. lia.
    + assert (clip (Z.of_N n1 * a) b <= clip (Z.of_N n2 * a) b)
        by (apply clip_scale_mono; lia). lia.
  - simpl scale at 2. simpl F64.key at 2. destruct Ry as [Wy _], Rx as [Wx _].
    simpl in *. destruct s2; [|lia]. unfold F64.sval in H. destruct s1; lia.
  - simpl scale at 1. simpl F64.key at 1. destruct Ry as [Wy _], Rx as [Wx _].
    simpl in *. destruct s1; [lia|]. unfold F64.sval in H. destruct s2; lia.
  - simpl in *. exact H.
Qed.

Lemma mul_scale x n : (n <> 0)%N -> F64.is_nan x = false ->
  F64.mul x (F64.Finite false n) = scale (Z.of_N n) F64.one x.
Proof.
  intros N X. destruct x as [s1 n1| s1 |]; simpl in *; try discriminate.
  - rewrite xorb_false_r. reflexivity.
  - apply N.eqb_neq in N. rewrite N, xorb_false_r. reflexivity.
Qed.

Lemma div_scale x n : (n <> 0)%N -> F64.is_nan x = false ->
  F64.div x (F64.Finite false n) = scale F64.one (Z.of_N n) x.
Proof.
  intros N X. destruct x as [s1 n1| s1 |]; simpl in *; try discriminate.
  - apply N.eqb_neq in N. rewrite N, xorb_false_r. reflexivity.
  - rewrite xorb_false_r. reflexivity.
Qed.

(** Subtraction of a finite constant. *)
Lemma sub_regular x s n : regular x -> regular (F64.sub x (F64.Finite s n)).
Proof.
  intros [W N]. destruct x as [s1 n1| s1 |]; simpl in *; try discriminate.
  - destruct (F64.sval s1 n1 + F64.sval (negb s) n =? 0).
    + split; [simpl; apply top_pos | reflexivity].
    + apply mk_regular; lia.
  - split; [exact I | reflexivity].
Qed.

Lemma key_sub_finite s1 n1 s n :
  let z := F64.sval s1 n1 - F64.sval s n in
  F64.key (F64.sub (F64.Finite s1 n1) (F64.Finite s n))
  = skey (z <? 0) (clip (Z.abs z) 1).
Proof.
  intros z. unfold F64.sub, F64.opp, F64.add.
  assert (E : F64.sval s1 n1 + F64.sval (negb s) n = z).
  { unfold z, F64.sval. destruct s; simpl; lia. }
  rewrite E. destruct (Z.eqb_spec z 0) as [Z0|Z0].
  - rewrite Z0. simpl. rewrite clip_zero by lia.
    destruct (s1 && negb s); reflexivity.
  - apply key_mk; lia.
Qed.

Lemma sub_mono x y s n :
  regular x -> regular y -> F64.key x <= F64.key y ->
  F64.key (F64.sub x (F64.Finite s n))
  <= F64.key (F64.sub y (F64.Finite s n)).
Proof.
  intros Rx Ry H.
  pose proof (regular_key _ (sub_regular x s n Rx)) as Kx.
  pose proof (regular_key _ (sub_regular y s n Ry)) as Ky.
  pose proof top_pos as T.
  destruct x as [s1 n1| s1 |], y as [s2 n2| s2 |];
    try (destruct Rx as [_ Rx]; discriminate Rx);
    try (destruct Ry as [_ Ry]; discriminate Ry).
  - rewrite !key_sub_finite. simpl in H.
    set (z1 := F64.sval s1 n1 - F64.sval s n).
    set (z2 := F64.sval s2 n2 - F64.sval s n).
    assert (Z12 : z1 <= z2) by (unfold z1, z2; lia).
    pose proof (clip_range (Z.abs z1) 1 ltac:(lia) ltac:(lia)).
    pose proof (clip_range (Z.abs z2) 1 ltac:(lia) ltac:(lia)).
    unfold skey.
    destruct (Z.ltb_spec z1 0), (Z.ltb_spec z2 0); try lia.
    + assert (clip (Z.abs z2) 1 <= clip (Z.abs z1) 1)
        by (apply clip_mono; lia). lia.
    + apply clip_mono; lia.
  - destruct Ry as [Wy _], Rx as [Wx _]. simpl in *.
    destruct s2; [|lia]. unfold F64.sval in H. destruct s1; lia.
  - destruct Ry as [Wy _], Rx as [Wx _]. simpl in *.
    destruct s1; [lia|]. unfold F64.sval in H. destruct s2; lia.
  - exact H.
Qed.

End FloatOrder.

(** ** The charge computation *)
Section Charge.

Lemma mul_pos_regular c x :
  pos_finite c = true -> regular x -> regular (F64.mul x c).
Proof.
  intros C R. destruct c as [[] n| |]; try discriminate C.
  simpl in C. apply negb_true_iff, N.eqb_neq in C.
  rewrite mul_scale by (exact C || apply R).
  apply scale_regular; [lia | apply one_pos | exact R].
Qed.

Lemma mul_pos_mono c x y :
  pos_finite c = true -> regular x -> regular y ->
  F64.key x <= F64.key y -> F64.key (F64.mul x c) <= F64.key (F64.mul y c).
Proof.
  intros C Rx Ry H. destruct c as [[] n| |]; try discriminate C.
  simpl in C. apply negb_true_iff, N.eqb_neq in C.
  rewrite !mul_scale by (exact C || apply Rx || apply Ry).
  apply scale_mono; try assumption; [lia | apply one_pos].
Qed.

Lemma div_pos_regular c x :
  pos_finite c = true -> regular x -> regular (F64.div x c).
Proof.
  intros C R. destruct c as [[] n| |]; try discriminate C.
  simpl in C. apply negb_true_iff, N.eqb_neq in C.
  rewrite div_scale by (exact C || apply R).
  apply scale_regular; [apply one_pos | lia | exact R].
Qed.

Lemma div_pos_mono c x y :
  pos_finite c = true -> regular x -> regular y ->
  F64.key x <= F64.key y -> F64.key (F64.div x c) <= F64.key (F64.div y c).
Proof.
  intros C Rx Ry H. destruct c as [[] n| |]; try discriminate C.
  simpl in C. apply negb_true_iff, N.eqb_neq in C.
  rewrite !div_scale by (exact C || apply Rx || apply Ry).
  apply scale_mono; try assumption; [apply one_pos | lia].
Qed.

Lemma span_value : F64.sub BATTERY_HIGH BATTERY_LOW = battery_span.
Proof. vm_compute. reflexivity. Qed.

Lemma hundred_value : F64.of_Z 100 = hundred.
Proof. vm_compute. reflexivity. Qed.

Lemma charge_ratio_eq v :
  charge_ratio (F64.mul v series_multiplier) = Ok (ratio_of v).
Proof.
  unfold charge_ratio, float_truediv, float_of_int, ratio_of.
  rewrite span_value, hundred_value. reflexivity.
Qed.

Lemma multiplier_pos : pos_finite series_multiplier = true.
Proof. reflexivity. Qed.

Lemma span_pos : pos_finite battery_span = true.
Proof. reflexivity. Qed.

Lemma hundred_pos : pos_finite hundred = true.
Proof. reflexivity. Qed.

Lemma ratio_regular v : regular v -> regular (ratio_of v).
Proof.
  intros R. unfold ratio_of.
  apply mul_pos_regular; [exact hundred_pos|].
  apply div_pos_regular; [exact span_pos|].
  unfold BATTERY_LOW. apply sub_regular.
  apply mul_pos_regular; [exact multiplier_pos | exact R].
Qed.

Lemma ratio_mono v1 v2 :
  regular v1 -> regular v2 -> F64.key v1 <= F64.key v2 ->
  F64.key (ratio_of v1) <= F64.key (ratio_of v2).
Proof.
  intros R1 R2 H. unfold ratio_of.
  assert (M1 := mul_pos_regular _ _ multiplier_pos R1).
  assert (M2 := mul_pos_regular _ _ multiplier_pos R2).
  assert (S1 : regular (F64.sub (F64.mul v1 series_multiplier) BATTERY_LOW))
    by (unfold BATTERY_LOW; apply sub_regular; exact M1).
  assert (S2 : regular (F64.sub (F64.mul v2 series_multiplier) BATTERY_LOW))
    by (unfold BATTERY_LOW; apply sub_regular; exact M2).
  apply mul_pos_mono; [exact hundred_pos | | |].
  - apply div_pos_regular; [exact span_pos | exact S1].
  - apply div_pos_regular; [exact span_pos | exact S2].
  - apply div_pos_mono; [exact span_pos | exact S1 | exact S2 |].
    unfold BATTERY_LOW. apply sub_mono; [exact M1 | exact M2 |].
    apply mul_pos_mono; [exact multiplier_pos | exact R1 | exact R2 | exact H].
Qed.

Lemma int_clamp r :
  int_of_num (py_max (NInt 0) (py_min (NInt 100) (NFloat r)))
  = Ok (clamped r).
Proof.
  unfold py_min, py_max, clamped, num_lt.
  destruct r as [s n| s |]; cbn [F64.cmp_int].
  - destruct (F64.sval s n ?= 100 * F64.one); try reflexivity.
    cbn [F64.cmp_int].
    destruct (F64.sval s n ?= 0 * F64.one); reflexivity.
  - destruct s; reflexivity.
  - reflexivity.
Qed.

Lemma hundred_in_range : 100 * F64.one < F64.top.
Proof. apply Z.ltb_lt. vm_compute. reflexivity. Qed.

(** The same on the extended line. *)
Lemma clamped_key r : regular r ->
  clamped r =
    if F64.key r <? 100 * F64.one
    then (if 0 <? F64.key r then F64.key r / F64.one else 0)
    else 100.
Proof.
  intros [W N]. pose proof hundred_in_range as HR. pose proof one_pos as O.
  pose proof top_pos as T. unfold clamped.
  destruct r as [s n| s |]; try discriminate N; cbn [F64.cmp_int];
    cbn [F64.key]; cbn [F64.wf] in W.
  - rewrite Z.mul_0_l.
    destruct (Z.compare_spec (F64.sval s n) (100 * F64.one)) as [C|C|C];
      destruct (Z.ltb_spec (F64.sval s n) (100 * F64.one)); try lia;
      try reflexivity.
    destruct (Z.compare_spec (F64.sval s n) 0) as [D|D|D];
      destruct (Z.ltb_spec 0 (F64.sval s n)); try lia; try reflexivity.
    unfold F64.sval in *. destruct s; [lia | reflexivity].
  - destruct s.
    + destruct (Z.ltb_spec (- F64.top) (100 * F64.one)); [|lia].
      destruct (Z.ltb_spec 0 (- F64.top)); [lia | reflexivity].
    + destruct (Z.ltb_spec F64.top (100 * F64.one)); [lia | reflexivity].
Qed.

Lemma clamped_range r : 0 <= clamped r <= 100.
Proof.
  pose proof one_pos as O. unfold clamped.
  destruct r as [s n| s |]; cbn [F64.cmp_int]; try (destruct s);
    cbn [F64.sval F64.trunc]; try lia.
  - destruct (Z.compare_spec (- Z.of_N n) (100 * F64.one)); try lia.
    rewrite Z.mul_0_l.
    destruct (Z.compare_spec (- Z.of_N n) 0); lia.
  - destruct (Z.compare_spec (Z.of_N n) (100 * F64.one)) as [C|C|C]; try lia.
    rewrite Z.mul_0_l.
    destruct (Z.compare_spec (Z.of_N n) 0) as [D|D|D]; try lia.
    split.
    + apply Z.div_pos; lia.
    + assert (Z.of_N n / F64.one < 100)
        by (apply Z.div_lt_upper_bound; lia). lia.
Qed.

Lemma clamped_mono r1 r2 :
  regular r1 -> regular r2 -> F64.key r1 <= F64.key r2 ->
  clamped r1 <= clamped r2.
Proof.
  intros R1 R2 H. pose proof one_pos as O.
  pose proof (clamped_range r1) as B1. pose proof (clamped_range r2) as B2.
  rewrite (clamped_key r1 R1) in *. rewrite (clamped_key r2 R2) in *.
  destruct (Z.ltb_spec (F64.key r1) (100 * F64.one));
    destruct (Z.ltb_spec (F64.key r2) (100 * F64.one)); try lia.
  destruct (Z.ltb_spec 0 (F64.key r1));
    destruct (Z.ltb_spec 0 (F64.key r2)); try lia.
  apply Z.div_le_mono; lia.
Qed.

Lemma charge_of_mono v1 v2 :
  F64.wf v1 -> F64.wf v2 -> F64.leb v1 v2 = true ->
  charge_of v1 <= charge_of v2.
Proof.
  intros W1 W2 L. unfold F64.leb in L.
  apply andb_true_iff in L. destruct L as [L K].
  apply andb_true_iff in L. destruct L as [N1 N2].
  apply negb_true_iff in N1, N2. apply Z.leb_le in K.
  unfold charge_of.
  apply clamped_mono; try (apply ratio_regular; split; assumption).
  apply ratio_mono; try (split; assumption). exact K.
Qed.

End Charge.

(** ** The parser, field by field *)
Section Parser.

Lemma rbind_ok {A B} (a : A) (k : A -> res B) : rbind (Ok a) k = k a.
Proof. reflexivity. Qed.

Lemma mk_wf s p q : F64.wf (F64.mk s p q).
Proof.
  unfold F64.mk. pose proof top_pos.
  destruct (Z.ltb_spec (F64.round_mag p q) F64.top); simpl; [lia | exact I].
Qed.

Lemma of_decimal_wf s d e : F64.wf (F64.of_decimal s d e).
Proof. unfold F64.of_decimal. destruct (0 <=? e); apply mk_wf. Qed.

Lemma py_float_exponent_wf neg m nf l f :
  py_float_exponent neg m nf l = Ok f -> F64.wf f.
Proof.
  unfold py_float_exponent. intros H.
  destruct l as [|c l'].
  - injection H as <-. apply of_decimal_wf.
  - destruct (Ascii.eqb (Str.lower c) "e"); [|discriminate H].
    destruct (Str.sign l') as [eneg l1].
    destruct (Str.digits 0 0 l1) as [[ev ne] rest].
    destruct rest; [|discriminate H].
    destruct (0 <? ne); [|discriminate H].
    injection H as <-. apply of_decimal_wf.
Qed.

(** Every float that [float()] returns has its magnitude in range. *)
Lemma py_float_wf s f : py_float s = Ok f -> F64.wf f.
Proof.
  unfold py_float. intros H.
  destruct (Str.drop_underscores None (Str.chars s)) as [l|];
    [|discriminate H].
  destruct (Str.sign _) as [neg l1].
  destruct (Str.digits 0 0 l1) as [[ip ni] l2].
  destruct (match l2 with
            | "."%char :: l2' => Str.digits ip 0 l2'
            | _ => (ip, 0, l2)
            end) as [[m nf] l3].
  destruct (0 <? ni + nf).
  - eapply py_float_exponent_wf; exact H.
  - destruct (_ || _); [injection H as <-; exact I|].
    destruct (String.eqb _ "nan"); [injection H as <-; exact I|].
    discriminate H.
Qed.

Lemma mem_01 c : Str.mem c "01" = true -> c = "0"%char \/ c = "1"%char.
Proof.
  unfold Str.mem. simpl. rewrite orb_false_r. intros H.
  apply orb_true_iff in H. destruct H as [H|H]; apply Ascii.eqb_eq in H; auto.
Qed.

Lemma py_int_bit c : Str.mem c "01" = true ->
  py_int (String c EmptyString) = Ok (flag_bit c).
Proof. intros H. destruct (mem_01 c H) as [-> | ->]; reflexivity. Qed.

Lemma guard_binary8 bits :
  negb (Str.len bits =? 8)
  || negb (forallb (fun c => Str.mem c "01") (Str.chars bits)) = false
  <-> binary8 bits.
Proof.
  unfold binary8, Str.len. rewrite orb_false_iff, !negb_false_iff.
  rewrite Z.eqb_eq, forallb_forall. split.
  - intros [L A]. split; [lia|]. intros c Hc. apply mem_01, A, Hc.
  - intros [L A]. split; [lia|]. intros c Hc.
    destruct (A c Hc) as [-> | ->]; reflexivity.
Qed.

Lemma parse_status_bits_binary c0 c1 c2 c3 c4 c5 c6 c7 :
  let bits :=
    String c0 (String c1 (String c2 (String c3 (String c4 (String c5
      (String c6 (String c7 EmptyString))))))) in
  binary8 bits ->
  parse_status_bits bits = Ok (flags_of c0 c1 c2 c3 c4 c5 c6 c7).
Proof.
  intros bits B. unfold parse_status_bits.
  pose proof (proj2 (guard_binary8 bits) B) as G. rewrite G.
  destruct B as [_ A].
  assert (M : forall c, In c (Str.chars bits) -> Str.mem c "01" = true).
  { intros c Hc. destruct (A c Hc) as [-> | ->]; reflexivity. }
  cbn [Str.chars list_ascii_of_string In bits] in M.
  unfold STATUS_FLAGS. cbn [status_items].
  change (Str.getitem bits (7 - 7)) with (Ok c0).
  change (Str.getitem bits (7 - 6)) with (Ok c1).
  change (Str.getitem bits (7 - 5)) with (Ok c2).
  change (Str.getitem bits (7 - 4)) with (Ok c3).
  change (Str.getitem bits (7 - 3)) with (Ok c4).
  change (Str.getitem bits (7 - 2)) with (Ok c5).
  change (Str.getitem bits (7 - 1)) with (Ok c6).
  change (Str.getitem bits (7 - 0)) with (Ok c7).
  cbn [rbind].
  rewrite !py_int_bit by (apply M; tauto).
  reflexivity.
Qed.

Lemma string_length8 s : String.length s = 8%nat ->
  exists c0 c1 c2 c3 c4 c5 c6 c7,
    s = String c0 (String c1 (String c2 (String c3 (String c4 (String c5
          (String c6 (String c7 EmptyString))))))).
Proof.
  intros H.
  destruct s as [|c0 [|c1 [|c2 [|c3 [|c4 [|c5 [|c6 [|c7 [|c8 s]]]]]]]]];
    try discriminate H.
  exists c0, c1, c2, c3, c4, c5, c6, c7. reflexivity.
Qed.

Lemma parse_status_bits_other bits :
  ~ binary8 bits -> parse_status_bits bits = Ok [].
Proof.
  intros NB. unfold parse_status_bits.
  destruct (negb (Str.len bits =? 8)
            || negb (forallb (fun c => Str.mem c "01") (Str.chars bits)))
    eqn:G; [reflexivity|].
  apply guard_binary8 in G. contradiction.
Qed.

Lemma binary8_dec bits : binary8 bits \/ ~ binary8 bits.
Proof.
  destruct (negb (Str.len bits =? 8)
            || negb (forallb (fun c => Str.mem c "01") (Str.chars bits)))
    eqn:G.
  - right. intros B. apply guard_binary8 in B. congruence.
  - left. apply guard_binary8, G.
Qed.

Lemma parse_status_bits_cases bits :
  (~ binary8 bits /\ parse_status_bits bits = Ok [])
  \/ (binary8 bits /\ exists c0 c1 c2 c3 c4 c5 c6 c7,
        bits = String c0 (String c1 (String c2 (String c3 (String c4
                 (String c5 (String c6 (String c7 EmptyString)))))))
        /\ parse_status_bits bits = Ok (flags_of c0 c1 c2 c3 c4 c5 c6 c7)).
Proof.
  destruct (binary8_dec bits) as [B|NB].
  - right. split; [exact B|].
    destruct (string_length8 bits (proj1 B))
      as (c0 & c1 & c2 & c3 & c4 & c5 & c6 & c7 & E).
    exists c0, c1, c2, c3, c4, c5, c6, c7. split; [exact E|].
    subst bits. apply parse_status_bits_binary. exact B.
  - left. split; [exact NB | apply parse_status_bits_other, NB].
Qed.

(** A reply of eight tokens whose numeric fields parse gives a snapshot. *)
Lemma parse_fields response p0 p1 p2 p3 p4 p5 p6 p7 iv ifv ov oc fr bv tp fl :
  Str.startswith response "(" = true ->
  Str.split (Str.strip_chars reply_margin response)
    = [p0; p1; p2; p3; p4; p5; p6; p7] ->
  py_float p0 = Ok iv -> py_float p1 = Ok ifv -> py_float p2 = Ok ov ->
  py_int p3 = Ok oc -> py_float p4 = Ok fr -> py_float p5 = Ok bv ->
  py_float p6 = Ok tp -> parse_status_bits p7 = Ok fl ->
  parse_ups_response response
    = Ok (Some (snapshot_of iv ifv ov oc fr bv tp fl)).
Proof.
  intros St Sp E0 E1 E2 E3 E4 E5 E6 E7.
  unfold parse_ups_response, parse_reply. rewrite St, Sp.
  cbn [negb List.length list_get nth_error rbind].
  change (Z.of_nat 8 =? 8) with true. cbn [negb].
  rewrite E0, E1, E2, E3, E4, E5, E6, E7.
  repeat (rewrite rbind_ok; cbv beta). cbv zeta.
  rewrite charge_ratio_eq, rbind_ok. cbv beta.
  rewrite int_clamp, rbind_ok. reflexivity.
Qed.

(** And a snapshot only comes from such a reply. *)
Lemma parse_some response snap :
  parse_ups_response response = Ok (Some snap) ->
  exists p0 p1 p2 p3 p4 p5 p6 p7 iv ifv ov oc fr bv tp fl,
    Str.startswith response "(" = true
    /\ Str.split (Str.strip_chars reply_margin response)
       = [p0; p1; p2; p3; p4; p5; p6; p7]
    /\ py_float p0 = Ok iv /\ py_float p1 = Ok ifv /\ py_float p2 = Ok ov
    /\ py_int p3 = Ok oc /\ py_float p4 = Ok fr /\ py_float p5 = Ok bv
    /\ py_float p6 = Ok tp /\ parse_status_bits p7 = Ok fl
    /\ snap = snapshot_of iv ifv ov oc fr bv tp fl.
Proof.
  unfold parse_ups_response. intros H.
  destruct (Str.startswith response "(") eqn:St; [|discriminate H].
  cbn [negb] in H.
  destruct (parse_reply response) as [r|e] eqn:P;
    [|destruct (is_Exception e); discriminate H].
  injection H as ->. unfold parse_reply in P.
  destruct (Str.split (Str.strip_chars reply_margin response))
    as [|p0 [|p1 [|p2 [|p3 [|p4 [|p5 [|p6 [|p7 [|p8 rest]]]]]]]]] eqn:Sp;
    try discriminate P.
  - cbn [List.length] in P. change (Z.of_nat 8 =? 8) with true in P.
    cbn [negb list_get nth_error rbind] in P.
    destruct (py_float p0) as [iv|] eqn:E0; [|discriminate P].
    destruct (py_float p1) as [ifv|] eqn:E1; [|discriminate P].
    destruct (py_float p2) as [ov|] eqn:E2; [|discriminate P].
    destruct (py_int p3) as [oc|] eqn:E3; [|discriminate P].
    destruct (py_float p4) as [fr|] eqn:E4; [|discriminate P].
    destruct (py_float p5) as [bv|] eqn:E5; [|discriminate P].
    destruct (py_float p6) as [tp|] eqn:E6; [|discriminate P].
    destruct (parse_status_bits p7) as [fl|] eqn:E7; [|discriminate P].
    repeat (rewrite rbind_ok in P; cbv beta in P). cbv zeta in P.
    rewrite charge_ratio_eq, rbind_ok in P. cbv beta in P.
    rewrite int_clamp, rbind_ok in P. injection P as <-.
    exists p0, p1, p2, p3, p4, p5, p6, p7, iv, ifv, ov, oc, fr, bv, tp, fl.
    repeat split; first [assumption | reflexivity].
  - exfalso.
    assert (L : (Z.of_nat (List.length
                   (p0 :: p1 :: p2 :: p3 :: p4 :: p5 :: p6 :: p7 :: p8 :: rest))
                 =? 8) = false).
    { apply Z.eqb_neq. cbn [List.length]. lia. }
    rewrite L in P. discriminate P.
Qed.

End Parser.

(** ** Claims about the parser *)
Section ParserClaims.

Lemma py_float_exponent_raises neg m nf l e :
  py_float_exponent neg m nf l = Raise e -> e = ValueError.
Proof.
  unfold py_float_exponent. intros H.
  destruct l as [|c l']; [discriminate H|].
  destruct (Ascii.eqb (Str.lower c) "e"); [|congruence].
  destruct (Str.sign l') as [eneg l1].
  destruct (Str.digits 0 0 l1) as [[ev ne] rest].
  destruct rest; [|congruence].
  destruct (0 <? ne); congruence.
Qed.

Lemma py_float_raises s e : py_float s = Raise e -> e = ValueError.
Proof.
  unfold py_float. intros H.
  destruct (Str.drop_underscores None (Str.chars s)) as [l|]; [|congruence].
  destruct (Str.sign _) as [neg l1].
  destruct (Str.digits 0 0 l1) as [[ip ni] l2].
  destruct (match l2 with
            | "."%char :: l2' => Str.digits ip 0 l2'
            | _ => (ip, 0, l2)
            end) as [[m nf] l3].
  destruct (0 <? ni + nf).
  - eapply py_float_exponent_raises; exact H.
  - destruct (_ || _); [discriminate H|].
    destruct (String.eqb _ "nan"); congruence.
Qed.

Lemma py_int_raises s e : py_int s = Raise e -> e = ValueError.
Proof.
  unfold py_int. intros H.
  destruct (Str.drop_underscores None (Str.chars s)) as [l|]; [|congruence].
  destruct (Str.sign _) as [neg l1].
  destruct (Str.digits 0 0 l1) as [[v n] rest].
  destruct rest; [|congruence].
  destruct (0 <? n); congruence.
Qed.

Lemma parse_status_bits_ok bits : exists fl, parse_status_bits bits = Ok fl.
Proof.
  destruct (parse_status_bits_cases bits)
    as [[_ E] | [_ (c0 & c1 & c2 & c3 & c4 & c5 & c6 & c7 & _ & E)]];
    eauto.
Qed.

Lemma parse_wrong_start response :
  Str.startswith response "(" = false -> parse_ups_response response = Ok None.
Proof. intros H. unfold parse_ups_response. rewrite H. reflexivity. Qed.

Lemma parse_wrong_count response :
  List.length (tokens response) <> 8%nat ->
  parse_ups_response response = Ok None.
Proof.
  intros H. unfold parse_ups_response, parse_reply. fold (tokens response).
  destruct (Str.startswith response "("); [|reflexivity]. cbn [negb].
  destruct (Z.eqb_spec (Z.of_nat (List.length (tokens response))) 8);
    [lia | reflexivity].
Qed.

Lemma parse_bad_number response :
  Str.startswith response "(" = true ->
  List.length (tokens response) = 8%nat ->
  numeric_tokens_ok (tokens response) = false ->
  parse_ups_response response = Ok None.
Proof.
  intros St L N. unfold parse_ups_response, parse_reply.
  fold (tokens response). rewrite St. cbn [negb].
  destruct (tokens response)
    as [|p0 [|p1 [|p2 [|p3 [|p4 [|p5 [|p6 [|p7 [|p8 rest]]]]]]]]];
    try discriminate L.
  cbn [List.length]. change (Z.of_nat 8 =? 8) with true.
  cbn [negb list_get nth_error rbind].
  unfold numeric_tokens_ok in N. cbn [forallb nth] in N.
  destruct (py_float p0) as [iv|e] eqn:E0;
    [|apply py_float_raises in E0; subst e; reflexivity].
  destruct (py_float p1) as [ifv|e] eqn:E1;
    [|apply py_float_raises in E1; subst e; reflexivity].
  destruct (py_float p2) as [ov|e] eqn:E2;
    [|apply py_float_raises in E2; subst e; reflexivity].
  destruct (py_int p3) as [oc|e] eqn:E3;
    [|apply py_int_raises in E3; subst e; reflexivity].
  destruct (py_float p4) as [fr|e] eqn:E4;
    [|apply py_float_raises in E4; subst e; reflexivity].
  destruct (py_float p5) as [bv|e] eqn:E5;
    [|apply py_float_raises in E5; subst e; reflexivity].
  destruct (py_float p6) as [tp|e] eqn:E6;
    [|apply py_float_raises in E6; subst e; reflexivity].
  discriminate N.
Qed.

Lemma parse_good response :
  Str.startswith response "(" = true ->
  List.length (tokens response) = 8%nat ->
  numeric_tokens_ok (tokens response) = true ->
  exists iv ifv ov oc fr bv tp fl,
    parse_ups_response response
    = Ok (Some (snapshot_of iv ifv ov oc fr bv tp fl)).
Proof.
  intros St L N.
  destruct (tokens response)
    as [|p0 [|p1 [|p2 [|p3 [|p4 [|p5 [|p6 [|p7 [|p8 rest]]]]]]]]] eqn:Sp;
    try discriminate L.
  unfold numeric_tokens_ok in N. cbn [forallb nth] in N.
  destruct (py_float p0) as [iv|] eqn:E0; [|discriminate N].
  destruct (py_float p1) as [ifv|] eqn:E1; [|discriminate N].
  destruct (py_float p2) as [ov|] eqn:E2; [|discriminate N].
  destruct (py_float p4) as [fr|] eqn:E4; [|discriminate N].
  destruct (py_float p5) as [bv|] eqn:E5; [|discriminate N].
  destruct (py_float p6) as [tp|] eqn:E6; [|discriminate N].
  destruct (py_int p3) as [oc|] eqn:E3; [|discriminate N].
  destruct (parse_status_bits_ok p7) as [fl E7].
  exists iv, ifv, ov, oc, fr, bv, tp, fl.
  eapply parse_fields; eassumption.
Qed.

(** C1.  The parser never raises.  It returns [None] when the line does
    not start with an opening parenthesis, when stripping the parentheses
    and line ends and splitting on whitespace does not give exactly eight
    tokens, or when one of the first seven tokens does not parse as its
    numeric type; in every other case it returns a snapshot. *)
Theorem parse_ups_response_null_or_snapshot (response : string) :
  (Str.startswith response "(" = false
   \/ List.length (tokens response) <> 8%nat
   \/ numeric_tokens_ok (tokens response) = false
   -> parse_ups_response response = Ok None)
  /\ (~ (Str.startswith response "(" = false
         \/ List.length (tokens response) <> 8%nat
         \/ numeric_tokens_ok (tokens response) = false)
      -> exists iv ifv ov oc fr bv tp fl,
           parse_ups_response response
           = Ok (Some (snapshot_of iv ifv ov oc fr bv tp fl)))
  /\ (exists r, parse_ups_response response = Ok r).
Proof.
  assert (A : Str.startswith response "(" = false
              \/ List.length (tokens response) <> 8%nat
              \/ numeric_tokens_ok (tokens response) = false
              -> parse_ups_response response = Ok None).
  { intros [H | [H | H]].
    - apply parse_wrong_start, H.
    - apply parse_wrong_count, H.
    - destruct (Str.startswith response "(") eqn:St;
        [|apply parse_wrong_start, St].
      destruct (Nat.eq_dec (List.length (tokens response)) 8) as [L|L];
        [|apply parse_wrong_count, L].
      apply parse_bad_number; assumption. }
  assert (B : ~ (Str.startswith response "(" = false
                 \/ List.length (tokens response) <> 8%nat
                 \/ numeric_tokens_ok (tokens response) = false)
              -> exists iv ifv ov oc fr bv tp fl,
                   parse_ups_response response
                   = Ok (Some (snapshot_of iv ifv ov oc fr bv tp fl))).
  { intros H. apply parse_good.
    - destruct (Str.startswith response "("); [reflexivity | tauto].
    - destruct (Nat.eq_dec (List.length (tokens response)) 8); tauto.
    - destruct (numeric_tokens_ok (tokens response)); [reflexivity | tauto]. }
  split; [exact A | split; [exact B|]].
  destruct (Str.startswith response "(") eqn:St;
    [|exists None; apply A; auto].
  destruct (Nat.eq_dec (List.length (tokens response)) 8) as [L|L];
    [|exists None; apply A; auto].
  destruct (numeric_tokens_ok (tokens response)) eqn:N;
    [|exists None; apply A; auto].
  destruct B as (iv & ifv & ov & oc & fr & bv & tp & fl & E).
  - intros [H | [H | H]]; congruence.
  - eexists; exact E.
Qed.

Lemma snapshot_flags_absent iv ifv ov oc fr bv tp name pos :
  In (name, pos) STATUS_FLAGS ->
  dict_get name (snapshot_of iv ifv ov oc fr bv tp []) = None.
Proof.
  unfold STATUS_FLAGS. cbn [In].
  intros [H|[H|[H|[H|[H|[H|[H|[H|[]]]]]]]]]; injection H as <- <-;
    reflexivity.
Qed.

Lemma snapshot_flags_present iv ifv ov oc fr bv tp c0 c1 c2 c3 c4 c5 c6 c7
  name pos :
  In (name, pos) STATUS_FLAGS ->
  exists c,
    nth_error (rev [c0; c1; c2; c3; c4; c5; c6; c7]) (Z.to_nat pos) = Some c
    /\ dict_get name
         (snapshot_of iv ifv ov oc fr bv tp
            (flags_of c0 c1 c2 c3 c4 c5 c6 c7))
       = Some (PInt (flag_bit c)).
Proof.
  unfold STATUS_FLAGS. cbn [In].
  intros [H|[H|[H|[H|[H|[H|[H|[H|[]]]]]]]]]; injection H as <- <-;
    eexists; split; reflexivity.
Qed.

Lemma flags_from_end c0 c1 c2 c3 c4 c5 c6 c7 name pos :
  In (name, pos) STATUS_FLAGS ->
  exists c,
    nth_error (rev [c0; c1; c2; c3; c4; c5; c6; c7]) (Z.to_nat pos) = Some c
    /\ dict_get name (flags_of c0 c1 c2 c3 c4 c5 c6 c7)
       = Some (PInt (flag_bit c)).
Proof.
  unfold STATUS_FLAGS. cbn [In].
  intros [H|[H|[H|[H|[H|[H|[H|[H|[]]]]]]]]]; injection H as <- <-;
    eexists; split; reflexivity.
Qed.

Lemma snapshot_fields iv ifv ov oc fr bv tp fl :
  (fl = [] \/ exists c0 c1 c2 c3 c4 c5 c6 c7,
                fl = flags_of c0 c1 c2 c3 c4 c5 c6 c7) ->
  let snap := snapshot_of iv ifv ov oc fr bv tp fl in
  dict_get "battery_voltage" snap = Some (PFloat bv)
  /\ dict_get "battery_voltage_all" snap
     = Some (PFloat (F64.round2 (F64.mul bv series_multiplier)))
  /\ dict_get "battery_charge" snap = Some (PInt (charge_of bv)).
Proof.
  intros [-> | (c0 & c1 & c2 & c3 & c4 & c5 & c6 & c7 & ->)];
    repeat split; reflexivity.
Qed.

Lemma status_flags_shape bits fl :
  parse_status_bits bits = Ok fl ->
  fl = [] \/ exists c0 c1 c2 c3 c4 c5 c6 c7,
               fl = flags_of c0 c1 c2 c3 c4 c5 c6 c7.
Proof.
  intros H.
  destruct (parse_status_bits_cases bits)
    as [[_ E] | [_ (c0 & c1 & c2 & c3 & c4 & c5 & c6 & c7 & _ & E)]];
    rewrite E in H; injection H as <-; [left; reflexivity|].
  right. exists c0, c1, c2, c3, c4, c5, c6, c7. reflexivity.
Qed.

(** C2.  A status string of eight binary characters gives the eight named
    flags, the flag of bit [pos] being the character at position [pos]
    from the end; the status [10000001] gives [utility_fail] and
    [beeper_on] 1 and the six others 0.  Any other status token gives no
    flag: the snapshot is still returned, and has none of the eight
    keys. *)
Theorem status_flags_indexed_from_end :
  (forall bits, binary8 bits ->
     exists fl, parse_status_bits bits = Ok fl
       /\ forall name pos, In (name, pos) STATUS_FLAGS ->
            exists c,
              nth_error (rev (Str.chars bits)) (Z.to_nat pos) = Some c
              /\ dict_get name fl = Some (PInt (flag_bit c)))
  /\ (forall response snap,
        parse_ups_response response = Ok (Some snap) ->
        binary8 (nth 7 (tokens response) "") ->
        forall name pos, In (name, pos) STATUS_FLAGS ->
          exists c,
            nth_error (rev (Str.chars (nth 7 (tokens response) "")))
                      (Z.to_nat pos) = Some c
            /\ dict_get name snap = Some (PInt (flag_bit c)))
  /\ parse_status_bits "10000001"
     = Ok [ ("utility_fail", PInt 1); ("battery_low", PInt 0);
            ("boost_buck_active", PInt 0); ("ups_failed", PInt 0);
            ("ups_type_standby", PInt 0); ("test_in_progress", PInt 0);
            ("shutdown_active", PInt 0); ("beeper_on", PInt 1) ]
  /\ (forall bits, ~ binary8 bits -> parse_status_bits bits = Ok [])
  /\ (forall response,
        Str.startswith response "(" = true ->
        List.length (tokens response) = 8%nat ->
        numeric_tokens_ok (tokens response) = true ->
        ~ binary8 (nth 7 (tokens response) "") ->
        exists snap,
          parse_ups_response response = Ok (Some snap)
          /\ forall name pos, In (name, pos) STATUS_FLAGS ->
               dict_get name snap = None).
Proof.
  split; [|split; [|split; [|split]]].
  - intros bits B.
    destruct (string_length8 bits (proj1 B))
      as (c0 & c1 & c2 & c3 & c4 & c5 & c6 & c7 & ->).
    eexists. split; [apply parse_status_bits_binary, B|].
    intros name pos H. apply flags_from_end, H.
  - intros response snap P B name pos H.
    destruct (parse_some _ _ P)
      as (p0 & p1 & p2 & p3 & p4 & p5 & p6 & p7 & iv & ifv & ov & oc & fr
          & bv & tp & fl & _ & Sp & _ & _ & _ & _ & _ & _ & _ & E7 & ->).
    fold (tokens response) in Sp. rewrite Sp in *. cbn [nth] in *.
    destruct (string_length8 p7 (proj1 B))
      as (c0 & c1 & c2 & c3 & c4 & c5 & c6 & c7 & ->).
    rewrite parse_status_bits_binary in E7 by exact B.
    injection E7 as <-.
    apply snapshot_flags_present, H.
  - reflexivity.
  - exact parse_status_bits_other.
  - intros response St L N NB.
    destruct (tokens response)
      as [|p0 [|p1 [|p2 [|p3 [|p4 [|p5 [|p6 [|p7 [|p8 rest]]]]]]]]] eqn:Sp;
      try discriminate L.
    cbn [nth] in NB.
    unfold numeric_tokens_ok in N. cbn [forallb nth] in N.
    destruct (py_float p0) as [iv|] eqn:E0; [|discriminate N].
    destruct (py_float p1) as [ifv|] eqn:E1; [|discriminate N].
    destruct (py_float p2) as [ov|] eqn:E2; [|discriminate N].
    destruct (py_float p4) as [fr|] eqn:E4; [|discriminate N].
    destruct (py_float p5) as [bv|] eqn:E5; [|discriminate N].
    destruct (py_float p6) as [tp|] eqn:E6; [|discriminate N].
    destruct (py_int p3) as [oc|] eqn:E3; [|discriminate N].
    exists (snapshot_of iv ifv ov oc fr bv tp []). split.
    + eapply parse_fields; try eassumption.
      apply parse_status_bits_other, NB.
    + intros name pos H. apply snapshot_flags_absent with (pos := pos), H.
Qed.

(** C9, the counterexample: a reply whose only defect is a status token
    of three characters is not answered with [None]. *)
Lemma short_status_is_parsed :
  Str.startswith short_status_reply "(" = true
  /\ List.length (tokens short_status_reply) = 8%nat
  /\ numeric_tokens_ok (tokens short_status_reply) = true
  /\ nth 7 (tokens short_status_reply) "" = "101"
  /\ parse_ups_response short_status_reply
     = Ok (Some short_status_snapshot)
  /\ parse_ups_response short_status_reply <> Ok None.
Proof.
  assert (E : parse_ups_response short_status_reply
              = Ok (Some short_status_snapshot))
    by (vm_compute; reflexivity).
  repeat split; try (vm_compute; reflexivity).
  rewrite E. discriminate.
Qed.

(** C9, as amended.  A reply with a wrong field count or with a token
    among the first seven that is not a number gives [None], and nothing
    is raised; a reply whose only defect is a status token that is not
    eight binary characters gives a snapshot, which has none of the eight
    flag keys. *)
Theorem malformed_reply_outcomes (response : string) :
  (List.length (tokens response) <> 8%nat
   \/ numeric_tokens_ok (tokens response) = false
   -> parse_ups_response response = Ok None)
  /\ (Str.startswith response "(" = true ->
      List.length (tokens response) = 8%nat ->
      numeric_tokens_ok (tokens response) = true ->
      ~ binary8 (nth 7 (tokens response) "") ->
      exists snap,
        parse_ups_response response = Ok (Some snap)
        /\ forall name pos, In (name, pos) STATUS_FLAGS ->
             dict_get name snap = None).
Proof.
  split.
  - intros [H | H].
    + apply parse_wrong_count, H.
    + destruct (Str.startswith response "(") eqn:St;
        [|apply parse_wrong_start, St].
      destruct (Nat.eq_dec (List.length (tokens response)) 8) as [L|L];
        [|apply parse_wrong_count, L].
      apply parse_bad_number; assumption.
  - intros St L N NB.
    destruct (parse_good response St L N)
      as (iv & ifv & ov & oc & fr & bv & tp & fl & P).
    exists (snapshot_of iv ifv ov oc fr bv tp fl). split; [exact P|].
    destruct (parse_some _ _ P)
      as (p0 & p1 & p2 & p3 & p4 & p5 & p6 & p7 & iv' & ifv' & ov' & oc'
          & fr' & bv' & tp' & fl' & _ & Sp & _ & _ & _ & _ & _ & _ & _
          & E7 & E).
    fold (tokens response) in Sp. rewrite Sp in NB. cbn [nth] in NB.
    rewrite (parse_status_bits_other _ NB) in E7. injection E7 as <-.
    rewrite E. intros name pos H.
    apply snapshot_flags_absent with (pos := pos), H.
Qed.

Lemma floor_clamp r :
  floor_num (clamp (NFloat r) 0 100) = Some (clamped r).
Proof.
  unfold clamp, py_min, py_max, clamped, num_lt, floor_num.
  destruct r as [s n| s |]; cbn [F64.cmp_int].
  - destruct (Z.compare_spec (F64.sval s n) (100 * F64.one)) as [C|C|C];
      try reflexivity.
    cbn [F64.cmp_int]. rewrite Z.mul_0_l.
    destruct (Z.compare_spec (F64.sval s n) 0) as [D|D|D]; try reflexivity.
    cbn [F64.floor F64.trunc]. unfold F64.sval in *.
    destruct s; [lia | reflexivity].
  - destruct s; reflexivity.
  - reflexivity.
Qed.

Lemma clamp_floor_clamped r :
  F64.is_nan r = false -> clamp_floor r 0 100 = Some (clamped r).
Proof.
  intros N. unfold clamp_floor, clamped. pose proof one_pos as O.
  destruct r as [s n| s |]; try discriminate N; cbn [F64.cmp_int].
  - rewrite Z.mul_0_l.
    destruct (Z.compare_spec (F64.sval s n) 0) as [D|D|D];
      destruct (Z.compare_spec (F64.sval s n) (100 * F64.one)) as [C|C|C];
      try lia; try reflexivity; cbn [F64.floor F64.trunc].
    + rewrite D. rewrite Z.div_0_l by lia. reflexivity.
    + rewrite C. rewrite Z.div_mul by lia. reflexivity.
    + unfold F64.sval in *. destruct s; [lia | reflexivity].
  - destruct s; reflexivity.
Qed.

(** [round(x, 2)] gives the float of the nearest decimal with two
    places. *)
Lemma round2_rounded x : rounded_to_cents x (F64.round2 x).
Proof.
  destruct x as [s n| |]; try reflexivity.
  exists (F64.rne (100 * Z.of_N n) F64.one). pose proof one_pos as O.
  destruct (rne_nearest (100 * Z.of_N n) F64.one O) as [A B].
  split; [|reflexivity].
  split; [apply rne_ge; lia|]. split; assumption.
Qed.

(** C3.  In the snapshot of a parsed reply with per-cell battery voltage
    [v], the field [battery_voltage_all] is [v * 96.90265487] rounded to
    two decimals, and [battery_charge] is the floor of
    [clamp(((total - LOW) / (HIGH - LOW)) * 100, 0, 100)] taken on the
    product that was not rounded, with [LOW = 166.40] and
    [HIGH = 208.00]. *)
Theorem battery_fields_of_snapshot (response : string) (snap : dict) :
  parse_ups_response response = Ok (Some snap) ->
  exists v total shown ratio charge,
    dict_get "battery_voltage" snap = Some (PFloat v)
    /\ total = F64.mul v (F64.of_decimal false 9690265487 (-8))
    /\ dict_get "battery_voltage_all" snap = Some (PFloat shown)
    /\ rounded_to_cents total shown
    /\ ratio = F64.mul
                 (F64.div (F64.sub total BATTERY_LOW)
                          (F64.sub BATTERY_HIGH BATTERY_LOW))
                 (F64.of_Z 100)
    /\ BATTERY_LOW = F64.of_decimal false 16640 (-2)
    /\ BATTERY_HIGH = F64.of_decimal false 20800 (-2)
    /\ dict_get "battery_charge" snap = Some (PInt charge)
    /\ floor_num (clamp (NFloat ratio) 0 100) = Some charge
    /\ (F64.is_nan ratio = false -> clamp_floor ratio 0 100 = Some charge).
Proof.
  intros P.
  destruct (parse_some _ _ P)
    as (p0 & p1 & p2 & p3 & p4 & p5 & p6 & p7 & iv & ifv & ov & oc & fr
        & bv & tp & fl & _ & _ & _ & _ & _ & _ & _ & _ & _ & E7 & ->).
  destruct (snapshot_fields iv ifv ov oc fr bv tp fl
              (status_flags_shape _ _ E7)) as (G1 & G2 & G3).
  assert (M : F64.of_decimal false 9690265487 (-8) = series_multiplier)
    by (vm_compute; reflexivity).
  exists bv, (F64.mul bv series_multiplier),
    (F64.round2 (F64.mul bv series_multiplier)), (ratio_of bv),
    (charge_of bv).
  rewrite M, span_value, hundred_value.
  split; [exact G1|]. split; [reflexivity|]. split; [exact G2|].
  split; [apply round2_rounded|].
  split; [reflexivity|].
  split; [vm_compute; reflexivity|]. split; [vm_compute; reflexivity|].
  split; [exact G3|].
  split; [apply floor_clamp | apply clamp_floor_clamped].
Qed.

(** C3, at the sample reply: the battery voltage [2.05] gives the product
    [198.6504424835], which is shown as [198.65], and the charge 77. *)
Lemma battery_fields_of_sample :
  (exists v total shown ratio charge,
    dict_get "battery_voltage" sample_snapshot = Some (PFloat v)
    /\ total = F64.mul v (F64.of_decimal false 9690265487 (-8))
    /\ dict_get "battery_voltage_all" sample_snapshot = Some (PFloat shown)
    /\ rounded_to_cents total shown
    /\ ratio = F64.mul
                 (F64.div (F64.sub total BATTERY_LOW)
                          (F64.sub BATTERY_HIGH BATTERY_LOW))
                 (F64.of_Z 100)
    /\ BATTERY_LOW = F64.of_decimal false 16640 (-2)
    /\ BATTERY_HIGH = F64.of_decimal false 20800 (-2)
    /\ dict_get "battery_charge" sample_snapshot = Some (PInt charge)
    /\ floor_num (clamp (NFloat ratio) 0 100) = Some charge
    /\ (F64.is_nan ratio = false -> clamp_floor ratio 0 100 = Some charge))
  /\ dict_get "battery_voltage_all" sample_snapshot
     = Some (PFloat (F64.of_decimal false 19865 (-2)))
  /\ dict_get "battery_charge" sample_snapshot = Some (PInt 77).
Proof.
  split.
  - apply (battery_fields_of_snapshot sample_reply sample_snapshot).
    vm_compute. reflexivity.
  - split; vm_compute; reflexivity.
Defined.

Lemma low_cut_key :
  F64.key low_cut = 16640000000 * F64.one / 9690265487.
Proof. vm_compute. reflexivity. Qed.

Lemma high_cut_key :
  F64.key high_cut = - (- (20800000000 * F64.one) / 9690265487).
Proof. vm_compute. reflexivity. Qed.

Lemma regularb_sound x : regularb x = true -> regular x.
Proof.
  destruct x as [s n| s |]; simpl; intros H; try discriminate H.
  - split; [apply Z.ltb_lt, H | reflexivity].
  - split; [exact I | reflexivity].
Qed.

Lemma low_cut_regular : regular low_cut.
Proof. apply regularb_sound. vm_compute. reflexivity. Qed.

Lemma high_cut_regular : regular high_cut.
Proof. apply regularb_sound. vm_compute. reflexivity. Qed.

Lemma leb_inv x y : F64.leb x y = true ->
  F64.is_nan x = false /\ F64.is_nan y = false /\ F64.key x <= F64.key y.
Proof.
  unfold F64.leb. intros L.
  apply andb_true_iff in L. destruct L as [L K].
  apply andb_true_iff in L. destruct L as [N1 N2].
  apply negb_true_iff in N1, N2. apply Z.leb_le in K. auto.
Qed.

Lemma charge_of_key_mono v1 v2 :
  regular v1 -> regular v2 -> F64.key v1 <= F64.key v2 ->
  charge_of v1 <= charge_of v2.
Proof.
  intros R1 R2 K. unfold charge_of.
  apply clamped_mono; try (apply ratio_regular; assumption).
  apply ratio_mono; assumption.
Qed.

Lemma low_threshold_regular :
  regular (F64.div BATTERY_LOW series_multiplier).
Proof. apply regularb_sound. vm_compute. reflexivity. Qed.

Lemma high_threshold_regular :
  regular (F64.div BATTERY_HIGH series_multiplier).
Proof. apply regularb_sound. vm_compute. reflexivity. Qed.

(** C4.  For two parsed replies with battery voltages [v1 <= v2] the
    charges satisfy [c1 <= c2]; every charge lies in [0, 100]; a voltage at
    or below [166.40 / 96.90265487] gives 0 and one at or above
    [208.00 / 96.90265487] gives 100, whether the quotient is the float the
    program's division gives or the exact one. *)
Theorem charge_monotone_and_clamped
  (r1 r2 : string) (s1 s2 : dict) (v1 v2 : F64.t) :
  parse_ups_response r1 = Ok (Some s1) ->
  parse_ups_response r2 = Ok (Some s2) ->
  dict_get "battery_voltage" s1 = Some (PFloat v1) ->
  dict_get "battery_voltage" s2 = Some (PFloat v2) ->
  exists c1 c2,
    dict_get "battery_charge" s1 = Some (PInt c1)
    /\ dict_get "battery_charge" s2 = Some (PInt c2)
    /\ (F64.leb v1 v2 = true -> c1 <= c2)
    /\ 0 <= c1 <= 100
    /\ (F64.leb v1 (F64.div BATTERY_LOW series_multiplier) = true -> c1 = 0)
    /\ (F64.leb (F64.div BATTERY_HIGH series_multiplier) v1 = true
        -> c1 = 100)
    /\ (F64.is_nan v1 = false ->
        F64.key v1 * 9690265487 <= 16640000000 * F64.one -> c1 = 0)
    /\ (F64.is_nan v1 = false ->
        20800000000 * F64.one <= F64.key v1 * 9690265487 -> c1 = 100).
Proof.
  intros P1 P2 G1 G2.
  destruct (parse_some _ _ P1)
    as (p0 & p1 & p2 & p3 & p4 & p5 & p6 & p7 & iv & ifv & ov & oc & fr
        & bv & tp & fl & _ & _ & _ & _ & _ & _ & _ & E5 & _ & E7 & ->).
  destruct (parse_some _ _ P2)
    as (q0 & q1 & q2 & q3 & q4 & q5 & q6 & q7 & iv' & ifv' & ov' & oc'
        & fr' & bv' & tp' & fl' & _ & _ & _ & _ & _ & _ & _ & E5' & _
        & E7' & ->).
  destruct (snapshot_fields iv ifv ov oc fr bv tp fl
              (status_flags_shape _ _ E7)) as (A1 & _ & A3).
  destruct (snapshot_fields iv' ifv' ov' oc' fr' bv' tp' fl'
              (status_flags_shape _ _ E7')) as (B1 & _ & B3).
  cbv zeta in *. rewrite A1 in G1. rewrite B1 in G2.
  injection G1 as ->. injection G2 as ->.
  pose proof (py_float_wf _ _ E5) as W1.
  pose proof (py_float_wf _ _ E5') as W2.
  pose proof (clamped_range (ratio_of v1)) as Rg. fold (charge_of v1) in Rg.
  exists (charge_of v1), (charge_of v2).
  split; [exact A3|]. split; [exact B3|].
  split; [apply charge_of_mono; assumption|].
  split; [exact Rg|].
  split; [|split; [|split]].
  - intros L. destruct (leb_inv _ _ L) as (N1 & _ & K).
    assert (charge_of v1
            <= charge_of (F64.div BATTERY_LOW series_multiplier)).
    { apply charge_of_key_mono;
        [split; assumption | exact low_threshold_regular | exact K]. }
    assert (E : charge_of (F64.div BATTERY_LOW series_multiplier) = 0)
      by (vm_compute; reflexivity).
    lia.
  - intros L. destruct (leb_inv _ _ L) as (_ & N1 & K).
    assert (charge_of (F64.div BATTERY_HIGH series_multiplier)
            <= charge_of v1).
    { apply charge_of_key_mono;
        [exact high_threshold_regular | split; assumption | exact K]. }
    assert (E : charge_of (F64.div BATTERY_HIGH series_multiplier) = 100)
      by (vm_compute; reflexivity).
    lia.
  - intros N1 K.
    assert (charge_of v1 <= charge_of low_cut).
    { apply charge_of_key_mono;
        [split; assumption | exact low_cut_regular |].
      rewrite low_cut_key. apply Z.div_le_lower_bound; lia. }
    assert (E : charge_of low_cut = 0) by (vm_compute; reflexivity).
    lia.
  - intros N1 K.
    assert (charge_of high_cut <= charge_of v1).
    { apply charge_of_key_mono;
        [exact high_cut_regular | split; assumption |].
      rewrite high_cut_key.
      assert (- F64.key v1 <= - (20800000000 * F64.one) / 9690265487)
        by (apply Z.div_le_lower_bound; lia).
      lia. }
    assert (E : charge_of high_cut = 100) by (vm_compute; reflexivity).
    lia.
Qed.

(** C4, at the two sample replies, whose voltages are [1.70] and
    [2.05]. *)
Lemma charge_monotone_at_samples :
  exists c1 c2,
    dict_get "battery_charge" short_status_snapshot = Some (PInt c1)
    /\ dict_get "battery_charge" sample_snapshot = Some (PInt c2)
    /\ (F64.leb short_status_voltage sample_voltage = true -> c1 <= c2)
    /\ 0 <= c1 <= 100
    /\ (F64.leb short_status_voltage
          (F64.div BATTERY_LOW series_multiplier) = true -> c1 = 0)
    /\ (F64.leb (F64.div BATTERY_HIGH series_multiplier)
          short_status_voltage = true -> c1 = 100)
    /\ (F64.is_nan short_status_voltage = false ->
        F64.key short_status_voltage * 9690265487
        <= 16640000000 * F64.one -> c1 = 0)
    /\ (F64.is_nan short_status_voltage = false ->
        20800000000 * F64.one
        <= F64.key short_status_voltage * 9690265487 -> c1 = 100).
Proof.
  apply (charge_monotone_and_clamped short_status_reply sample_reply
           short_status_snapshot sample_snapshot
           short_status_voltage sample_voltage);
    vm_compute; reflexivity.
Defined.

End ParserClaims.

(** ** Standard output only grows *)
Section Output.

Lemma extends_ret {A} (a : A) : extends (ret a).
Proof. intros w. exists []. simpl. rewrite app_nil_r. reflexivity. Qed.

Lemma extends_raise {A} (e : exn) : extends (@raise A e).
Proof. intros w. exists []. simpl. rewrite app_nil_r. reflexivity. Qed.

Lemma extends_lift {A} (r : res A) : extends (lift r).
Proof. intros w. exists []. simpl. rewrite app_nil_r. reflexivity. Qed.

Lemma extends_print l : extends (print l).
Proof. intros w. exists [l]. reflexivity. Qed.

Lemma extends_time : extends time_time.
Proof. intros w. exists []. simpl. rewrite app_nil_r. reflexivity. Qed.

Lemma extends_bind {A B} (m : M A) (k : A -> M B) :
  extends m -> (forall a, extends (k a)) -> extends (bind m k).
Proof.
  intros Hm Hk w. unfold bind. destruct (Hm w) as [r1 E1].
  destruct (m w) as [[a|e] w1]; simpl in E1.
  - destruct (Hk a w1) as [r2 E2]. exists (r1 ++ r2)%list.
    rewrite E2, E1, app_assoc. reflexivity.
  - exists r1. exact E1.
Qed.

Lemma extends_try {A} (body handler : M A) :
  extends body -> extends handler -> extends (try_except body handler).
Proof.
  intros Hb Hh w. unfold try_except. destruct (Hb w) as [r1 E1].
  destruct (body w) as [[a|e] w1]; simpl in E1.
  - exists r1. exact E1.
  - destruct (Hh w1) as [r2 E2]. exists (r1 ++ r2)%list.
    rewrite E2, E1, app_assoc. reflexivity.
Qed.

Lemma extends_if {A} (b : bool) (m1 m2 : M A) :
  extends m1 -> extends m2 -> extends (if b then m1 else m2).
Proof. destruct b; auto. Qed.

Lemma extends_read_entry : extends read_entry.
Proof.
  intros w. unfold read_entry.
  destruct (cache_file w) as [| | |data];
    try (exists []; simpl; rewrite app_nil_r; reflexivity).
  apply extends_bind; [exact extends_time|]. intros now.
  apply extends_bind; [apply extends_lift|]. intros ts.
  apply extends_bind; [apply extends_lift|]. intros age.
  apply extends_if; [|apply extends_ret].
  apply extends_bind; [apply extends_lift|]. intros v. apply extends_ret.
Qed.

Lemma extends_read : extends read_from_cache.
Proof.
  intros w. unfold read_from_cache.
  assert (E : extends (r <- try_except read_entry (ret None) ;;
                       match r with
                       | Some v => ret v
                       | None => ret PNone
                       end)).
  { apply extends_bind.
    - apply extends_try; [exact extends_read_entry | apply extends_ret].
    - intros [v|]; apply extends_ret. }
  destruct (cache_file w); try apply E.
  exists []. simpl. rewrite app_nil_r. reflexivity.
Qed.

Lemma extends_write values : extends (write_to_cache values).
Proof.
  apply extends_try; [|apply extends_ret].
  intros w. unfold write_entry. exists [].
  destruct (cache_writable w); [|destruct (cache_openable w)]; simpl;
    rewrite app_nil_r; reflexivity.
Qed.

Lemma extends_query : extends query_ups.
Proof.
  intros w. unfold query_ups. exists [].
  destruct (serial_port w) as [|reply]; simpl;
    [|destruct (parse_ups_response (Str.strip reply))]; simpl;
    rewrite app_nil_r; reflexivity.
Qed.

Lemma extends_get : extends get_ups_data.
Proof.
  unfold get_ups_data.
  apply extends_bind; [exact extends_read|]. intros cached.
  apply extends_if; [apply extends_ret|].
  apply extends_bind; [exact extends_query|]. intros fresh.
  apply extends_if; [|apply extends_ret].
  apply extends_bind; [apply extends_write|]. intros _. apply extends_ret.
Qed.

Lemma extends_report zabbix_server path :
  extends (report_sender zabbix_server path).
Proof.
  unfold report_sender. apply extends_bind.
  - intros w. unfold run_sender. exists [].
    destruct (sender w); simpl; rewrite app_nil_r; reflexivity.
  - intros [[code out] err].
    apply extends_bind; [apply extends_lift|]. intros o.
    apply extends_bind; [apply extends_print|]. intros _.
    apply extends_if; [|apply extends_ret].
    apply extends_bind; [apply extends_lift|]. intros e.
    apply extends_print.
Qed.

Lemma extends_write_temp data hostname : extends (write_temp data hostname).
Proof.
  intros w. unfold write_temp. exists []. rewrite app_nil_r.
  destruct (tmp_creatable w); [|reflexivity]. cbn [negb].
  destruct data; try reflexivity.
  destruct (item_lines hostname d) as [|l ls]; [reflexivity|].
  destruct (tmp_writable w); [reflexivity|].
  destruct ((WRITE_BUFFER <=? text_bytes (l :: ls)) && tmp_spills w);
    reflexivity.
Qed.

Lemma close_temp_frame data hostname w :
  snd (close_temp data hostname w) = w.
Proof.
  unfold close_temp. destruct (tmp_writable w); [reflexivity|].
  destruct data; try reflexivity.
  destruct (item_lines hostname d); reflexivity.
Qed.

Lemma stdout_cleanup path w : stdout (snd (send_cleanup path w)) = stdout w.
Proof.
  unfold send_cleanup. destruct path as [p|]; [|reflexivity].
  destruct (file_exists p (tmp_files w)); reflexivity.
Qed.

Lemma extends_attempt data hostname zabbix_server w :
  exists rest,
    stdout (snd (send_attempt data hostname zabbix_server w))
    = (stdout w ++ rest)%list.
Proof.
  unfold send_attempt.
  destruct (extends_write_temp data hostname w) as [r1 E1].
  destruct (write_temp data hostname w) as [[path|e] w1]; simpl in E1.
  - pose proof (close_temp_frame data hostname w1) as C.
    destruct (close_temp data hostname w1) as [[[]|e] w1'];
      simpl in C; subst w1'.
    + destruct (extends_report zabbix_server path w1) as [r2 E2].
      destruct (report_sender zabbix_server path w1) as [r w2].
      simpl in *. exists (r1 ++ r2)%list. rewrite E2, E1, app_assoc.
      reflexivity.
    + exists r1. exact E1.
  - exists r1. exact E1.
Qed.

Lemma extends_send data hostname zabbix_server :
  extends (send_all_to_zabbix data hostname zabbix_server).
Proof.
  intros w. unfold send_all_to_zabbix.
  set (start :=
         match hostname with
         | Some h =>
             if String.eqb h "" then
               (local_hostname w, snd (print (Text "Hostname Incorrect") w))
             else (h, w)
         | None =>
             (local_hostname w, snd (print (Text "Hostname Incorrect") w))
         end).
  assert (S0 : exists r0, stdout (snd start) = (stdout w ++ r0)%list).
  { unfold start. destruct hostname as [h|];
      [destruct (String.eqb h "")|];
      try (exists [Text "Hostname Incorrect"]; reflexivity).
    exists []. simpl. rewrite app_nil_r. reflexivity. }
  destruct start as [h w0]. simpl in S0. destruct S0 as [r0 E0].
  destruct (extends_attempt data h zabbix_server w0) as [r1 E1].
  destruct (send_attempt data h zabbix_server w0) as [[r path] w1].
  simpl in E1.
  set (handled :=
         match r with
         | Ok tt => (Ok tt, w1)
         | Raise e => if is_Exception e then print (SendError e) w1
                      else (Raise e, w1)
         end).
  assert (S2 : exists r2, stdout (snd handled) = (stdout w1 ++ r2)%list).
  { unfold handled. destruct r as [[]|e]; [|destruct (is_Exception e)];
      try (exists []; simpl; rewrite app_nil_r; reflexivity).
    exists [SendError e]. reflexivity. }
  destruct handled as [r' w2]. simpl in S2. destruct S2 as [r2 E2].
  pose proof (stdout_cleanup path w2) as E3.
  destruct (send_cleanup path w2) as [[[]|e3] w3]; simpl in *;
    exists (r0 ++ r1 ++ r2)%list;
    rewrite E3, E2, E1, E0, !app_assoc; reflexivity.
Qed.

Lemma extends_match_option {A B} (o : option A) (f : A -> M B) (m : M B) :
  (forall a, extends (f a)) -> extends m ->
  extends (match o with Some a => f a | None => m end).
Proof. destruct o; auto. Qed.

End Output.

Create HintDb output.
#[local] Hint Resolve extends_ret extends_raise extends_lift extends_print
  extends_time extends_bind extends_try extends_if extends_read
  extends_write extends_query extends_get extends_send : output.

(** ** Claims about the dispatcher and the cache *)
Section Dispatcher.

Lemma extends_main argv : extends (main argv).
Proof. unfold main. auto 20 with output. Qed.

(** C10.  With exactly one argument, the first line the program prints is
    that argument: whatever else it prints follows it. *)
Theorem main_prints_key_first (prog key : string) (w : world) :
  exists rest,
    stdout (snd (main [prog; key] w)) = (stdout w ++ Text key :: rest)%list.
Proof.
  unfold main. cbn [List.length].
  change (negb (Z.of_nat 2 =? 2)) with false. cbv iota.
  unfold bind at 1. cbn [lift list_get nth_error].
  unfold bind at 1. cbn [print].
  match goal with
  | |- context [snd (?m ?w0)] =>
      let E := fresh "E" in
      assert (E : extends m) by auto 20 with output;
      destruct (E w0) as [rest R]
  end.
  exists rest. rewrite R. cbn [stdout set_stdout].
  rewrite <- app_assoc. reflexivity.
Qed.

Lemma query_ups_eq w :
  query_ups w
  = (Ok (device_answer w), set_serial_queries (S (serial_queries w)) w).
Proof.
  unfold query_ups, device_answer.
  destruct (serial_port w) as [|reply]; [reflexivity|].
  destruct (parse_ups_response (Str.strip reply)); reflexivity.
Qed.

Lemma dict_set_nonempty k v d : dict_set k v d <> [].
Proof.
  destruct d as [|[k' v'] d']; simpl; [|destruct (String.eqb k k')];
    discriminate.
Qed.

Lemma dict_update_nonempty items d :
  d <> [] -> dict_update d items <> [].
Proof.
  unfold dict_update. revert d.
  induction items as [|[k v] items IH]; intros d Hd; [exact Hd|].
  simpl. apply IH, dict_set_nonempty.
Qed.

Lemma snapshot_truthy iv ifv ov oc fr bv tp fl :
  truthy (PDict (snapshot_of iv ifv ov oc fr bv tp fl)) = true.
Proof.
  assert (N : snapshot_of iv ifv ov oc fr bv tp fl <> []).
  { unfold snapshot_of, dict_of. rewrite <- app_comm_cons.
    unfold dict_update. cbn [fold_left].
    apply (dict_update_nonempty _ _ (dict_set_nonempty _ _ _)). }
  simpl. destruct (snapshot_of iv ifv ov oc fr bv tp fl);
    [congruence | reflexivity].
Qed.

(** A query answers [None] or a snapshot, which is never empty. *)
Lemma device_answer_shape w :
  device_answer w = PNone
  \/ exists d, device_answer w = PDict d /\ truthy (PDict d) = true.
Proof.
  unfold device_answer. destruct (serial_port w) as [|reply]; [auto|].
  destruct (parse_ups_response (Str.strip reply)) as [[d|]|e] eqn:P; auto.
  right. exists d. split; [reflexivity|].
  destruct (parse_some _ _ P)
    as (p0 & p1 & p2 & p3 & p4 & p5 & p6 & p7 & iv & ifv & ov & oc & fr
        & bv & tp & fl & _ & _ & _ & _ & _ & _ & _ & _ & _ & _ & ->).
  apply snapshot_truthy.
Qed.

Lemma write_to_cache_eq values w :
  write_to_cache values w
  = (Ok tt,
     if cache_writable w
     then set_cache_file
            (Json (PDict [("timestamp", PFloat (clock w (ticks w)));
                          ("values", values)]))
            (set_ticks (S (ticks w)) w)
     else if cache_openable w
     then set_cache_file Corrupt (set_ticks (S (ticks w)) w)
     else w).
Proof.
  unfold write_to_cache, try_except, write_entry.
  destruct (cache_writable w); [|destruct (cache_openable w)]; reflexivity.
Qed.

(** C7.  [update_cache] queries the device whatever the cache holds.  When
    the query answers a snapshot, the snapshot is handed to the cache
    store and [OK] is printed; when it answers [None], [FAILED] is printed
    and the cache file is left as it was.  The command exits with
    status 0, and neither its outcome nor its output depends on the cache
    file. *)
Theorem update_cache_command (prog : string) (w : world) :
  let argv := [prog; "update_cache"] in
  let fresh := device_answer w in
  fst (main argv w) = Raise (SystemExit 0)
  /\ serial_queries (snd (main argv w)) = S (serial_queries w)
  /\ (fresh <> PNone ->
      stdout (snd (main argv w))
      = (stdout w ++ [Text "update_cache"; Text "OK"])%list
      /\ cache_file (snd (main argv w))
         = cache_file (snd (write_to_cache fresh w))
      /\ (cache_writable w = true ->
          cache_file (snd (main argv w))
          = Json (PDict [("timestamp", PFloat (clock w (ticks w)));
                         ("values", fresh)])))
  /\ (fresh = PNone ->
      stdout (snd (main argv w))
      = (stdout w ++ [Text "update_cache"; Text "FAILED"])%list
      /\ cache_file (snd (main argv w)) = cache_file w)
  /\ (forall f,
        fst (main argv (set_cache_file f w)) = fst (main argv w)
        /\ stdout (snd (main argv (set_cache_file f w)))
           = stdout (snd (main argv w))
        /\ serial_queries (snd (main argv (set_cache_file f w)))
           = serial_queries (snd (main argv w))).
Proof.
  intros argv fresh. subst fresh.
  assert (E : forall w0,
            main argv w0
            = (Raise (SystemExit 0),
               if truthy (device_answer w0)
               then snd (print (Text "OK")
                      (snd (write_to_cache (device_answer w0)
                         (set_serial_queries (S (serial_queries w0))
                            (set_stdout
                               (stdout w0 ++ [Text "update_cache"]) w0)))))
               else snd (print (Text "FAILED")
                      (set_serial_queries (S (serial_queries w0))
                         (set_stdout
                            (stdout w0 ++ [Text "update_cache"]) w0))))).
  { intros w0. unfold argv, main. cbn [List.length].
    change (negb (Z.of_nat 2 =? 2)) with false. cbv iota.
    unfold bind at 1. cbn [lift list_get nth_error].
    unfold bind at 1. cbn [print].
    change (String.eqb "update_cache" "update_cache") with true. cbv iota.
    unfold bind at 1. rewrite query_ups_eq.
    change (device_answer
              (set_stdout (stdout w0 ++ [Text "update_cache"]) w0))
      with (device_answer w0).
    cbn [serial_queries set_stdout].
    destruct (truthy (device_answer w0)).
    - unfold bind. rewrite write_to_cache_eq. reflexivity.
    - reflexivity. }
  rewrite E.
  assert (F : forall f, device_answer (set_cache_file f w) = device_answer w)
    by reflexivity.
  destruct (device_answer_shape w) as [N | (d & D & T)].
  - rewrite N. cbn [truthy fst snd].
    repeat split; try congruence; rewrite ?E, ?F, ?N;
      cbn; rewrite <- ?app_assoc; reflexivity.
  - rewrite D in *. rewrite T. cbn [fst snd].
    rewrite !write_to_cache_eq.
    repeat split; try discriminate; rewrite ?E, ?F, ?D, ?T,
      ?write_to_cache_eq;
      cbn [fst snd cache_writable cache_openable set_stdout
           set_serial_queries set_cache_file];
      try match goal with H : cache_writable w = true |- _ => rewrite H end;
      destruct (cache_writable w); try discriminate;
      try destruct (cache_openable w); cbn;
      rewrite <- ?app_assoc; reflexivity.
Qed.

Lemma read_json w doc : cache_file w = Json doc ->
  read_from_cache w
  = (Ok (cached_value (clock w (ticks w)) doc), set_ticks (S (ticks w)) w).
Proof.
  intros H. unfold read_from_cache, try_except, read_entry, bind.
  rewrite H. unfold time_time, lift, ret, cached_value, fresh_at.
  destruct doc as [| b | z | f | s | l | d]; try reflexivity.
  unfold stored_timestamp, stored_values, py_getitem.
  destruct (dict_get "timestamp" d) as [ts|]; [|reflexivity].
  destruct ts as [| b | z | f | s | l | d']; try reflexivity;
    unfold float_sub_obj, rbind.
  - destruct (float_of_int (if b then 1 else 0)) as [f|e]; [|reflexivity].
    destruct (num_lt (NFloat (F64.sub (clock w (ticks w)) f))
                     (NInt CACHE_TTL)); [|reflexivity].
    destruct (dict_get "values" d); reflexivity.
  - destruct (float_of_int z) as [f|e]; [|reflexivity].
    destruct (num_lt (NFloat (F64.sub (clock w (ticks w)) f))
                     (NInt CACHE_TTL)); [|reflexivity].
    destruct (dict_get "values" d); reflexivity.
  - destruct (num_lt (NFloat (F64.sub (clock w (ticks w)) f))
                     (NInt CACHE_TTL)); [|reflexivity].
    destruct (dict_get "values" d); reflexivity.
Qed.

Lemma read_other w :
  cache_file w = Absent \/ cache_file w = Unreadable \/ cache_file w = Corrupt
  -> read_from_cache w = (Ok PNone, w).
Proof.
  unfold read_from_cache, try_except, read_entry, bind.
  intros [H | [H | H]]; rewrite H; reflexivity.
Qed.

(** C6, as the specification has it, fails: a cache file that is fresh but
    holds the number 5 where the snapshot object should be is malformed,
    and the read returns the 5, not [None]. *)
Lemma fresh_number_is_served :
  let w := set_cache_file
             (Json (PDict [("timestamp", PFloat (sample_clock 0));
                           ("values", PInt 5)]))
             sample_world in
  malformed (cache_file w)
  /\ fst (read_from_cache w) = Ok (PInt 5)
  /\ ~ (fst (read_from_cache w) = Ok PNone
        <-> cache_file w = Absent
            \/ cache_file w = Unreadable
            \/ malformed (cache_file w)
            \/ expired (clock w (ticks w)) (cache_file w)).
Proof.
  cbv zeta.
  assert (M : malformed
                (Json (PDict [("timestamp", PFloat (sample_clock 0));
                              ("values", PInt 5)]))).
  { right. eexists. split; reflexivity. }
  assert (R : fst (read_from_cache
                     (set_cache_file
                        (Json (PDict [("timestamp", PFloat (sample_clock 0));
                                      ("values", PInt 5)]))
                        sample_world)) = Ok (PInt 5))
    by (vm_compute; reflexivity).
  split; [exact M|]. split; [exact R|].
  intros [_ H]. rewrite R in H.
  assert (X : Ok (PInt 5) = @Ok pyval PNone) by (apply H; auto).
  discriminate X.
Qed.

(** C6, amended.  A read never raises and prints nothing.  It returns
    [None] exactly when the cache file is absent, unreadable or unusable
    (not JSON, or not an object with a timestamp that converts to a float
    and a values member that is not null), or its stored timestamp has
    reached the TTL of 120 seconds at the current clock reading; in each
    of these cases the answer is the one given for a missing file, and the
    file is left as it is.  Any other answer is the stored values member,
    whatever its type. *)
Theorem read_from_cache_null_cases (w : world) :
  (exists v, fst (read_from_cache w) = Ok v)
  /\ stdout (snd (read_from_cache w)) = stdout w
  /\ cache_file (snd (read_from_cache w)) = cache_file w
  /\ (fst (read_from_cache w) = Ok PNone
      <-> cache_file w = Absent
          \/ cache_file w = Unreadable
          \/ unusable (cache_file w)
          \/ expired (clock w (ticks w)) (cache_file w))
  /\ (forall v, fst (read_from_cache w) = Ok v -> v <> PNone ->
      exists doc ts,
        cache_file w = Json doc
        /\ stored_values doc = Some v
        /\ stored_timestamp doc = Some ts
        /\ fresh_at (clock w (ticks w)) ts = true).
Proof.
  destruct (cache_file w) as [| | |doc] eqn:C.
  - rewrite read_other by auto. cbn [fst snd].
    split; [eauto|]. split; [reflexivity|]. split; [exact C|].
    split; [split; auto|]. intros v [= <-] N. contradiction N. reflexivity.
  - rewrite read_other by auto. cbn [fst snd].
    split; [eauto|]. split; [reflexivity|]. split; [exact C|].
    split; [split; auto|]. intros v [= <-] N. contradiction N. reflexivity.
  - rewrite read_other by auto. cbn [fst snd].
    split; [eauto|]. split; [reflexivity|]. split; [exact C|].
    split; [|intros v [= <-] N; contradiction N; reflexivity].
    split; [|reflexivity].
    intros _. right. right. left. left. reflexivity.
  - rewrite (read_json w doc C). cbn [fst snd].
    split; [eauto|]. split; [reflexivity|]. split; [exact C|].
    unfold cached_value, unusable, expired. split; [split|].
    + intros H. right. right.
      destruct (stored_timestamp doc) as [ts|] eqn:T;
        [|left; right; exists doc; auto].
      destruct (fresh_at (clock w (ticks w)) ts) eqn:Fr;
        [|right; exists doc, ts; auto].
      left. right. exists doc. split; [reflexivity|]. right.
      destruct (stored_values doc) as [v|]; [|auto].
      right. injection H as ->. reflexivity.
    + intros [H | [H | [[H | (doc' & E & H)] | (doc' & ts & E & T & Fr)]]];
        try discriminate H.
      * injection E as <-.
        destruct H as [H | [H | H]]; rewrite H;
          try reflexivity;
          destruct (stored_timestamp doc) as [ts|]; try reflexivity;
          destruct (fresh_at (clock w (ticks w)) ts); reflexivity.
      * injection E as <-. rewrite T, Fr. reflexivity.
    + intros v H N.
      destruct (stored_timestamp doc) as [ts|] eqn:T;
        [|injection H as <-; contradiction N; reflexivity].
      destruct (fresh_at (clock w (ticks w)) ts) eqn:Fr;
        [|injection H as <-; contradiction N; reflexivity].
      destruct (stored_values doc) as [v'|] eqn:V;
        [|injection H as <-; contradiction N; reflexivity].
      injection H as <-. exists doc, ts. auto.
Qed.

Lemma key_121 : F64.key (F64.of_Z 121) = 121 * F64.one.
Proof. vm_compute. reflexivity. Qed.

Lemma stale_after_121 now ts :
  F64.leb (F64.of_Z 121) (F64.sub now ts) = true -> fresh_at now ts = false.
Proof.
  intros L. destruct (leb_inv _ _ L) as (_ & N & K). rewrite key_121 in K.
  pose proof one_pos as O. pose proof top_pos as T.
  unfold fresh_at, num_lt, CACHE_TTL.
  destruct (F64.sub now ts) as [s n| s |]; try discriminate N;
    cbn [F64.cmp_int F64.key] in *.
  - destruct (Z.compare_spec (F64.sval s n) (120 * F64.one)); try reflexivity.
    lia.
  - destruct s; [lia | reflexivity].
Qed.

(** C5.  When the cache file can be written and holds what
    [write_to_cache] stored, a read returns the stored snapshot as long as
    the age it measures is below 120 seconds, and [None] once that age is
    121 seconds or more. *)
Theorem cache_round_trip (snapshot : dict) (w w' : world) :
  cache_writable w = true ->
  cache_file w' = cache_file (snd (write_to_cache (PDict snapshot) w)) ->
  let written := clock w (ticks w) in
  let now := clock w' (ticks w') in
  (fresh_at now written = true ->
   fst (read_from_cache w') = Ok (PDict snapshot))
  /\ (F64.leb (F64.of_Z 121) (F64.sub now written) = true ->
      fst (read_from_cache w') = Ok PNone).
Proof.
  intros W C written now. rewrite write_to_cache_eq, W in C.
  cbn [snd cache_file set_cache_file] in C.
  rewrite (read_json w' _ C). cbn [fst].
  unfold cached_value. cbn [stored_timestamp stored_values dict_get].
  change (String.eqb "timestamp" "timestamp") with true.
  change (String.eqb "values" "timestamp") with false.
  change (String.eqb "values" "values") with true. cbv iota.
  fold written. fold now. split.
  - intros F. rewrite F. reflexivity.
  - intros L. rewrite (stale_after_121 _ _ L). reflexivity.
Qed.

(** C5, in the sample world: a read 60 seconds after the write returns the
    snapshot, a read 180 seconds after it returns [None]. *)
Lemma cache_round_trip_sample :
  let stored := snd (write_to_cache (PDict sample_snapshot) sample_world) in
  fst (read_from_cache stored) = Ok (PDict sample_snapshot)
  /\ fst (read_from_cache (set_ticks 3 stored)) = Ok PNone.
Proof.
  split.
  - apply (cache_round_trip sample_snapshot sample_world
             (snd (write_to_cache (PDict sample_snapshot) sample_world)));
      vm_compute; reflexivity.
  - apply (cache_round_trip sample_snapshot sample_world
             (set_ticks 3
                (snd (write_to_cache (PDict sample_snapshot) sample_world))));
      vm_compute; reflexivity.
Defined.

Lemma read_frame w :
  exists cached w1,
    read_from_cache w = (Ok cached, w1)
    /\ serial_port w1 = serial_port w
    /\ serial_queries w1 = serial_queries w
    /\ cache_file w1 = cache_file w.
Proof.
  destruct (cache_file w) as [| | |doc] eqn:C.
  - exists PNone, w. rewrite read_other by auto. auto.
  - exists PNone, w. rewrite read_other by auto. auto.
  - exists PNone, w. rewrite read_other by auto. auto.
  - eexists. eexists. rewrite (read_json w doc C).
    split; [reflexivity|]. cbn. auto.
Qed.

(** X2.  [get_ups_data] serves the cache when a read gives a snapshot and
    leaves the device alone; otherwise it makes one device query, returns
    its answer, and hands a snapshot it obtained to the cache store. *)
Theorem get_ups_data_fallback (w : world) :
  exists cached w1,
    read_from_cache w = (Ok cached, w1)
    /\ (truthy cached = true ->
        fst (get_ups_data w) = Ok cached
        /\ serial_queries (snd (get_ups_data w)) = serial_queries w)
    /\ (truthy cached = false ->
        fst (get_ups_data w) = Ok (device_answer w)
        /\ serial_queries (snd (get_ups_data w)) = S (serial_queries w)
        /\ (device_answer w = PNone ->
            cache_file (snd (get_ups_data w)) = cache_file w)
        /\ (device_answer w <> PNone ->
            cache_file (snd (get_ups_data w))
            = cache_file
                (snd (write_to_cache (device_answer w)
                        (set_serial_queries (S (serial_queries w1)) w1))))).
Proof.
  destruct (read_frame w) as (cached & w1 & R & P & Q & C).
  exists cached, w1. split; [exact R|].
  assert (D : device_answer w1 = device_answer w)
    by (unfold device_answer; rewrite P; reflexivity).
  unfold get_ups_data, bind. rewrite R. split.
  - intros T. rewrite T. cbn. auto.
  - intros T. rewrite T, query_ups_eq, D.
    destruct (device_answer_shape w) as [N | (d & E & Td)].
    + rewrite N. cbn. rewrite Q, C. repeat split; congruence.
    + rewrite E, Td, write_to_cache_eq. cbn [fst snd ret].
      split; [reflexivity|]. split.
      * destruct (cache_writable _); [|destruct (cache_openable _)]; cbn;
          rewrite Q; reflexivity.
      * split; [discriminate|]. intros _. reflexivity.
Qed.

End Dispatcher.

(** ** Claims about the forwarder *)
Section Forwarder.

Lemma remove_fresh path lines files :
  (forall f, In f files -> (fst f < path)%nat) ->
  remove_file path ((path, lines) :: files) = files.
Proof.
  intros H. unfold remove_file. cbn [filter fst].
  rewrite Nat.eqb_refl. cbn [negb].
  induction files as [|f files IH]; [reflexivity|].
  cbn [filter]. assert (L : (fst f < path)%nat) by (apply H; left; auto).
  destruct (Nat.eqb_spec (fst f) path); [lia|]. cbn [negb].
  rewrite IH; [reflexivity|]. intros g G. apply H. right. exact G.
Qed.

Lemma write_temp_ok d hostname w :
  tmp_creatable w = true -> tmp_writable w = true ->
  exists lines,
    write_temp (PDict d) hostname w
    = (Ok (tmp_next w),
       set_tmp (S (tmp_next w)) ((tmp_next w, lines) :: tmp_files w) w).
Proof.
  intros C W. unfold write_temp. rewrite C, W. cbn [negb].
  destruct (item_lines hostname d) as [|l ls]; eauto.
Qed.

Lemma close_temp_ok data hostname w :
  tmp_writable w = true -> close_temp data hostname w = (Ok tt, w).
Proof. intros W. unfold close_temp. rewrite W. reflexivity. Qed.

(** The outcome of the statements after the [with] block leaves the
    temporary files alone, and is an [Exception] when it is one. *)
Lemma report_sender_files zabbix_server path w :
  tmp_files (snd (report_sender zabbix_server path w)) = tmp_files w
  /\ tmp_next (snd (report_sender zabbix_server path w)) = tmp_next w
  /\ forall e, fst (report_sender zabbix_server path w) = Raise e ->
               sender w = SenderRaises e \/ is_Exception e = true.
Proof.
  unfold report_sender, bind, run_sender, lift, decode, print, ret.
  destruct (sender w) as [code out err| |e0]; cbn [fst snd].
  - destruct out as [o|]; cbn [fst snd tmp_files tmp_next set_sender_runs];
      [|repeat split; intros e [= <-]; auto].
    destruct (negb (code =? 0));
      [destruct err as [e1|]|];
      cbn [fst snd tmp_files tmp_next set_sender_runs set_stdout];
      repeat split; try discriminate; intros e [= <-]; auto.
  - repeat split. intros e [= <-]. auto.
  - repeat split. intros e [= <-]. auto.
Qed.

(** X1.  When the temporary file can be made and written, the forwarder
    removes it and returns normally, whatever the sender does: it exits
    with any code and outputs, it is missing, or running it raises an
    [Exception]. *)
Theorem forwarder_removes_temp_file
  (snapshot : dict) (hostname : option string) (zabbix_server : string)
  (w : world) :
  tmp_creatable w = true -> tmp_writable w = true -> names_fresh w ->
  (forall e, sender w = SenderRaises e -> is_Exception e = true) ->
  fst (send_all_to_zabbix (PDict snapshot) hostname zabbix_server w) = Ok tt
  /\ tmp_files (snd (send_all_to_zabbix (PDict snapshot) hostname
                       zabbix_server w))
     = tmp_files w.
Proof.
  intros C W Fr Ex. unfold send_all_to_zabbix.
  set (start :=
         match hostname with
         | Some h =>
             if String.eqb h "" then
               (local_hostname w, snd (print (Text "Hostname Incorrect") w))
             else (h, w)
         | None =>
             (local_hostname w, snd (print (Text "Hostname Incorrect") w))
         end).
  assert (S0 : tmp_creatable (snd start) = true
               /\ tmp_writable (snd start) = true
               /\ tmp_files (snd start) = tmp_files w
               /\ tmp_next (snd start) = tmp_next w
               /\ sender (snd start) = sender w).
  { unfold start. destruct hostname as [h|];
      [destruct (String.eqb h "")|]; cbn; auto. }
  destruct start as [h w0]. cbn [snd] in S0.
  destruct S0 as (C0 & W0 & F0 & N0 & Se0).
  unfold send_attempt.
  destruct (write_temp_ok snapshot h w0 C0 W0) as [lines E]. rewrite E.
  rewrite close_temp_ok by exact W0.
  set (w1 := set_tmp (S (tmp_next w0)) ((tmp_next w0, lines) :: tmp_files w0)
               w0).
  destruct (report_sender_files zabbix_server (tmp_next w0) w1)
    as (F2 & N2 & R2).
  destruct (report_sender zabbix_server (tmp_next w0) w1) as [r w2].
  cbn [fst snd] in *.
  assert (X : exists w3,
            match r with
            | Ok tt => (Ok tt, w2)
            | Raise e =>
                if is_Exception e then print (SendError e) w2
                else (Raise e, w2)
            end = (Ok tt, w3)
            /\ tmp_files w3 = (tmp_next w0, lines) :: tmp_files w0
            /\ tmp_next w3 = S (tmp_next w0)).
  { destruct r as [[]|e].
    - exists w2. auto.
    - assert (is_Exception e = true) as ->.
      { destruct (R2 e eq_refl) as [H|H]; [|exact H].
        apply Ex. rewrite <- Se0. exact H. }
      eexists. split; [reflexivity|]. cbn. auto. }
  destruct X as (w3 & -> & F3 & N3).
  unfold send_cleanup. rewrite F3.
  cbn [file_exists existsb fst]. rewrite Nat.eqb_refl. cbn [orb fst snd].
  split; [reflexivity|].
  cbn [tmp_files set_tmp]. rewrite remove_fresh, F0; [reflexivity|].
  intros f Hf. rewrite N0. apply Fr. rewrite <- F0. exact Hf.
Qed.

(** X1, at the sample world, where the sender exits with code 1. *)
Lemma forwarder_removes_temp_file_sample :
  fst (send_all_to_zabbix (PDict sample_snapshot) (Some ZABBIX_HOSTNAME)
         ZABBIX_SERVER sample_world) = Ok tt
  /\ tmp_files (snd (send_all_to_zabbix (PDict sample_snapshot)
                       (Some ZABBIX_HOSTNAME) ZABBIX_SERVER sample_world))
     = tmp_files sample_world.
Proof.
  apply forwarder_removes_temp_file; try reflexivity.
  - intros f [].
  - intros e H. discriminate H.
Defined.

(** C8, where it fails.  When no temporary file can be made, the handler
    prints the error, the [finally] block then reads a name that was never
    bound, and the forwarder raises [UnboundLocalError]. *)
Theorem forwarder_raises_on_temp_failure :
  fst (send_all_to_zabbix (PDict sample_snapshot) (Some ZABBIX_HOSTNAME)
         ZABBIX_SERVER no_tmp_world) = Raise UnboundLocalError
  /\ stdout (snd (send_all_to_zabbix (PDict sample_snapshot)
                    (Some ZABBIX_HOSTNAME) ZABBIX_SERVER no_tmp_world))
     = [SendError OSError].
Proof. split; vm_compute; reflexivity. Qed.

(** When the file is made and the disk takes no data, the text of the
    sample snapshot stays in the buffer until the file is closed: the
    error comes after the name was bound, is printed, and the file is
    removed. *)
Example full_disk_is_cleaned_up :
  fst (send_all_to_zabbix (PDict sample_snapshot) (Some ZABBIX_HOSTNAME)
         ZABBIX_SERVER full_disk_world) = Ok tt
  /\ stdout (snd (send_all_to_zabbix (PDict sample_snapshot)
                    (Some ZABBIX_HOSTNAME) ZABBIX_SERVER full_disk_world))
     = [SendError OSError]
  /\ tmp_files (snd (send_all_to_zabbix (PDict sample_snapshot)
                       (Some ZABBIX_HOSTNAME) ZABBIX_SERVER full_disk_world))
     = [].
Proof. repeat split; vm_compute; reflexivity. Qed.

End Forwarder.

(** ** The sample replies

    What the parser and a device query give for the sample replies,
    computed once. *)
Section Samples.

Lemma sample_parses :
  parse_ups_response sample_reply = Ok (Some sample_snapshot).
Proof. vm_compute. reflexivity. Qed.

Lemma nan_parses : parse_ups_response nan_reply = Ok (Some nan_snapshot).
Proof. vm_compute. reflexivity. Qed.

Lemma sample_answer : device_answer sample_world = PDict sample_snapshot.
Proof.
  unfold device_answer. cbn [serial_port sample_world].
  change (Str.strip sample_reply) with sample_reply.
  rewrite sample_parses. reflexivity.
Qed.

End Samples.

(** ** The reply line and the snapshot *)
Section ReplyLine.

Lemma chars_app s t : Str.chars (s ++ t) = (Str.chars s ++ Str.chars t)%list.
Proof.
  unfold Str.chars. induction s as [|c s IH]; [reflexivity|].
  cbn. rewrite IH. reflexivity.
Qed.

Lemma drop_while_all f t : forallb f t = true -> Str.drop_while f t = [].
Proof.
  induction t as [|c t IH]; [reflexivity|]. cbn.
  destruct (f c); [exact IH | discriminate].
Qed.

Lemma drop_while_app f l t :
  forallb f l = true -> Str.drop_while f (l ++ t) = Str.drop_while f t.
Proof.
  induction l as [|c l IH]; [reflexivity|]. cbn.
  destruct (f c); [exact IH | discriminate].
Qed.

Lemma drop_while_keep f l t :
  Str.drop_while f l <> [] ->
  Str.drop_while f (l ++ t) = (Str.drop_while f l ++ t)%list.
Proof.
  induction l as [|c l IH]; [intros H; contradiction H; reflexivity|].
  cbn. destruct (f c); [exact IH | reflexivity].
Qed.

Lemma strip_with_suffix f s t :
  forallb f (Str.chars t) = true ->
  Str.strip_with f (s ++ t) = Str.strip_with f s.
Proof.
  intros H. unfold Str.strip_with. rewrite chars_app. f_equal. f_equal.
  destruct (Str.drop_while f (Str.chars s)) as [|c l] eqn:E.
  - assert (A : forallb f (Str.chars s) = true).
    { clear H. induction (Str.chars s) as [|c l IH]; [reflexivity|].
      cbn in E |- *. destruct (f c); [apply IH, E | discriminate E]. }
    rewrite (drop_while_app _ _ _ A), (drop_while_all _ _ H). reflexivity.
  - rewrite drop_while_keep by (rewrite E; discriminate).
    rewrite E, rev_app_distr. apply drop_while_app.
    rewrite forallb_forall in *. intros x Hx. apply H, in_rev, Hx.
Qed.

Lemma strip_with_prefix f p s :
  forallb f (Str.chars p) = true ->
  Str.strip_with f (p ++ s) = Str.strip_with f s.
Proof.
  intros H. unfold Str.strip_with.
  rewrite chars_app, (drop_while_app _ _ _ H). reflexivity.
Qed.

(** X3.  Parentheses, carriage returns and line feeds after a reply do not
    change what the parser returns, whether the reply is well formed or not.
    *)
Theorem parse_ignores_trailing_margin (response suffix : string) :
  forallb (fun c => Str.mem c reply_margin) (Str.chars suffix) = true ->
  parse_ups_response (response ++ suffix) = parse_ups_response response.
Proof.
  intros H.
  assert (P : parse_reply (response ++ suffix) = parse_reply response).
  { unfold parse_reply, Str.strip_chars.
    rewrite (strip_with_suffix _ response suffix H). reflexivity. }
  unfold parse_ups_response. rewrite P.
  destruct response as [|c r].
  - cbn [Str.startswith String.prefix negb].
    assert (N : parse_reply "" = Ok None) by (vm_compute; reflexivity).
    rewrite N. destruct (negb _); reflexivity.
  - unfold Str.startswith. cbn [String.prefix append].
    assert (E : forall s, String.prefix "" s = true)
      by (intros []; reflexivity).
    destruct (ascii_dec "(" c); rewrite ?E; reflexivity.
Qed.

(** X3, for the sample reply followed by a carriage return and a line feed.
    *)
Lemma parse_ignores_trailing_margin_sample :
  parse_ups_response
    (sample_reply ++ String "013" (String "010" EmptyString))
  = Ok (Some sample_snapshot).
Proof.
  rewrite (parse_ignores_trailing_margin sample_reply
             (String "013" (String "010" EmptyString)) eq_refl).
  exact sample_parses.
Defined.

(** X4.  A device query gives the same answer whatever whitespace surrounds
    the line read from the port: the line is stripped before it is parsed.
    *)
Theorem query_ignores_surrounding_whitespace
  (before reply after : string) (w : world) :
  forallb Str.is_space (Str.chars before) = true ->
  forallb Str.is_space (Str.chars after) = true ->
  fst (query_ups (set_serial_port (Replies (before ++ reply ++ after)) w))
  = fst (query_ups (set_serial_port (Replies reply) w)).
Proof.
  intros B A. rewrite !query_ups_eq. cbn [fst]. unfold device_answer.
  cbn [serial_port set_serial_port]. unfold Str.strip.
  rewrite (strip_with_prefix _ _ _ B), (strip_with_suffix _ _ _ A).
  reflexivity.
Qed.

(** X4, for the sample reply between a space and a line end. *)
Lemma query_ignores_surrounding_whitespace_sample :
  fst (query_ups
         (set_serial_port
            (Replies (" " ++ sample_reply
                      ++ String "013" (String "010" EmptyString)))
            sample_world))
  = fst (query_ups (set_serial_port (Replies sample_reply) sample_world)).
Proof.
  apply (query_ignores_surrounding_whitespace " " sample_reply
           (String "013" (String "010" EmptyString)) sample_world);
    reflexivity.
Defined.

(** A snapshot holds the numbers its tokens denote, with or without the
    eight flags. *)
Lemma snapshot_cases response snap :
  parse_ups_response response = Ok (Some snap) ->
  exists iv ifv ov oc fr bv tp,
    py_float (nth 0 (tokens response) "") = Ok iv
    /\ py_float (nth 1 (tokens response) "") = Ok ifv
    /\ py_float (nth 2 (tokens response) "") = Ok ov
    /\ py_int (nth 3 (tokens response) "") = Ok oc
    /\ py_float (nth 4 (tokens response) "") = Ok fr
    /\ py_float (nth 5 (tokens response) "") = Ok bv
    /\ py_float (nth 6 (tokens response) "") = Ok tp
    /\ (snap = snapshot_of iv ifv ov oc fr bv tp []
        \/ exists c0 c1 c2 c3 c4 c5 c6 c7,
             snap = snapshot_of iv ifv ov oc fr bv tp
                      (flags_of c0 c1 c2 c3 c4 c5 c6 c7)).
Proof.
  intros P.
  destruct (parse_some _ _ P)
    as (p0 & p1 & p2 & p3 & p4 & p5 & p6 & p7 & iv & ifv & ov & oc & fr
        & bv & tp & fl & _ & Sp & E0 & E1 & E2 & E3 & E4 & E5 & E6 & E7 & ->).
  exists iv, ifv, ov, oc, fr, bv, tp. unfold tokens. rewrite Sp.
  cbn [nth]. repeat (split; [assumption|]).
  destruct (status_flags_shape _ _ E7)
    as [-> | (c0 & c1 & c2 & c3 & c4 & c5 & c6 & c7 & ->)]; [left|right].
  - reflexivity.
  - exists c0, c1, c2, c3, c4, c5, c6, c7. reflexivity.
Qed.

(** X5.  A snapshot has the nine measurement keys in the order of the
    source, followed by either nothing or the eight flag keys in the order
    of [STATUS_FLAGS]; no key occurs twice, so a flag never replaces a
    measurement. The load percentage, the charge and the flags are integers,
    every other value is a float. *)
Theorem snapshot_keys_and_types (response : string) (snap : dict) :
  parse_ups_response response = Ok (Some snap) ->
  (map fst snap = measurement_keys
   \/ map fst snap = (measurement_keys ++ map fst STATUS_FLAGS)%list)
  /\ NoDup (map fst snap)
  /\ forall k v, In (k, v) snap ->
       if existsb (String.eqb k)
            ("output_current_percent" :: "battery_charge"
               :: map fst STATUS_FLAGS)
       then is_int v = true else is_float v = true.
Proof.
  intros P.
  destruct (snapshot_cases _ _ P)
    as (iv & ifv & ov & oc & fr & bv & tp & _ & _ & _ & _ & _ & _ & _
        & [-> | (c0 & c1 & c2 & c3 & c4 & c5 & c6 & c7 & ->)]).
  - split; [left; reflexivity|]. split.
    + change (NoDup measurement_keys).
      unfold measurement_keys.
      repeat (constructor; [cbn [In]; intuition discriminate|]).
      constructor.
    + intros k v I.
      repeat (destruct I as [I|I]; [injection I as <- <-; reflexivity|]).
      destruct I.
  - split; [right; reflexivity|]. split.
    + change (NoDup (measurement_keys ++ map fst STATUS_FLAGS)%list).
      unfold measurement_keys, STATUS_FLAGS. cbn [map fst app].
      repeat (constructor; [cbn [In]; intuition discriminate|]).
      constructor.
    + intros k v I.
      repeat (destruct I as [I|I]; [injection I as <- <-; reflexivity|]).
      destruct I.
Qed.

(** X5, for the snapshot of the sample reply. *)
Lemma snapshot_keys_and_types_sample :
  (map fst sample_snapshot = measurement_keys
   \/ map fst sample_snapshot
      = (measurement_keys ++ map fst STATUS_FLAGS)%list)
  /\ NoDup (map fst sample_snapshot)
  /\ forall k v, In (k, v) sample_snapshot ->
       if existsb (String.eqb k)
            ("output_current_percent" :: "battery_charge"
               :: map fst STATUS_FLAGS)
       then is_int v = true else is_float v = true.
Proof.
  apply (snapshot_keys_and_types sample_reply sample_snapshot).
  exact sample_parses.
Defined.

(** X6.  The measurements of a snapshot are the numbers the tokens denote,
    by position: input voltage, input fault voltage, output voltage, load
    percentage (an integer), input frequency, battery voltage and
    temperature. *)
Theorem snapshot_fields_by_position (response : string) (snap : dict) :
  parse_ups_response response = Ok (Some snap) ->
  let token i := nth i (tokens response) "" in
  let number name := match dict_get name snap with
                     | Some (PFloat f) => Ok f
                     | _ => Raise KeyError
                     end in
  py_float (token 0%nat) = number "input_voltage"
  /\ py_float (token 1%nat) = number "input_fault_voltage"
  /\ py_float (token 2%nat) = number "output_voltage"
  /\ rbind (py_int (token 3%nat)) (fun z => Ok (PInt z))
     = match dict_get "output_current_percent" snap with
       | Some v => Ok v
       | None => Raise KeyError
       end
  /\ py_float (token 4%nat) = number "input_frequency"
  /\ py_float (token 5%nat) = number "battery_voltage"
  /\ py_float (token 6%nat) = number "temperature".
Proof.
  intros P token number. subst token number. cbv beta.
  destruct (snapshot_cases _ _ P)
    as (iv & ifv & ov & oc & fr & bv & tp & E0 & E1 & E2 & E3 & E4 & E5
        & E6 & [-> | (c0 & c1 & c2 & c3 & c4 & c5 & c6 & c7 & ->)]);
    rewrite E0, E1, E2, E3, E4, E5, E6; repeat split; reflexivity.
Qed.

(** X6, for the sample reply: its sixth token [2.05] is the battery voltage
    of its snapshot. *)
Lemma snapshot_fields_by_position_sample :
  py_float (nth 5 (tokens sample_reply) "")
  = match dict_get "battery_voltage" sample_snapshot with
    | Some (PFloat f) => Ok f
    | _ => Raise KeyError
    end.
Proof.
  apply (snapshot_fields_by_position sample_reply sample_snapshot).
  exact sample_parses.
Defined.

Lemma charge_of_unordered :
  charge_of F64.NaN = 100 /\ charge_of (F64.Inf false) = 100
  /\ charge_of (F64.Inf true) = 0.
Proof. repeat split; vm_compute; reflexivity. Qed.

(** X7.  A battery voltage that is not a finite number is accepted: NaN and
    plus infinity give a charge of 100, minus infinity a charge of 0, and
    the aggregate voltage is the NaN or the infinity itself. *)
Theorem unbounded_voltage_charge (response : string) (snap : dict) :
  parse_ups_response response = Ok (Some snap) ->
  (dict_get "battery_voltage" snap = Some (PFloat F64.NaN) ->
   dict_get "battery_charge" snap = Some (PInt 100)
   /\ dict_get "battery_voltage_all" snap = Some (PFloat F64.NaN))
  /\ (dict_get "battery_voltage" snap = Some (PFloat (F64.Inf false)) ->
      dict_get "battery_charge" snap = Some (PInt 100)
      /\ dict_get "battery_voltage_all" snap = Some (PFloat (F64.Inf false)))
  /\ (dict_get "battery_voltage" snap = Some (PFloat (F64.Inf true)) ->
      dict_get "battery_charge" snap = Some (PInt 0)
      /\ dict_get "battery_voltage_all" snap = Some (PFloat (F64.Inf true))).
Proof.
  intros P.
  destruct (snapshot_cases _ _ P)
    as (iv & ifv & ov & oc & fr & bv & tp & _ & _ & _ & _ & _ & _ & _ & S).
  assert (F : dict_get "battery_voltage" snap = Some (PFloat bv)
              /\ dict_get "battery_voltage_all" snap
                 = Some (PFloat (F64.round2 (F64.mul bv series_multiplier)))
              /\ dict_get "battery_charge" snap = Some (PInt (charge_of bv))).
  { destruct S as [-> | (c0 & c1 & c2 & c3 & c4 & c5 & c6 & c7 & ->)];
      repeat split; reflexivity. }
  destruct F as (F1 & F2 & F3). rewrite F1, F2, F3.
  destruct charge_of_unordered as (N & I & J).
  split; [|split]; intros [= ->]; rewrite ?N, ?I, ?J; split; reflexivity.
Qed.

(** X7, for a reply whose battery voltage is [nan]. *)
Lemma unbounded_voltage_charge_sample :
  dict_get "battery_charge" nan_snapshot = Some (PInt 100)
  /\ dict_get "battery_voltage_all" nan_snapshot = Some (PFloat F64.NaN).
Proof.
  apply (unbounded_voltage_charge nan_reply nan_snapshot);
    [exact nan_parses | reflexivity].
Defined.

(** X8.  Every item of a snapshot the parser returns passes the forwarder's
    type filter: the lines written for it are one per key, in the snapshot's
    order. *)
Theorem snapshot_items_all_forwarded
  (response hostname : string) (snap : dict) :
  parse_ups_response response = Ok (Some snap) ->
  item_lines hostname snap = map (fun kv => (hostname, fst kv, snd kv)) snap.
Proof.
  intros P.
  destruct (snapshot_cases _ _ P)
    as (iv & ifv & ov & oc & fr & bv & tp & _ & _ & _ & _ & _ & _ & _
        & [-> | (c0 & c1 & c2 & c3 & c4 & c5 & c6 & c7 & ->)]);
    reflexivity.
Qed.

(** X8, for the sample snapshot: seventeen lines. *)
Lemma snapshot_items_all_forwarded_sample :
  List.length (item_lines "UPSMonitor" sample_snapshot) = 17%nat.
Proof.
  rewrite (snapshot_items_all_forwarded sample_reply "UPSMonitor"
             sample_snapshot sample_parses).
  reflexivity.
Defined.

End ReplyLine.

(** ** Parts of the world a command leaves alone *)
Section Frame.

Context {B : Type} (part : world -> B).

Lemma keeps_ret {A} (a : A) : keeps part (ret a).
Proof. intros w. reflexivity. Qed.

Lemma keeps_raise {A} (e : exn) : keeps part (@raise A e).
Proof. intros w. reflexivity. Qed.

Lemma keeps_lift {A} (r : res A) : keeps part (lift r).
Proof. intros w. reflexivity. Qed.

Lemma keeps_bind {A C} (m : M A) (k : A -> M C) :
  keeps part m -> (forall a, keeps part (k a)) -> keeps part (bind m k).
Proof.
  intros Hm Hk w. unfold bind. specialize (Hm w).
  destruct (m w) as [[a|e] w1]; cbn [snd] in *; [|exact Hm].
  rewrite Hk. exact Hm.
Qed.

Lemma keeps_try {A} (body handler : M A) :
  keeps part body -> keeps part handler ->
  keeps part (try_except body handler).
Proof.
  intros Hb Hh w. unfold try_except. specialize (Hb w).
  destruct (body w) as [[a|e] w1]; cbn [snd] in *; [exact Hb|].
  rewrite Hh. exact Hb.
Qed.

Lemma keeps_if {A} (b : bool) (m1 m2 : M A) :
  keeps part m1 -> keeps part m2 -> keeps part (if b then m1 else m2).
Proof. destruct b; auto. Qed.

End Frame.

(** The data acquisition changes three things: the count of clock
    readings, the cache file and the count of device queries.  A part of
    the world that does not depend on them is kept by each of its
    commands. *)
Section Acquisition.

Context {B : Type} (part : world -> B).
Hypothesis part_ticks : forall n w, part (set_ticks n w) = part w.
Hypothesis part_cache : forall f w, part (set_cache_file f w) = part w.
Hypothesis part_queries :
  forall n w, part (set_serial_queries n w) = part w.

Lemma keeps_read : keeps part read_from_cache.
Proof.
  intros w. destruct (cache_file w) as [| | |doc] eqn:C.
  - rewrite read_other by auto. reflexivity.
  - rewrite read_other by auto. reflexivity.
  - rewrite read_other by auto. reflexivity.
  - rewrite (read_json w doc C). apply part_ticks.
Qed.

Lemma keeps_write values : keeps part (write_to_cache values).
Proof.
  intros w. rewrite write_to_cache_eq.
  destruct (cache_writable w); [|destruct (cache_openable w)];
    [| |reflexivity]; cbn [snd]; rewrite part_cache; apply part_ticks.
Qed.

Lemma keeps_query : keeps part query_ups.
Proof. intros w. rewrite query_ups_eq. apply part_queries. Qed.

Lemma keeps_get : keeps part get_ups_data.
Proof.
  unfold get_ups_data.
  apply keeps_bind; [exact keeps_read|]. intros cached.
  apply keeps_if; [apply keeps_ret|].
  apply keeps_bind; [exact keeps_query|]. intros fresh.
  apply keeps_if; [|apply keeps_ret].
  apply keeps_bind; [apply keeps_write|]. intros _. apply keeps_ret.
Qed.

End Acquisition.

(** The forwarder leaves the acquisition side alone, and the acquisition
    the forwarding side and the output. *)
Section Sides.

Lemma forwarding_print l : keeps forwarding_side (print l).
Proof. intros w. reflexivity. Qed.

Lemma acquisition_print l : keeps acquisition_side (print l).
Proof. intros w. reflexivity. Qed.

Lemma forwarding_get : keeps forwarding_side get_ups_data.
Proof. apply keeps_get; reflexivity. Qed.

Lemma output_get : keeps stdout get_ups_data.
Proof. apply keeps_get; reflexivity. Qed.

Lemma acquisition_write_temp data hostname :
  keeps acquisition_side (write_temp data hostname).
Proof.
  intros w. unfold write_temp.
  destruct (tmp_creatable w); [|reflexivity]. cbn [negb].
  destruct data; try reflexivity.
  destruct (item_lines hostname d) as [|l ls]; [reflexivity|].
  destruct (tmp_writable w); [reflexivity|].
  destruct ((WRITE_BUFFER <=? text_bytes (l :: ls)) && tmp_spills w);
    reflexivity.
Qed.

Lemma acquisition_report zabbix_server path :
  keeps acquisition_side (report_sender zabbix_server path).
Proof.
  unfold report_sender. apply keeps_bind.
  - intros w. unfold run_sender. destruct (sender w); reflexivity.
  - intros [[code out] err].
    apply keeps_bind; [apply keeps_lift|]. intros o.
    apply keeps_bind; [apply acquisition_print|]. intros _.
    apply keeps_if; [|apply keeps_ret].
    apply keeps_bind; [apply keeps_lift|]. intros e.
    apply acquisition_print.
Qed.

Lemma acquisition_cleanup path : keeps acquisition_side (send_cleanup path).
Proof.
  intros w. unfold send_cleanup. destruct path as [p|]; [|reflexivity].
  destruct (file_exists p (tmp_files w)); reflexivity.
Qed.

Lemma acquisition_send data hostname zabbix_server :
  keeps acquisition_side (send_all_to_zabbix data hostname zabbix_server).
Proof.
  intros w. unfold send_all_to_zabbix.
  set (start :=
         match hostname with
         | Some h =>
             if String.eqb h "" then
               (local_hostname w, snd (print (Text "Hostname Incorrect") w))
             else (h, w)
         | None =>
             (local_hostname w, snd (print (Text "Hostname Incorrect") w))
         end).
  assert (S0 : acquisition_side (snd start) = acquisition_side w).
  { unfold start. destruct hostname as [h|];
      [destruct (String.eqb h "")|]; reflexivity. }
  destruct start as [h w0]. cbn [snd] in S0. rewrite <- S0. clear S0.
  unfold send_attempt.
  pose proof (acquisition_write_temp data h w0) as E1.
  destruct (write_temp data h w0) as [[path|e] w1]; cbn [snd] in E1.
  - pose proof (close_temp_frame data h w1) as C.
    destruct (close_temp data h w1) as [[[]|e] w1']; cbn [snd] in C;
      subst w1'.
    + pose proof (acquisition_report zabbix_server path w1) as E2.
      destruct (report_sender zabbix_server path w1) as [r w2].
      cbn [snd] in E2. rewrite <- E1, <- E2.
      destruct r as [[]|e]; [|destruct (is_Exception e)];
        cbn [print];
        match goal with
        | |- context [send_cleanup ?p ?w'] =>
            pose proof (acquisition_cleanup p w') as E3;
            destruct (send_cleanup p w') as [[[]|e3] w3]
        end; cbn [snd] in *; rewrite E3; reflexivity.
    + rewrite <- E1.
      destruct (is_Exception e); cbn [print];
        match goal with
        | |- context [send_cleanup ?p ?w'] =>
            pose proof (acquisition_cleanup p w') as E3;
            destruct (send_cleanup p w') as [[[]|e3] w3]
        end; cbn [snd] in *; rewrite E3; reflexivity.
  - rewrite <- E1.
    destruct (is_Exception e); cbn [print send_cleanup]; reflexivity.
Qed.

Lemma side_parts w w' :
  forwarding_side w' = forwarding_side w ->
  tmp_creatable w' = tmp_creatable w /\ tmp_writable w' = tmp_writable w
  /\ tmp_next w' = tmp_next w /\ tmp_files w' = tmp_files w
  /\ sender w' = sender w /\ sender_runs w' = sender_runs w
  /\ local_hostname w' = local_hostname w.
Proof.
  unfold forwarding_side. intros [= -> -> -> -> -> -> ->]. repeat split.
Qed.

End Sides.

(** ** The age of a cache entry *)
Section CacheAge.

Lemma ttl_facts :
  clip ttl_units 1 = ttl_units
  /\ clip below_ttl_units 1 = below_ttl_units
  /\ 0 < below_ttl_units < ttl_units /\ ttl_units < F64.top.
Proof. vm_compute. repeat split; reflexivity. Qed.

Lemma fresh_key x :
  F64.is_nan x = false ->
  num_lt (NFloat x) (NInt CACHE_TTL) = (F64.key x <? ttl_units).
Proof.
  intros N. destruct ttl_facts as (_ & _ & _ & T). pose proof top_pos as P.
  pose proof one_pos as O.
  unfold ttl_units, CACHE_TTL in *.
  destruct x as [s n|s|]; [| |discriminate N];
    cbn [num_lt F64.cmp_int F64.key].
  - destruct (Z.compare_spec (F64.sval s n) (120 * F64.one));
      destruct (Z.ltb_spec (F64.sval s n) (120 * F64.one));
      reflexivity || lia.
  - destruct s.
    + destruct (Z.ltb_spec (- F64.top) (120 * F64.one)); reflexivity || lia.
    + destruct (Z.ltb_spec F64.top (120 * F64.one)); reflexivity || lia.
Qed.

Lemma sub_finite_number s1 n1 s2 n2 :
  F64.is_nan (F64.sub (F64.Finite s1 n1) (F64.Finite s2 n2)) = false.
Proof.
  unfold F64.sub, F64.opp, F64.add.
  destruct (_ =? 0); [reflexivity|]. unfold F64.mk.
  destruct (_ <? F64.top); reflexivity.
Qed.

Lemma fresh_exact s1 n1 s2 n2 :
  let age := F64.sval s1 n1 - F64.sval s2 n2 in
  (age <= below_ttl_units ->
   fresh_at (F64.Finite s1 n1) (F64.Finite s2 n2) = true)
  /\ (ttl_units <= age ->
      fresh_at (F64.Finite s1 n1) (F64.Finite s2 n2) = false).
Proof.
  intros age. unfold fresh_at.
  rewrite fresh_key by apply sub_finite_number.
  rewrite key_sub_finite. fold age.
  destruct ttl_facts as (E1 & E2 & B & T).
  pose proof (clip_range (Z.abs age) 1 ltac:(lia) ltac:(lia)) as R.
  unfold skey. split; intros H.
  - apply Z.ltb_lt. destruct (Z.ltb_spec age 0); [lia|].
    assert (M : clip (Z.abs age) 1 <= clip below_ttl_units 1)
      by (apply clip_mono; lia).
    lia.
  - apply Z.ltb_ge. destruct (Z.ltb_spec age 0); [lia|].
    assert (M : clip ttl_units 1 <= clip (Z.abs age) 1)
      by (apply clip_mono; lia).
    lia.
Qed.

(** X9.  For a cache entry with a finite timestamp read at a finite clock
    value, in exact arithmetic on the two floats: the stored values are
    returned when the age is at most [120 - 2^-46] seconds, which includes
    every timestamp that lies in the future, and [None] is returned when the
    age is 120 seconds or more. *)
Theorem cache_entry_age_bounds
  (w : world) (d : dict) (v : pyval) (ts : F64.t) :
  cache_file w = Json (PDict d) ->
  dict_get "timestamp" d = Some (PFloat ts) ->
  dict_get "values" d = Some v ->
  finite ts = true -> finite (clock w (ticks w)) = true ->
  let age := F64.key (clock w (ticks w)) - F64.key ts in
  (age <= below_ttl_units -> fst (read_from_cache w) = Ok v)
  /\ (ttl_units <= age -> fst (read_from_cache w) = Ok PNone).
Proof.
  intros C Ts V F1 F2 age. subst age. rewrite (read_json w _ C). cbn [fst].
  unfold cached_value. cbn [stored_timestamp stored_values].
  rewrite Ts, V.
  destruct ts as [s2 n2| |]; try discriminate F1.
  destruct (clock w (ticks w)) as [s1 n1| |]; try discriminate F2.
  cbn [F64.key].
  destruct (fresh_exact s1 n1 s2 n2) as [A B]. cbv zeta in A, B.
  split; intros H; [rewrite A | rewrite B]; auto.
Qed.

(** X9, in the sample world: a read 60 seconds after the write returns the
    snapshot, a read exactly 120 seconds after it returns [None]. *)
Lemma cache_entry_age_bounds_sample :
  let entry := cache_entry (sample_clock 0) (PDict sample_snapshot) in
  fst (read_from_cache (set_cache_file entry (set_ticks 1 sample_world)))
  = Ok (PDict sample_snapshot)
  /\ fst (read_from_cache (set_cache_file entry (set_ticks 2 sample_world)))
     = Ok PNone.
Proof.
  split.
  - apply (proj1 (cache_entry_age_bounds
                    (set_cache_file
                       (cache_entry (sample_clock 0) (PDict sample_snapshot))
                       (set_ticks 1 sample_world))
                    [("timestamp", PFloat (sample_clock 0));
                     ("values", PDict sample_snapshot)]
                    (PDict sample_snapshot) (sample_clock 0)
                    eq_refl eq_refl eq_refl
                    ltac:(vm_compute; reflexivity)
                    ltac:(vm_compute; reflexivity))).
    vm_compute. discriminate.
  - apply (proj2 (cache_entry_age_bounds
                    (set_cache_file
                       (cache_entry (sample_clock 0) (PDict sample_snapshot))
                       (set_ticks 2 sample_world))
                    [("timestamp", PFloat (sample_clock 0));
                     ("values", PDict sample_snapshot)]
                    (PDict sample_snapshot) (sample_clock 0)
                    eq_refl eq_refl eq_refl
                    ltac:(vm_compute; reflexivity)
                    ltac:(vm_compute; reflexivity))).
    vm_compute. discriminate.
Defined.

End CacheAge.

(** ** The commands *)
Section Commands.

Lemma read_eq w : read_from_cache w = (Ok (cached_answer w), after_read w).
Proof.
  unfold cached_answer, after_read.
  destruct (cache_file w) as [| | |doc] eqn:C.
  - apply read_other. auto.
  - apply read_other. auto.
  - apply read_other. auto.
  - apply read_json, C.
Qed.

Lemma get_eq w :
  get_ups_data w
  = if truthy (cached_answer w) then (Ok (cached_answer w), after_read w)
    else
      (Ok (device_answer w),
       if truthy (device_answer w)
       then snd (write_to_cache (device_answer w)
                   (set_serial_queries (S (serial_queries w)) (after_read w)))
       else set_serial_queries (S (serial_queries w)) (after_read w)).
Proof.
  unfold get_ups_data, bind. rewrite read_eq.
  destruct (truthy (cached_answer w)); [reflexivity|].
  rewrite query_ups_eq.
  assert (D : device_answer (after_read w) = device_answer w).
  { unfold after_read. destruct (cache_file w); reflexivity. }
  assert (Q : serial_queries (after_read w) = serial_queries w).
  { unfold after_read. destruct (cache_file w); reflexivity. }
  rewrite D, Q.
  destruct (device_answer_shape w) as [N | (d & E & T)].
  - rewrite N. reflexivity.
  - rewrite E, T, write_to_cache_eq. reflexivity.
Qed.

Lemma get_obtained w : fst (get_ups_data w) = Ok (obtained w).
Proof.
  rewrite get_eq. unfold obtained.
  destruct (truthy (cached_answer w)); reflexivity.
Qed.

Lemma sample_obtained :
  fst (get_ups_data sample_world) = Ok (PDict sample_snapshot).
Proof.
  rewrite get_obtained. unfold obtained.
  change (cached_answer sample_world) with PNone. cbn [truthy].
  rewrite sample_answer. reflexivity.
Qed.

Lemma polls_eq argv w :
  polls argv w
  = match argv with
    | [_; key] =>
        String.eqb key "update_cache" || negb (truthy (cached_answer w))
    | _ => false
    end.
Proof. unfold polls. rewrite read_eq. reflexivity. Qed.

Lemma main_dispatch prog key w :
  main [prog; key] w
  = (if String.eqb key "update_cache" then
       fresh <- query_ups ;;
       (if truthy fresh
        then write_to_cache fresh ;; print (Text "OK")
        else print (Text "FAILED")) ;;
       raise (SystemExit 0)
     else if String.eqb key "send_to_zabbix" then
       data <- get_ups_data ;;
       (if truthy data
        then send_all_to_zabbix data (Some ZABBIX_HOSTNAME) ZABBIX_SERVER
        else print (Text "No UPS data to send.")) ;;
       raise (SystemExit 0)
     else
       data <- get_ups_data ;;
       found <- (if truthy data then lift (py_contains key data)
                 else ret false) ;;
       if found
       then v <- lift (py_getitem data key) ;; print (Value v)
       else print (Text "Error getting Data"))
      (snd (print (Text key) w)).
Proof. reflexivity. Qed.

Lemma main_usage_eq argv w :
  List.length argv <> 2%nat ->
  main argv w
  = (Raise (SystemExit 1),
     set_stdout (stdout w ++ [Text "Usage: ups_cache.py <key>"]) w).
Proof.
  intros L. unfold main.
  assert (E : negb (Z.of_nat (List.length argv) =? 2) = true).
  { apply negb_true_iff, Z.eqb_neq. lia. }
  rewrite E. reflexivity.
Qed.

Lemma argv_shape (argv : list string) :
  List.length argv <> 2%nat \/ exists prog key, argv = [prog; key].
Proof.
  destruct argv as [|a [|b [|c r]]]; cbn [List.length]; try (left; lia).
  right. eauto.
Qed.

(** X10.  With any number of arguments other than one, the program prints
    the usage line and exits with status 1; it reads no clock, cache or
    device, and makes no temporary file. *)
Theorem main_usage (argv : list string) (w : world) :
  List.length argv <> 2%nat ->
  fst (main argv w) = Raise (SystemExit 1)
  /\ stdout (snd (main argv w))
     = (stdout w ++ [Text "Usage: ups_cache.py <key>"])%list
  /\ acquisition_side (snd (main argv w)) = acquisition_side w
  /\ forwarding_side (snd (main argv w)) = forwarding_side w.
Proof.
  intros L. rewrite (main_usage_eq argv w L). repeat split.
Qed.

(** X10, with no argument at all. *)
Lemma main_usage_sample :
  fst (main ["ups_cache.py"] sample_world) = Raise (SystemExit 1)
  /\ stdout (snd (main ["ups_cache.py"] sample_world))
     = [Text "Usage: ups_cache.py <key>"]
  /\ acquisition_side (snd (main ["ups_cache.py"] sample_world))
     = acquisition_side sample_world
  /\ forwarding_side (snd (main ["ups_cache.py"] sample_world))
     = forwarding_side sample_world.
Proof.
  apply (main_usage ["ups_cache.py"] sample_world). discriminate.
Defined.

Lemma metric_run prog key w :
  key <> "update_cache" -> key <> "send_to_zabbix" ->
  truthy (obtained w) = false \/ (exists d, obtained w = PDict d) ->
  main [prog; key] w
  = (Ok tt,
     snd (print (metric_line key (obtained w))
            (snd (get_ups_data (snd (print (Text key) w)))))).
Proof.
  intros K1 K2 D. rewrite main_dispatch.
  apply String.eqb_neq in K1, K2. rewrite K1, K2.
  set (w0 := snd (print (Text key) w)).
  pose proof (get_obtained w0) as G.
  change (obtained w0) with (obtained w) in G.
  unfold bind, lift, ret.
  destruct (get_ups_data w0) as [r w1]. cbn [fst snd] in G. subst r.
  destruct (truthy (obtained w)) eqn:T.
  - destruct D as [D | [d D]]; [discriminate D|]. rewrite D.
    cbn [py_contains py_getitem metric_line].
    destruct (dict_get key d); reflexivity.
  - destruct (obtained w) as [| | | | | |d]; try reflexivity.
    destruct d; [reflexivity | discriminate T].
Qed.

(** X11.  A metric command prints the key and then one line: the value
    stored under the key when the obtained data is a dict that has it, and
    [Error getting Data] when the dict lacks the key or nothing was
    obtained. It returns normally. *)
Theorem main_metric_key (prog key : string) (data : pyval) (w : world) :
  key <> "update_cache" -> key <> "send_to_zabbix" ->
  fst (get_ups_data w) = Ok data ->
  truthy data = false \/ (exists d, data = PDict d) ->
  fst (main [prog; key] w) = Ok tt
  /\ stdout (snd (main [prog; key] w))
     = (stdout w ++ [Text key; metric_line key data])%list.
Proof.
  intros K1 K2 O D. rewrite get_obtained in O. injection O as <-.
  pose proof (output_get (snd (print (Text key) w))) as GO.
  cbn [snd print stdout set_stdout] in GO.
  rewrite (metric_run prog key w K1 K2 D).
  cbn [fst snd print stdout set_stdout].
  rewrite GO, <- app_assoc. split; reflexivity.
Qed.

(** X11, in the sample world: the charge of the sample reply is 77. *)
Lemma main_metric_key_sample :
  fst (main ["ups_cache.py"; "battery_charge"] sample_world) = Ok tt
  /\ stdout (snd (main ["ups_cache.py"; "battery_charge"] sample_world))
     = [Text "battery_charge"; Value (PInt 77)].
Proof.
  apply (main_metric_key "ups_cache.py" "battery_charge"
           (PDict sample_snapshot) sample_world);
    [discriminate | discriminate | exact sample_obtained | eauto].
Defined.

(** X12.  When the cache serves a value that counts as true and is not a
    dict (a number, a string or a list found in the file), a metric command
    never prints it: either it raises [TypeError] after printing the key, or
    it prints [Error getting Data]. *)
Theorem main_metric_foreign_cache
  (prog key : string) (data : pyval) (w : world) :
  key <> "update_cache" -> key <> "send_to_zabbix" ->
  fst (get_ups_data w) = Ok data ->
  truthy data = true -> (forall d, data <> PDict d) ->
  (fst (main [prog; key] w) = Raise TypeError
   /\ stdout (snd (main [prog; key] w)) = (stdout w ++ [Text key])%list)
  \/ (fst (main [prog; key] w) = Ok tt
      /\ stdout (snd (main [prog; key] w))
         = (stdout w ++ [Text key; Text "Error getting Data"])%list).
Proof.
  intros K1 K2 O T N. rewrite get_obtained in O. injection O as <-.
  rewrite main_dispatch.
  apply String.eqb_neq in K1, K2. rewrite K1, K2.
  set (w0 := snd (print (Text key) w)).
  assert (S0 : stdout w0 = (stdout w ++ [Text key])%list) by reflexivity.
  pose proof (get_obtained w0) as G. pose proof (output_get w0) as GO.
  change (obtained w0) with (obtained w) in G.
  unfold bind, lift, ret, print.
  destruct (get_ups_data w0) as [r w1]. cbn [fst snd] in G, GO.
  subst r. rewrite T.
  destruct (obtained w) as [|b|z|f|s|l|d]; cbn [py_contains];
    try (left; cbn [fst snd]; rewrite GO, S0; split; reflexivity).
  - destruct (Str.contains s key); cbn [py_getitem fst snd stdout set_stdout];
      rewrite GO, S0, <- ?app_assoc; [left | right]; split; reflexivity.
  - destruct (existsb _ l); cbn [py_getitem fst snd stdout set_stdout];
      rewrite GO, S0, <- ?app_assoc; [left | right]; split; reflexivity.
  - contradiction (N d). reflexivity.
Qed.

(** X12, for a cache file whose values member is the number 5. *)
Lemma main_metric_foreign_cache_sample :
  let w := set_cache_file (cache_entry (sample_clock 0) (PInt 5))
             sample_world in
  fst (main ["ups_cache.py"; "battery_charge"] w) = Raise TypeError
  /\ stdout (snd (main ["ups_cache.py"; "battery_charge"] w))
     = [Text "battery_charge"].
Proof.
  destruct (main_metric_foreign_cache "ups_cache.py" "battery_charge"
              (PInt 5)
              (set_cache_file (cache_entry (sample_clock 0) (PInt 5))
                 sample_world))
    as [H | [H _]].
  - discriminate.
  - discriminate.
  - vm_compute. reflexivity.
  - reflexivity.
  - intros d. discriminate.
  - exact H.
  - exfalso. revert H. vm_compute. discriminate.
Defined.

Lemma after_read_cases w :
  after_read w = w \/ after_read w = set_ticks (S (ticks w)) w.
Proof. unfold after_read. destruct (cache_file w); auto. Qed.

Lemma queries_get w :
  serial_queries (snd (get_ups_data w))
  = if truthy (cached_answer w) then serial_queries w
    else S (serial_queries w).
Proof.
  assert (W : forall v, keeps serial_queries (write_to_cache v))
    by (intros v; apply keeps_write; reflexivity).
  rewrite get_eq.
  destruct (truthy (cached_answer w)); cbn [snd].
  - destruct (after_read_cases w) as [-> | ->]; reflexivity.
  - destruct (truthy (device_answer w)); rewrite ?W;
      destruct (after_read_cases w) as [-> | ->]; reflexivity.
Qed.

Lemma queries_side w w' :
  acquisition_side w' = acquisition_side w ->
  serial_queries w' = serial_queries w /\ cache_file w' = cache_file w.
Proof. unfold acquisition_side. intros [= _ _ C _ _ Q]. auto. Qed.

(** X13.  One run queries the device at most once: exactly once for
    [update_cache], and for the other commands when the cache gives nothing
    that counts as true; not at all when the cache answers or the arguments
    are wrong. *)
Theorem main_device_queries (argv : list string) (w : world) :
  serial_queries (snd (main argv w))
  = if polls argv w then S (serial_queries w) else serial_queries w.
Proof.
  rewrite polls_eq.
  destruct (argv_shape argv) as [L | (prog & key & ->)].
  - rewrite (main_usage_eq argv w L).
    destruct argv as [|a [|b [|c r]]]; try reflexivity.
    contradiction L. reflexivity.
  - rewrite main_dispatch. set (w0 := snd (print (Text key) w)).
    assert (Q0 : serial_queries w0 = serial_queries w) by reflexivity.
    assert (C0 : cached_answer w0 = cached_answer w) by reflexivity.
    destruct (String.eqb key "update_cache"); cbn [orb];
      [|destruct (String.eqb key "send_to_zabbix")].
    + unfold bind. rewrite query_ups_eq.
      assert (W : forall v, keeps serial_queries (write_to_cache v))
        by (intros v; apply keeps_write; reflexivity).
      destruct (truthy (device_answer w0)); [|exact (f_equal S Q0)].
      pose proof (W (device_answer w0)
                    (set_serial_queries (S (serial_queries w0)) w0)) as K.
      destruct (write_to_cache (device_answer w0) _) as [[[]|e] w1];
        cbn [snd print raise serial_queries set_stdout] in *;
        rewrite K; exact (f_equal S Q0).
    + unfold bind. pose proof (queries_get w0) as G.
      pose proof (get_obtained w0) as O.
      destruct (get_ups_data w0) as [r w1]. cbn [fst snd] in G, O.
      subst r. rewrite Q0, C0 in G.
      assert (X : serial_queries w1
                  = if negb (truthy (cached_answer w))
                    then S (serial_queries w) else serial_queries w)
        by (destruct (truthy (cached_answer w)); exact G).
      destruct (truthy (obtained w0)).
      * pose proof (acquisition_send (obtained w0) (Some ZABBIX_HOSTNAME)
                      ZABBIX_SERVER w1) as A.
        apply queries_side in A. destruct A as [A _].
        destruct (send_all_to_zabbix _ _ _ w1) as [[[]|e] w2];
          cbn [fst snd raise] in *; rewrite A; exact X.
      * exact X.
    + unfold bind. pose proof (queries_get w0) as G.
      pose proof (get_obtained w0) as O.
      destruct (get_ups_data w0) as [r w1]. cbn [fst snd] in G, O.
      subst r. rewrite Q0, C0 in G.
      assert (X : serial_queries w1
                  = if negb (truthy (cached_answer w))
                    then S (serial_queries w) else serial_queries w)
        by (destruct (truthy (cached_answer w)); exact G).
      destruct (truthy (obtained w0)); unfold lift, ret, print;
        [destruct (py_contains key (obtained w0)) as [[|]|e];
         [destruct (py_getitem (obtained w0) key)| |]|];
        exact X.
Qed.

Lemma cache_write values w :
  cache_file (snd (write_to_cache values w))
  = written (clock w (ticks w)) values w.
Proof.
  rewrite write_to_cache_eq. unfold written.
  destruct (cache_writable w); [|destruct (cache_openable w)]; reflexivity.
Qed.

Lemma cache_get w :
  cache_file (snd (get_ups_data w))
  = if negb (truthy (cached_answer w)) && truthy (device_answer w)
    then written (clock w (ticks (after_read w))) (device_answer w) w
    else cache_file w.
Proof.
  rewrite get_eq.
  destruct (truthy (cached_answer w)); cbn [negb andb snd].
  - destruct (after_read_cases w) as [-> | ->]; reflexivity.
  - destruct (truthy (device_answer w)); cbn [andb];
      rewrite ?cache_write;
      destruct (after_read_cases w) as [-> | ->]; reflexivity.
Qed.

Lemma cache_side w w' :
  acquisition_side w' = acquisition_side w -> cache_file w' = cache_file w.
Proof. unfold acquisition_side. intros [= _ _ C _ _ _]. exact C. Qed.

Lemma cache_main argv w :
  cache_file (snd (main argv w))
  = if polls argv w && truthy (device_answer w)
    then written
           (clock w (match argv with
                     | [_; key] =>
                         if String.eqb key "update_cache" then ticks w
                         else ticks (after_read w)
                     | _ => ticks w
                     end))
           (device_answer w) w
    else cache_file w.
Proof.
  rewrite polls_eq.
  destruct (argv_shape argv) as [L | (prog & key & ->)].
  - rewrite (main_usage_eq argv w L).
    destruct argv as [|a [|b [|c r]]]; try reflexivity.
    contradiction L. reflexivity.
  - rewrite main_dispatch.
    set (w0 := snd (print (Text key) w)).
    assert (T0 : ticks (after_read w0) = ticks (after_read w)).
    { unfold after_read, w0. cbn [snd print cache_file set_stdout].
      destruct (cache_file w); reflexivity. }
    destruct (String.eqb key "update_cache"); cbn [orb];
      [|destruct (String.eqb key "send_to_zabbix")].
    + unfold bind. rewrite query_ups_eq.
      change (device_answer w0) with (device_answer w).
      destruct (truthy (device_answer w)); cbn [andb];
        [|reflexivity].
      pose proof (cache_write (device_answer w)
                    (set_serial_queries (S (serial_queries w0)) w0)) as E.
      destruct (write_to_cache (device_answer w) _) as [[[]|e] w1];
        cbn [snd print raise cache_file set_stdout] in *; exact E.
    + unfold bind. pose proof (cache_get w0) as G.
      pose proof (get_obtained w0) as O.
      destruct (get_ups_data w0) as [r w1]. cbn [fst snd] in G, O.
      subst r. rewrite T0 in G.
      destruct (truthy (obtained w0)).
      * pose proof (acquisition_send (obtained w0) (Some ZABBIX_HOSTNAME)
                      ZABBIX_SERVER w1) as A.
        apply cache_side in A.
        destruct (send_all_to_zabbix _ _ _ w1) as [[[]|e] w2];
          cbn [fst snd raise] in *; rewrite A; exact G.
      * exact G.
    + unfold bind. pose proof (cache_get w0) as G.
      pose proof (get_obtained w0) as O.
      destruct (get_ups_data w0) as [r w1]. cbn [fst snd] in G, O.
      subst r. rewrite T0 in G.
      destruct (truthy (obtained w0)); unfold lift, ret, print;
        [destruct (py_contains key (obtained w0)) as [[|]|e];
         [destruct (py_getitem (obtained w0) key)| |]|];
        exact G.
Qed.

(** X14.  A run touches the cache file only when it queried the device and
    got a snapshot.  Then the file holds an entry with that snapshot,
    stamped with a reading of the clock, when the write succeeds; it is
    left without JSON text, the entry it held lost, when the write fails
    after the file was opened; and it is left as it was when the file
    cannot be opened.  A run that made no query or got no snapshot leaves
    the file as it was. *)
Theorem main_cache_writes (argv : list string) (w : world) :
  let attempts := polls argv w && truthy (device_answer w) in
  (attempts = true -> cache_writable w = true ->
   exists n, cache_file (snd (main argv w))
             = cache_entry (clock w n) (device_answer w))
  /\ (attempts = true -> cache_writable w = false ->
      cache_openable w = true ->
      cache_file (snd (main argv w)) = Corrupt)
  /\ (attempts = true -> cache_writable w = false ->
      cache_openable w = false ->
      cache_file (snd (main argv w)) = cache_file w)
  /\ (attempts = false -> cache_file (snd (main argv w)) = cache_file w).
Proof.
  cbv zeta. rewrite cache_main. unfold written.
  destruct (polls argv w && truthy (device_answer w)).
  - split; [intros _ ->; eauto|].
    split; [intros _ -> ->; reflexivity|].
    split; [intros _ -> ->; reflexivity | discriminate].
  - repeat (split; [discriminate|]). reflexivity.
Qed.

Lemma cached_entry_fresh now written values w :
  cache_file w = cache_entry written values ->
  clock w (ticks w) = now ->
  fresh_at now written = true ->
  cached_answer w = values.
Proof.
  intros C N F. unfold cached_answer. rewrite C. unfold cache_entry.
  unfold cached_value. cbn [stored_timestamp stored_values dict_get].
  change (String.eqb "timestamp" "timestamp") with true.
  change (String.eqb "values" "timestamp") with false.
  change (String.eqb "values" "values") with true. cbv iota.
  rewrite N, F. reflexivity.
Qed.

Lemma answer_truthy w d : device_answer w = PDict d -> truthy (PDict d) = true.
Proof.
  intros E. destruct (device_answer_shape w) as [N | (d' & E' & T)];
    congruence.
Qed.

(** X15.  After [get_ups_data] has fetched a snapshot from the device and
    stored it, a second call that finds the entry fresh returns the same
    snapshot and does not query the device. *)
Theorem cache_miss_then_hit (cached : pyval) (d : dict) (w w2 : world) :
  cache_writable w = true ->
  fst (read_from_cache w) = Ok cached -> truthy cached = false ->
  device_answer w = PDict d ->
  cache_file w2 = cache_file (snd (get_ups_data w)) ->
  fresh_at (clock w2 (ticks w2))
           (clock w (ticks (snd (read_from_cache w)))) = true ->
  fst (get_ups_data w2) = Ok (PDict d)
  /\ serial_queries (snd (get_ups_data w2)) = serial_queries w2.
Proof.
  intros W R M D C F. rewrite read_eq in R, F. cbn [fst snd] in R, F.
  injection R as <-.
  pose proof (answer_truthy w d D) as T.
  rewrite cache_get, M, D, T in C. unfold written in C. rewrite W in C.
  cbn [negb andb] in C.
  pose proof (cached_entry_fresh _ _ _ w2 C eq_refl F) as A.
  rewrite get_obtained, queries_get. unfold obtained. rewrite A, T.
  split; reflexivity.
Qed.

(** X15, in the sample world: the second call comes 60 seconds after the
    first. *)
Lemma cache_miss_then_hit_sample :
  let w2 := set_cache_file
              (cache_entry (sample_clock 0) (PDict sample_snapshot))
              (set_ticks 1 sample_world) in
  fst (get_ups_data w2) = Ok (PDict sample_snapshot)
  /\ serial_queries (snd (get_ups_data w2)) = serial_queries w2.
Proof.
  apply (cache_miss_then_hit PNone sample_snapshot sample_world
           (set_cache_file
              (cache_entry (sample_clock 0) (PDict sample_snapshot))
              (set_ticks 1 sample_world)));
    [reflexivity | reflexivity | reflexivity | exact sample_answer | |
     vm_compute; reflexivity].
  rewrite cache_get, sample_answer. reflexivity.
Defined.

(** X16.  After [update_cache] has stored a snapshot, a metric command run
    while the entry is fresh prints the key and the value the snapshot holds
    for it, without querying the device. *)
Theorem update_then_metric (prog key : string) (d : dict) (w w2 : world) :
  key <> "update_cache" -> key <> "send_to_zabbix" ->
  cache_writable w = true ->
  device_answer w = PDict d ->
  cache_file w2 = cache_file (snd (main [prog; "update_cache"] w)) ->
  fresh_at (clock w2 (ticks w2)) (clock w (ticks w)) = true ->
  stdout (snd (main [prog; key] w2))
  = (stdout w2
     ++ [Text key;
         match dict_get key d with
         | Some v => Value v
         | None => Text "Error getting Data"
         end])%list
  /\ serial_queries (snd (main [prog; key] w2)) = serial_queries w2.
Proof.
  intros K1 K2 W D C F.
  pose proof (answer_truthy w d D) as T.
  rewrite cache_main, polls_eq in C.
  change (String.eqb "update_cache" "update_cache") with true in C.
  rewrite D, T in C. unfold written in C. rewrite W in C.
  cbn [orb andb] in C.
  pose proof (cached_entry_fresh _ _ _ w2 C eq_refl F) as A.
  assert (O : obtained w2 = PDict d) by (unfold obtained; rewrite A, T; auto).
  rewrite (metric_run prog key w2 K1 K2) by (right; eauto).
  rewrite O. cbn [snd print stdout set_stdout serial_queries metric_line].
  set (w0 := set_stdout (stdout w2 ++ [Text key]) w2).
  pose proof (output_get w0) as GO. pose proof (queries_get w0) as GQ.
  change (cached_answer w0) with (cached_answer w2) in GQ.
  rewrite A, T in GQ. rewrite GO, GQ. unfold w0.
  cbn [stdout set_stdout serial_queries]. rewrite <- app_assoc.
  split; reflexivity.
Qed.

(** X16, in the sample world: the charge is read 60 seconds after the
    update. *)
Lemma update_then_metric_sample :
  let w2 := set_cache_file
              (cache_entry (sample_clock 0) (PDict sample_snapshot))
              (set_ticks 1 sample_world) in
  stdout (snd (main ["ups_cache.py"; "battery_charge"] w2))
  = [Text "battery_charge"; Value (PInt 77)]
  /\ serial_queries (snd (main ["ups_cache.py"; "battery_charge"] w2))
     = serial_queries w2.
Proof.
  apply (update_then_metric "ups_cache.py" "battery_charge" sample_snapshot
           sample_world
           (set_cache_file
              (cache_entry (sample_clock 0) (PDict sample_snapshot))
              (set_ticks 1 sample_world)));
    [discriminate | discriminate | reflexivity | exact sample_answer | |
     vm_compute; reflexivity].
  rewrite cache_main, polls_eq, sample_answer. reflexivity.
Defined.

(** X17.  When the write of the cache file fails, [update_cache] still
    prints [OK] for a snapshot and exits with status 0: the failure is
    silent.  No entry is stored: the file is left as it was when it cannot
    be opened, and is left without JSON text, the entry it held lost, when
    the write fails after the file was opened. *)
Theorem update_cache_unwritable (prog : string) (w : world) :
  cache_writable w = false -> device_answer w <> PNone ->
  fst (main [prog; "update_cache"] w) = Raise (SystemExit 0)
  /\ stdout (snd (main [prog; "update_cache"] w))
     = (stdout w ++ [Text "update_cache"; Text "OK"])%list
  /\ cache_file (snd (main [prog; "update_cache"] w))
     = (if cache_openable w then Corrupt else cache_file w).
Proof.
  intros W D.
  assert (T : truthy (device_answer w) = true).
  { destruct (device_answer_shape w) as [N | (d & E & T)];
      [contradiction | rewrite E; exact T]. }
  split; [|split].
  - rewrite main_dispatch. cbn [String.eqb Ascii.eqb Bool.eqb].
    unfold bind. rewrite query_ups_eq.
    change (device_answer _) with (device_answer w). rewrite T.
    rewrite write_to_cache_eq. reflexivity.
  - rewrite main_dispatch. cbn [String.eqb Ascii.eqb Bool.eqb].
    unfold bind. rewrite query_ups_eq.
    change (device_answer _) with (device_answer w). rewrite T.
    rewrite write_to_cache_eq.
    cbn [cache_writable cache_openable set_serial_queries snd print
         set_stdout].
    rewrite W. destruct (cache_openable w);
      cbn [fst snd print raise stdout set_stdout set_serial_queries
           set_cache_file set_ticks];
      rewrite <- app_assoc; reflexivity.
  - rewrite cache_main, polls_eq, T. unfold written. rewrite W. reflexivity.
Qed.

(** X17, in the sample world with a cache file that can be opened but not
    written: the run prints [OK] and leaves the file empty. *)
Lemma update_cache_unwritable_sample :
  let w := set_cache_writable false sample_world in
  fst (main ["ups_cache.py"; "update_cache"] w) = Raise (SystemExit 0)
  /\ stdout (snd (main ["ups_cache.py"; "update_cache"] w))
     = [Text "update_cache"; Text "OK"]
  /\ cache_file (snd (main ["ups_cache.py"; "update_cache"] w)) = Corrupt.
Proof.
  apply (update_cache_unwritable "ups_cache.py"
           (set_cache_writable false sample_world)).
  - reflexivity.
  - unfold device_answer.
    cbn [serial_port set_cache_writable sample_world].
    change (Str.strip sample_reply) with sample_reply.
    rewrite sample_parses. discriminate.
Defined.

End Commands.

(** ** What the sender is given *)
Section Sending.

Lemma send_named data h zabbix_server w :
  h <> "" ->
  send_all_to_zabbix data (Some h) zabbix_server w
  = send_as data h zabbix_server w.
Proof.
  intros H. apply String.eqb_neq in H.
  unfold send_all_to_zabbix, send_as. rewrite H. reflexivity.
Qed.

Lemma send_unnamed data hostname zabbix_server w :
  hostname = None \/ hostname = Some "" ->
  send_all_to_zabbix data hostname zabbix_server w
  = send_as data (local_hostname w) zabbix_server
      (snd (print (Text "Hostname Incorrect") w)).
Proof. intros [-> | ->]; reflexivity. Qed.

Lemma write_temp_eq d hostname w :
  tmp_creatable w = true -> tmp_writable w = true ->
  write_temp (PDict d) hostname w
  = (Ok (tmp_next w),
     set_tmp (S (tmp_next w))
       ((tmp_next w, item_lines hostname d) :: tmp_files w) w).
Proof.
  intros C W. unfold write_temp. rewrite C, W. cbn [negb].
  destruct (item_lines hostname d); reflexivity.
Qed.

Lemma file_content_head path lines files :
  file_content path ((path, lines) :: files) = lines.
Proof.
  unfold file_content. cbn [find fst]. rewrite Nat.eqb_refl. reflexivity.
Qed.

Lemma file_exists_head path lines files :
  file_exists path ((path, lines) :: files) = true.
Proof.
  unfold file_exists. cbn [existsb fst]. rewrite Nat.eqb_refl. reflexivity.
Qed.

(** The sender ran and its output decodes. *)
Lemma send_as_exits d h zabbix_server code out err w :
  tmp_creatable w = true -> tmp_writable w = true ->
  sender w = SenderExits code (Some out) (Some err) ->
  let w' := snd (send_as (PDict d) h zabbix_server w) in
  fst (send_as (PDict d) h zabbix_server w) = Ok tt
  /\ sender_runs w'
     = (sender_runs w ++ [(zabbix_server, item_lines h d)])%list
  /\ stdout w'
     = (stdout w ++ Text out :: (if code =? 0 then [] else [Text err]))%list
  /\ tmp_files w'
     = remove_file (tmp_next w)
         ((tmp_next w, item_lines h d) :: tmp_files w)
  /\ acquisition_side w' = acquisition_side w.
Proof.
  intros C W Se. unfold send_as, send_attempt.
  rewrite (write_temp_eq d h w C W).
  rewrite close_temp_ok by exact W.
  unfold report_sender, bind, run_sender. cbn [sender set_tmp].
  rewrite Se. cbn [tmp_files set_tmp]. rewrite file_content_head.
  cbn [lift decode print].
  destruct (code =? 0); cbn [negb ret lift decode print];
    unfold send_cleanup;
    cbn [tmp_files set_stdout set_sender_runs set_tmp];
    rewrite file_exists_head; cbn [fst snd]; repeat split;
    cbn [stdout set_tmp set_stdout set_sender_runs];
    rewrite <- ?app_assoc; reflexivity.
Qed.

(** X18.  With a host name, the forwarder runs the sender once, on the given
    server, with one line [hostname key value] for each item of the data
    whose value is a number, a boolean or a string, in the data's order; it
    prints the sender's standard output, and its standard error as well when
    the exit code is not 0. *)
Theorem forwarder_sends_scalar_items
  (data : dict) (hostname zabbix_server out err : string) (code : Z)
  (w : world) :
  hostname <> "" ->
  tmp_creatable w = true -> tmp_writable w = true ->
  sender w = SenderExits code (Some out) (Some err) ->
  let w' := snd (send_all_to_zabbix (PDict data) (Some hostname)
                   zabbix_server w) in
  sender_runs w'
  = (sender_runs w
     ++ [(zabbix_server,
          map (fun kv => (hostname, fst kv, snd kv))
              (filter (fun kv => is_scalar (snd kv)) data))])%list
  /\ stdout w'
     = (stdout w ++ Text out :: (if code =? 0 then [] else [Text err]))%list.
Proof.
  intros H C W Se. rewrite (send_named _ _ _ _ H).
  destruct (send_as_exits data hostname zabbix_server code out err w C W Se)
    as (_ & R & O & _). split; [exact R | exact O].
Qed.

(** X18, for data with a [None] and a list among its values, which are left
    out. *)
Lemma forwarder_sends_scalar_items_sample :
  let w' := snd (send_all_to_zabbix
                   (PDict [("battery_charge", PInt 77); ("note", PNone);
                           ("flags", PList []); ("model", PStr "A1")])
                   (Some "UPSMonitor") "192.168.1.200" sample_world) in
  sender_runs w'
  = [("192.168.1.200",
      [("UPSMonitor", "battery_charge", PInt 77);
       ("UPSMonitor", "model", PStr "A1")])]
  /\ stdout w' = [Text ""; Text "failed"].
Proof.
  apply (forwarder_sends_scalar_items
           [("battery_charge", PInt 77); ("note", PNone);
            ("flags", PList []); ("model", PStr "A1")]
           "UPSMonitor" "192.168.1.200" "" "failed" 1 sample_world);
    [discriminate | reflexivity | reflexivity | reflexivity].
Defined.

(** X19.  Without a host name ([None] or the empty string) the forwarder
    prints [Hostname Incorrect] first and writes the lines under the
    machine's own host name. *)
Theorem forwarder_hostname_fallback
  (data : dict) (hostname : option string) (zabbix_server out err : string)
  (code : Z) (w : world) :
  hostname = None \/ hostname = Some "" ->
  tmp_creatable w = true -> tmp_writable w = true ->
  sender w = SenderExits code (Some out) (Some err) ->
  let w' := snd (send_all_to_zabbix (PDict data) hostname zabbix_server w) in
  sender_runs w'
  = (sender_runs w
     ++ [(zabbix_server, item_lines (local_hostname w) data)])%list
  /\ stdout w'
     = (stdout w
        ++ Text "Hostname Incorrect" :: Text out
             :: (if code =? 0 then [] else [Text err]))%list.
Proof.
  intros H C W Se. rewrite (send_unnamed _ _ _ _ H).
  set (w0 := snd (print (Text "Hostname Incorrect") w)).
  destruct (send_as_exits data (local_hostname w) zabbix_server code out err
              w0 C W Se) as (_ & R & O & _).
  split; [exact R|]. rewrite O. unfold w0. cbn [snd print stdout set_stdout].
  rewrite <- app_assoc. reflexivity.
Qed.

(** X19, in the sample world, whose host name is [localhost]. *)
Lemma forwarder_hostname_fallback_sample :
  let w' := snd (send_all_to_zabbix (PDict [("battery_charge", PInt 77)])
                   None "192.168.1.200" sample_world) in
  sender_runs w'
  = [("192.168.1.200", [("localhost", "battery_charge", PInt 77)])]
  /\ stdout w' = [Text "Hostname Incorrect"; Text ""; Text "failed"].
Proof.
  apply (forwarder_hostname_fallback [("battery_charge", PInt 77)] None
           "192.168.1.200" "" "failed" 1 sample_world);
    [left; reflexivity | reflexivity | reflexivity | reflexivity].
Defined.

(** X20.  When the sender is missing or running it raises an [Exception],
    the forwarder prints the error message and nothing else, records no run
    and returns normally; output of the sender that does not decode is
    reported the same way. *)
Theorem forwarder_reports_failure
  (data : dict) (hostname zabbix_server : string) (w : world) :
  hostname <> "" ->
  tmp_creatable w = true -> tmp_writable w = true ->
  let run := send_all_to_zabbix (PDict data) (Some hostname) zabbix_server in
  (sender w = SenderMissing ->
   fst (run w) = Ok tt
   /\ stdout (snd (run w)) = (stdout w ++ [SendError FileNotFoundError])%list
   /\ sender_runs (snd (run w)) = sender_runs w)
  /\ (forall e, sender w = SenderRaises e -> is_Exception e = true ->
      fst (run w) = Ok tt
      /\ stdout (snd (run w)) = (stdout w ++ [SendError e])%list
      /\ sender_runs (snd (run w)) = sender_runs w)
  /\ (forall code err, sender w = SenderExits code None err ->
      fst (run w) = Ok tt
      /\ stdout (snd (run w)) = (stdout w ++ [SendError UnicodeError])%list)
  /\ (forall code out, sender w = SenderExits code (Some out) None ->
      fst (run w) = Ok tt
      /\ stdout (snd (run w))
         = (stdout w
            ++ Text out
                 :: (if code =? 0 then [] else [SendError UnicodeError]))%list).
Proof.
  intros H C W run. subst run. cbv beta.
  rewrite (send_named _ _ _ _ H).
  unfold send_as, send_attempt. rewrite (write_temp_eq data hostname w C W).
  rewrite close_temp_ok by exact W.
  unfold report_sender, bind, run_sender. cbn [sender set_tmp].
  split; [|split; [|split]].
  - intros ->. cbn [is_Exception print]. unfold send_cleanup.
    cbn [tmp_files set_stdout set_tmp]. rewrite file_exists_head.
    repeat split.
  - intros e -> Ex. rewrite Ex. cbn [print]. unfold send_cleanup.
    cbn [tmp_files set_stdout set_tmp]. rewrite file_exists_head.
    repeat split.
  - intros code err ->. cbn [lift decode is_Exception print].
    unfold send_cleanup.
    cbn [tmp_files set_stdout set_sender_runs set_tmp].
    rewrite file_exists_head. repeat split.
  - intros code out ->. cbn [lift decode print].
    destruct (code =? 0); cbn [negb ret lift decode is_Exception print];
      unfold send_cleanup;
      cbn [tmp_files set_stdout set_sender_runs set_tmp];
      rewrite file_exists_head; cbn [fst snd]; split; try reflexivity;
      cbn [stdout set_tmp set_stdout set_sender_runs];
      rewrite <- ?app_assoc; reflexivity.
Qed.

(** X20, in the sample world without the sender executable. *)
Lemma forwarder_reports_failure_sample :
  let w := set_sender SenderMissing sample_world in
  let run := send_all_to_zabbix (PDict sample_snapshot) (Some "UPSMonitor")
               "192.168.1.200" in
  fst (run w) = Ok tt
  /\ stdout (snd (run w)) = [SendError FileNotFoundError]
  /\ sender_runs (snd (run w)) = [].
Proof.
  apply (proj1 (forwarder_reports_failure sample_snapshot "UPSMonitor"
                  "192.168.1.200" (set_sender SenderMissing sample_world)
                  ltac:(discriminate) eq_refl eq_refl)).
  reflexivity.
Defined.

Lemma send_as_interrupt d h zabbix_server e w :
  tmp_creatable w = true -> tmp_writable w = true -> names_fresh w ->
  sender w = SenderRaises e -> is_Exception e = false ->
  fst (send_as (PDict d) h zabbix_server w) = Raise e
  /\ tmp_files (snd (send_as (PDict d) h zabbix_server w)) = tmp_files w
  /\ sender_runs (snd (send_as (PDict d) h zabbix_server w)) = sender_runs w
  /\ stdout (snd (send_as (PDict d) h zabbix_server w)) = stdout w.
Proof.
  intros C W Fr Se Ex. unfold send_as, send_attempt.
  rewrite (write_temp_eq d h w C W).
  rewrite close_temp_ok by exact W.
  unfold report_sender, bind, run_sender. cbn [sender set_tmp].
  rewrite Se, Ex. unfold send_cleanup. cbn [tmp_files set_tmp].
  rewrite file_exists_head. cbn [fst snd tmp_files set_tmp].
  rewrite (remove_fresh _ _ _ Fr). repeat split.
Qed.

(** X21.  An exception of the sender that is not an [Exception], such as a
    keyboard interrupt, is not caught: it leaves the forwarder, after the
    [finally] block has removed the temporary file. *)
Theorem forwarder_interrupted
  (data : dict) (hostname : option string) (zabbix_server : string)
  (e : exn) (w : world) :
  tmp_creatable w = true -> tmp_writable w = true -> names_fresh w ->
  sender w = SenderRaises e -> is_Exception e = false ->
  let run := send_all_to_zabbix (PDict data) hostname zabbix_server in
  fst (run w) = Raise e
  /\ tmp_files (snd (run w)) = tmp_files w
  /\ sender_runs (snd (run w)) = sender_runs w.
Proof.
  intros C W Fr Se Ex run. subst run. cbv beta.
  assert (N : hostname = None \/ hostname = Some ""
              \/ exists h, hostname = Some h /\ h <> "").
  { destruct hostname as [h|]; [|auto].
    destruct (String.eqb_spec h ""); [subst; auto | eauto]. }
  destruct N as [N | [N | (h & -> & N)]].
  - rewrite send_unnamed by auto.
    destruct (send_as_interrupt data (local_hostname w) zabbix_server e
                (snd (print (Text "Hostname Incorrect") w)) C W Fr Se Ex)
      as (R & T & S & _). auto.
  - rewrite send_unnamed by auto.
    destruct (send_as_interrupt data (local_hostname w) zabbix_server e
                (snd (print (Text "Hostname Incorrect") w)) C W Fr Se Ex)
      as (R & T & S & _). auto.
  - rewrite send_named by exact N.
    destruct (send_as_interrupt data h zabbix_server e w C W Fr Se Ex)
      as (R & T & S & _). auto.
Qed.

(** X21, in the sample world with a sender interrupted from the keyboard. *)
Lemma forwarder_interrupted_sample :
  let w := set_sender (SenderRaises KeyboardInterrupt) sample_world in
  let run := send_all_to_zabbix (PDict sample_snapshot) (Some "UPSMonitor")
               "192.168.1.200" in
  fst (run w) = Raise KeyboardInterrupt
  /\ tmp_files (snd (run w)) = []
  /\ sender_runs (snd (run w)) = [].
Proof.
  apply (forwarder_interrupted sample_snapshot (Some "UPSMonitor")
           "192.168.1.200" KeyboardInterrupt
           (set_sender (SenderRaises KeyboardInterrupt) sample_world));
    try reflexivity.
  intros f [].
Defined.

(** X22.  [send_to_zabbix] with data at hand runs the sender once, on the
    configured server and under the configured host name, with the lines of
    the obtained data; it prints the key and the sender's output, and exits
    with status 0. *)
Theorem send_to_zabbix_command
  (prog out err : string) (code : Z) (d : dict) (w : world) :
  fst (get_ups_data w) = Ok (PDict d) -> d <> [] ->
  tmp_creatable w = true -> tmp_writable w = true ->
  sender w = SenderExits code (Some out) (Some err) ->
  let w' := snd (main [prog; "send_to_zabbix"] w) in
  fst (main [prog; "send_to_zabbix"] w) = Raise (SystemExit 0)
  /\ sender_runs w'
     = (sender_runs w
        ++ [(ZABBIX_SERVER, item_lines ZABBIX_HOSTNAME d)])%list
  /\ stdout w'
     = (stdout w
        ++ Text "send_to_zabbix" :: Text out
             :: (if code =? 0 then [] else [Text err]))%list.
Proof.
  intros O N C W Se. rewrite get_obtained in O. injection O as O.
  rewrite main_dispatch.
  change (String.eqb "send_to_zabbix" "update_cache") with false.
  change (String.eqb "send_to_zabbix" "send_to_zabbix") with true.
  cbv iota. set (w0 := snd (print (Text "send_to_zabbix") w)).
  pose proof (get_obtained w0) as G. pose proof (output_get w0) as GO.
  pose proof (forwarding_get w0) as GF. apply side_parts in GF.
  destruct GF as (C1 & W1 & _ & _ & Se1 & R1 & _).
  unfold bind. destruct (get_ups_data w0) as [r w1].
  cbn [fst snd] in *. rewrite G.
  change (obtained w0) with (obtained w). rewrite O.
  assert (T : truthy (PDict d) = true)
    by (destruct d; [contradiction N|]; reflexivity).
  rewrite T, send_named by discriminate.
  change (tmp_creatable w0) with (tmp_creatable w) in C1.
  change (tmp_writable w0) with (tmp_writable w) in W1.
  change (sender w0) with (sender w) in Se1.
  change (sender_runs w0) with (sender_runs w) in R1.
  rewrite C in C1. rewrite W in W1. rewrite Se in Se1.
  destruct (send_as_exits d ZABBIX_HOSTNAME ZABBIX_SERVER code out err w1
              C1 W1 Se1) as (F & R & S & _).
  destruct (send_as (PDict d) ZABBIX_HOSTNAME ZABBIX_SERVER w1) as [r2 w2].
  cbn [fst snd] in *. subst r2. cbn [raise fst snd].
  split; [reflexivity|]. split.
  - rewrite R, R1. reflexivity.
  - rewrite S, GO. unfold w0. cbn [snd print stdout set_stdout].
    rewrite <- app_assoc. reflexivity.
Qed.

(** X22, in the sample world. *)
Lemma send_to_zabbix_command_sample :
  let w' := snd (main ["ups_cache.py"; "send_to_zabbix"] sample_world) in
  fst (main ["ups_cache.py"; "send_to_zabbix"] sample_world)
  = Raise (SystemExit 0)
  /\ sender_runs w'
     = [(ZABBIX_SERVER, item_lines ZABBIX_HOSTNAME sample_snapshot)]
  /\ stdout w' = [Text "send_to_zabbix"; Text ""; Text "failed"].
Proof.
  apply (send_to_zabbix_command "ups_cache.py" "" "failed" 1 sample_snapshot
           sample_world);
    [exact sample_obtained | discriminate | reflexivity | reflexivity
    | reflexivity].
Defined.

(** X23.  [send_to_zabbix] with nothing obtained prints [No UPS data to
    send.] and exits with status 0; no temporary file is made and the sender
    is not run. *)
Theorem send_to_zabbix_without_data
  (prog : string) (data : pyval) (w : world) :
  fst (get_ups_data w) = Ok data -> truthy data = false ->
  let w' := snd (main [prog; "send_to_zabbix"] w) in
  fst (main [prog; "send_to_zabbix"] w) = Raise (SystemExit 0)
  /\ stdout w'
     = (stdout w
        ++ [Text "send_to_zabbix"; Text "No UPS data to send."])%list
  /\ forwarding_side w' = forwarding_side w.
Proof.
  intros O F. rewrite get_obtained in O. injection O as <-.
  rewrite main_dispatch.
  change (String.eqb "send_to_zabbix" "update_cache") with false.
  change (String.eqb "send_to_zabbix" "send_to_zabbix") with true.
  cbv iota. set (w0 := snd (print (Text "send_to_zabbix") w)).
  pose proof (get_obtained w0) as G. pose proof (output_get w0) as GO.
  pose proof (forwarding_get w0) as GF.
  unfold bind. destruct (get_ups_data w0) as [r w1].
  cbn [fst snd] in *. rewrite G.
  change (obtained w0) with (obtained w). rewrite F.
  cbn [print raise fst snd stdout set_stdout]. rewrite GO.
  split; [reflexivity|]. split.
  - unfold w0. cbn [snd print stdout set_stdout].
    rewrite <- app_assoc. reflexivity.
  - exact GF.
Qed.

(** X23, in the sample world with a device that does not answer. *)
Lemma send_to_zabbix_without_data_sample :
  let w := set_serial_port PortFails sample_world in
  let w' := snd (main ["ups_cache.py"; "send_to_zabbix"] w) in
  fst (main ["ups_cache.py"; "send_to_zabbix"] w) = Raise (SystemExit 0)
  /\ stdout w' = [Text "send_to_zabbix"; Text "No UPS data to send."]
  /\ forwarding_side w' = forwarding_side w.
Proof.
  apply (send_to_zabbix_without_data "ups_cache.py" PNone
           (set_serial_port PortFails sample_world));
    vm_compute; reflexivity.
Defined.

Lemma forwarding_main argv : forwards argv = false ->
  keeps forwarding_side (main argv).
Proof.
  intros F w.
  destruct (argv_shape argv) as [L | (prog & key & ->)].
  - rewrite (main_usage_eq argv w L). reflexivity.
  - cbn [forwards] in F. rewrite main_dispatch, F.
    set (w0 := snd (print (Text key) w)).
    change (forwarding_side w) with (forwarding_side w0).
    generalize w0.
    assert (Q : keeps forwarding_side query_ups)
      by (apply keeps_query; reflexivity).
    assert (W : forall v, keeps forwarding_side (write_to_cache v))
      by (intros v; apply keeps_write; reflexivity).
    destruct (String.eqb key "update_cache").
    + apply keeps_bind; [exact Q|]. intros fresh.
      apply keeps_bind; [|intros; apply keeps_raise].
      apply keeps_if; [|apply forwarding_print].
      apply keeps_bind; [apply W|]. intros _. apply forwarding_print.
    + apply keeps_bind; [exact forwarding_get|]. intros data.
      apply keeps_bind.
      * apply keeps_if; [apply keeps_lift | apply keeps_ret].
      * intros found. apply keeps_if; [|apply forwarding_print].
        apply keeps_bind; [apply keeps_lift|]. intros v.
        apply forwarding_print.
Qed.

(** X24.  Unless the command is [send_to_zabbix], a run makes no temporary
    file and never runs the sender, whatever the arguments. *)
Theorem main_forwards_only_on_request (argv : list string) (w : world) :
  forwards argv = false ->
  tmp_files (snd (main argv w)) = tmp_files w
  /\ tmp_next (snd (main argv w)) = tmp_next w
  /\ sender_runs (snd (main argv w)) = sender_runs w.
Proof.
  intros F. pose proof (forwarding_main argv F w) as K.
  apply side_parts in K. tauto.
Qed.

(** X24, for [update_cache] in the sample world. *)
Lemma main_forwards_only_on_request_sample :
  let w' := snd (main ["ups_cache.py"; "update_cache"] sample_world) in
  tmp_files w' = [] /\ tmp_next w' = 0%nat /\ sender_runs w' = [].
Proof.
  apply (main_forwards_only_on_request ["ups_cache.py"; "update_cache"]
           sample_world).
  reflexivity.
Defined.

End Sending.
